(** * trajtracker: movement monitoring, validators and the number line

    A shallow embedding of
      - [trajtracker/movement/_SpeedMonitor.py]
      - [trajtracker/validators/_InstantaneousSpeedValidator.py]
      - [trajtracker/validators/_MoveByGradientValidator.py]
      - [trajtracker/stimuli/_NumberLine.py] (the touch detection, the
        feedback stimulus, the value of the touch and the size)
      - [trajtracker/misc/nvshapes/_Sector.py]
      - [trajtracker/stimuli/_RSVPText.py] with [_BaseRSVPStim.py] (the
        configuration of the stimuli and the interface without events)
    and the properties of these classes.

    Python numbers ([int], [float]) are idealised as real numbers where the
    code computes speeds (square roots, divisions), as integers and rationals
    where it only compares pixel coordinates and colours.  What depends on
    the rounding is stated on a second embedding, in double precision, of
    the speed monitor ([SpeedMonitor64]) and of the value of a touch
    ([NumberLine64]).  A method that
    mutates [self] and may raise is a function from the object's state to the
    state left behind together with either the returned value or the
    exception raised.

    The argument checks of [trajtracker._utils] are not in the sources.  The
    type checks are discharged by the types of the arguments; a value that
    [validate_attr_positive] or [validate_attr_not_negative] rejects raises a
    [ValueError].  Logging is left out. *)

From Stdlib Require Import Reals Lra Psatz List Sorted ZArith QArith Qabs Qminmax String Bool Lia.
From Stdlib Require PrimFloat FloatOps.
Import ListNotations.

(* ================================================================== *)
(** * Python runtime: exceptions, stateful methods, numbers           *)
(* ================================================================== *)

Module Py.

Local Open Scope R_scope.

Inductive exn : Type :=
| TypeError
| ValueError
| IndexError
| AttributeError
| ZeroDivisionError
| OverflowError
| InvalidStateError.   (* trajtracker.InvalidStateError *)

Inductive result (A : Type) : Type :=
| Ok (a : A)
| Raise (e : exn).
Arguments Ok {A} a.
Arguments Raise {A} e.

(** A method of an object whose state has type [S]: it returns the state
    it leaves behind (also when it raises) and its outcome. *)
Definition M (S A : Type) : Type := S -> S * result A.

Definition ret {S A} (a : A) : M S A := fun s => (s, Ok a).
Definition raise {S A} (e : exn) : M S A := fun s => (s, Raise e).
Definition bind {S A B} (c : M S A) (k : A -> M S B) : M S B :=
  fun s => match c s with
           | (s', Ok a) => k a s'
           | (s', Raise e) => (s', Raise e)
           end.
Definition get {S} : M S S := fun s => (s, Ok s).
Definition modify {S} (f : S -> S) : M S unit := fun s => (f s, Ok tt).
(** Evaluation of a side-effect free expression that may raise. *)
Definition lift {S A} (r : result A) : M S A := fun s => (s, r).

(** Exceptions in expressions without side effects. *)
Definition rbind {A B} (r : result A) (k : A -> result B) : result B :=
  match r with
  | Ok a => k a
  | Raise e => Raise e
  end.

Definition raises {A} (r : result A) : Prop := exists e, r = Raise e.

(** [l[-1]] when the list has an element, [None] otherwise. *)
Definition last_opt {A} (l : list A) : option A := nth_error l (List.length l - 1).

(** Booleans of the comparisons of two Python numbers. *)
Definition Rleb (a b : R) : bool := if Rle_dec a b then true else false.
Definition Rltb (a b : R) : bool := if Rlt_dec a b then true else false.

(** A number as the interpreter holds it: a built-in [int]/[float], or a
    [numpy.float64] (what [np.sqrt] returns).  The two differ in what a
    division by zero does. *)
Inductive number : Type :=
| PyNum (r : R)
| NpNum (r : R).

Definition number_val (n : number) : R :=
  match n with PyNum r | NpNum r => r end.

(** [a + b]: the sum is a [numpy.float64] as soon as one operand is. *)
Definition number_add (a b : number) : number :=
  match a, b with
  | PyNum x, PyNum y => PyNum (x + y)
  | _, _ => NpNum (number_val a + number_val b)
  end.

(** The built-in [sum]: [0 + l[0] + l[1] + ...], from the [int] 0. *)
Definition sum (l : list number) : number := fold_left number_add l (PyNum 0).

(** A value a speed query hands out: a finite number, or one of the
    [numpy.float64] specials. *)
Inductive value : Type :=
| VPy (r : R)
| VNp (r : R)
| VInf (negative : bool)
| VNaN.

(** [a / b] on built-in numbers (true division): raises on [b = 0]. *)
Definition py_div (a b : R) : result R :=
  if Req_dec_T b 0 then Raise ZeroDivisionError else Ok (a / b).

(** [a / b] with [a] a [numpy.float64] and [b] a built-in number: NumPy
    warns and returns [nan] or a signed [inf]; it does not raise. *)
Definition np_div (a b : R) : value :=
  if Req_dec_T b 0 then
    if Req_dec_T a 0 then VNaN
    else VInf (Rltb a 0)
  else VNp (a / b).

Definition number_div (a : number) (b : R) : result value :=
  match a with
  | PyNum x => rbind (py_div x b) (fun q => Ok (VPy q))
  | NpNum x => Ok (np_div x b)
  end.

(** [v < b] and [v > b] for a bound [b] that is a built-in number. *)
Definition value_lt (v : value) (b : R) : bool :=
  match v with
  | VPy r | VNp r => Rltb r b
  | VInf negative => negative
  | VNaN => false
  end.

Definition value_gt (v : value) (b : R) : bool :=
  match v with
  | VPy r | VNp r => Rltb b r
  | VInf negative => negb negative
  | VNaN => false
  end.

End Py.

Import Py.

Declare Scope py_scope.
Delimit Scope py_scope with py.
Notation "x <- c ;; k" := (Py.bind c (fun x => k))
(at level 61, c at next level, right associativity) : py_scope.
Notation "c ;;; k" := (Py.bind c (fun _ => k))
(at level 61, right associativity) : py_scope.

(* ================================================================== *)
(** * movement.SpeedMonitor                                           *)
(* ================================================================== *)

Module SpeedMonitor.

Local Open Scope R_scope.
Local Open Scope py_scope.

(** An element of [_recent_points]: the tuple
    [(x_coord, y_coord, time, distance)]. *)
Record point : Type := mkPoint {
  p0 : R;          (* [p[0]]: x, in mm *)
  p1 : R;          (* [p[1]]: y, in mm *)
  p2 : R;          (* [p[2]]: time *)
  p3 : number      (* [p[3]]: distance from the previous sample *)
}.

Record t : Type := mk {
  _units_per_mm : R;
  _calculation_interval : R;
  _recent_points : list point;
  _pre_recent_point : option point;
  _time0 : option R
}.

Definition set_recent_points (l : list point) (self : t) : t :=
  mk (_units_per_mm self) (_calculation_interval self) l
     (_pre_recent_point self) (_time0 self).
Definition set_pre_recent_point (p : option point) (self : t) : t :=
  mk (_units_per_mm self) (_calculation_interval self) (_recent_points self)
     p (_time0 self).
Definition set_time0 (t0 : option R) (self : t) : t :=
  mk (_units_per_mm self) (_calculation_interval self) (_recent_points self)
     (_pre_recent_point self) t0.
Definition set_calculation_interval (c : R) (self : t) : t :=
  mk (_units_per_mm self) c (_recent_points self)
     (_pre_recent_point self) (_time0 self).

(** [reset(time)] *)
Definition reset (time : option R) (self : t) : t :=
  set_time0 time (set_pre_recent_point None (set_recent_points [] self)).

(** The setter of [calculation_interval]: [validate_attr_not_negative]. *)
Definition calculation_interval_setter (value : R) : M t unit :=
  if Rltb value 0 then raise ValueError
  else modify (set_calculation_interval value).

(** [__init__(self, units_per_mm, calculation_interval)], the two setters
    ([validate_attr_positive], [validate_attr_not_negative]) and [reset()]. *)
Definition __init__ (units_per_mm calculation_interval : R) : result t :=
  if Rleb units_per_mm 0 then Raise ValueError
  else if Rltb calculation_interval 0 then Raise ValueError
  else Ok (mk units_per_mm calculation_interval [] None None).

(** A call [SpeedMonitor(a, b, ...)]: Python binds the positional arguments
    to the two required parameters of [__init__] and raises [TypeError]
    when their number differs. *)
Definition new (args : list R) : result t :=
  match args with
  | [units_per_mm; calculation_interval] =>
      __init__ units_per_mm calculation_interval
  | _ => Raise TypeError
  end.

(** [prev_time] of [_validate_time]: the time of the last sample, or
    [_time0] when there is no sample. *)
Definition prev_time (self : t) : option R :=
  match last_opt (_recent_points self) with
  | Some p => Some (p2 p)
  | None => _time0 self
  end.

(** [_validate_time(time)] *)
Definition _validate_time (time : R) : M t unit :=
  self <- get ;;
  match prev_time self with
  | Some prev => if Rltb time prev then raise InvalidStateError else ret tt
  | None => ret tt
  end.

(** [np.where(mask)[0]]: the indices at which the mask holds, increasing. *)
Fixpoint where_from (i : nat) (mask : list bool) : list nat :=
  match mask with
  | [] => []
  | b :: mask' =>
      if b then i :: where_from (S i) mask' else where_from (S i) mask'
  end.
Definition np_where (mask : list bool) : list nat := where_from 0 mask.

(** [_remove_recent_points_older_than(latest_good_time)] *)
Definition _remove_recent_points_older_than (latest_good_time : R) (self : t) : t :=
  let older_than_threshold :=
    np_where (map (fun p => Rleb (p2 p) latest_good_time) (_recent_points self)) in
  match last_opt older_than_threshold with
  | Some k =>
      set_recent_points (skipn (S k) (_recent_points self))
        (set_pre_recent_point (nth_error (_recent_points self) k) self)
  | None => self
  end.

(** [update_xyt(x_coord, y_coord, time)] with numeric arguments, taken to be
    built-in numbers: the coordinates stay built-in numbers after the
    division, [np.sqrt] makes the distance a [numpy.float64].  The
    arithmetic is exact here: nothing rounds and [** 2] has no
    [OverflowError]; [SpeedMonitor64] below has the doubles. *)
Definition update_xyt (x_coord y_coord time : R) : M t unit :=
  _validate_time time ;;;
  modify (fun self =>
            match _time0 self with
            | None => set_time0 (Some time) self
            | Some _ => self
            end) ;;;
  self <- get ;;
  x_coord <- lift (py_div x_coord (_units_per_mm self)) ;;
  y_coord <- lift (py_div y_coord (_units_per_mm self)) ;;
  let distance :=
    match last_opt (_recent_points self) with
    | Some last_loc =>
        NpNum (sqrt ((x_coord - p0 last_loc) ^ 2 + (y_coord - p1 last_loc) ^ 2))
    | None => PyNum 0
    end in
  modify (_remove_recent_points_older_than (time - _calculation_interval self)) ;;;
  modify (fun self =>
            set_recent_points
              (_recent_points self ++ [mkPoint x_coord y_coord time distance]) self).

(** The property [time_in_trial]. *)
Definition time_in_trial (self : t) : option R :=
  match _time0 self, last_opt (_recent_points self) with
  | Some t0, Some p => Some (p2 p - t0)
  | _, _ => None
  end.

(** The property [last_calculation_interval]; [self._recent_points[-1]]
    raises [IndexError] on an empty list. *)
Definition last_calculation_interval (self : t) : result (option R) :=
  match _pre_recent_point self with
  | None => Ok None
  | Some pre =>
      match last_opt (_recent_points self) with
      | Some p => Ok (Some (p2 p - p2 pre))
      | None => Raise IndexError
      end
  end.

(** [n / self.last_calculation_interval] *)
Definition div_by_interval (n : number) (self : t) : result (option value) :=
  rbind (last_calculation_interval self)
    (fun i => match i with
              | Some d => rbind (number_div n d) (fun v => Ok (Some v))
              | None => Raise TypeError
              end).

(** The property [xspeed]. *)
Definition xspeed (self : t) : result (option value) :=
  match _pre_recent_point self with
  | None => Ok None
  | Some pre =>
      let y1 := p0 pre in
      match last_opt (_recent_points self) with
      | None => Raise IndexError
      | Some p => let y2 := p0 p in div_by_interval (PyNum (y2 - y1)) self
      end
  end.

(** The property [yspeed]. *)
Definition yspeed (self : t) : result (option value) :=
  match _pre_recent_point self with
  | None => Ok None
  | Some pre =>
      let y1 := p1 pre in
      match last_opt (_recent_points self) with
      | None => Raise IndexError
      | Some p => let y2 := p1 p in div_by_interval (PyNum (y2 - y1)) self
      end
  end.

(** The property [xyspeed]. *)
Definition xyspeed (self : t) : result (option value) :=
  match _pre_recent_point self with
  | None => Ok None
  | Some _ =>
      let distance := Py.sum (map p3 (_recent_points self)) in
      div_by_interval distance self
  end.

(** ** Runs of the monitor *)

(** Successive calls of [update_xyt]; an exception ends the run. *)
Fixpoint pushes (samples : list (R * R * R)) : M t unit :=
  match samples with
  | [] => ret tt
  | (x_coord, y_coord, time) :: rest =>
      update_xyt x_coord y_coord time ;;; pushes rest
  end.

(** The samples that [_remove_recent_points_older_than] drops from
    [_recent_points]: the slice up to the index it cuts at, in list order. *)
Definition evicted_by (latest_good_time : R) (self : t) : list point :=
  let older_than_threshold :=
    np_where (map (fun p => Rleb (p2 p) latest_good_time) (_recent_points self)) in
  match last_opt older_than_threshold with
  | Some k => firstn (S k) (_recent_points self)
  | None => []
  end.

(** All the samples evicted during a run, in the order of their eviction. *)
Fixpoint evictions (samples : list (R * R * R)) (self : t) : list point :=
  match samples with
  | [] => []
  | (x_coord, y_coord, time) :: rest =>
      match update_xyt x_coord y_coord time self with
      | (self', Ok _) =>
          evicted_by (time - _calculation_interval self) self ++ evictions rest self'
      | (_, Raise _) => []
      end
  end.

(** The timestamps of the calls never decrease, starting from [prev]. *)
Fixpoint nondecreasing_from (prev : option R) (samples : list (R * R * R)) : Prop :=
  match samples with
  | [] => True
  | (_, _, time) :: rest =>
      match prev with Some p => p <= time | None => True end
      /\ nondecreasing_from (Some time) rest
  end.

(** A list of samples ordered by time. *)
Fixpoint time_ordered (l : list point) : Prop :=
  match l with
  | [] => True
  | p :: l' => Forall (fun q => p2 p <= p2 q) l' /\ time_ordered l'
  end.

(** The distance a sample carries when [prev] is the sample before it. *)
Definition distance_after (prev : option point) (p : point) : number :=
  match prev with
  | Some q => NpNum (sqrt ((p0 p - p0 q) ^ 2 + (p1 p - p1 q) ^ 2))
  | None => PyNum 0
  end.

(** Each sample of [l] carries the distance from the one before it. *)
Fixpoint chained (prev : option point) (l : list point) : Prop :=
  match l with
  | [] => True
  | p :: l' => p3 p = distance_after prev p /\ chained (Some p) l'
  end.

(** ** Notions used to state the properties *)

(** The tuple that a call appends. *)
Definition new_point (self : t) (x_coord y_coord time : R) : point :=
  let xc := x_coord / _units_per_mm self in
  let yc := y_coord / _units_per_mm self in
  mkPoint xc yc time
    (match last_opt (_recent_points self) with
     | Some last_loc => NpNum (sqrt ((xc - p0 last_loc) ^ 2 + (yc - p1 last_loc) ^ 2))
     | None => PyNum 0
     end).

(** [self] once [_time0] has its default. *)
Definition with_time0 (time : R) (self : t) : t :=
  match _time0 self with
  | None => set_time0 (Some time) self
  | Some _ => self
  end.

(** The test of [_validate_time]: [prev_time is not None and prev_time > time]. *)
Definition time_rejected (self : t) (time : R) : bool :=
  match prev_time self with
  | Some prev => Rltb time prev
  | None => false
  end.

(** The sample before the first of [b], when [b] follows [a]. *)
Definition before (prev : option point) (a : list point) : option point :=
  match last_opt a with
  | Some q => Some q
  | None => prev
  end.

(** The invariant of the window.

    [ev] lists the samples evicted so far, oldest first.  Together with the
    retained samples they are the pushed samples in call order: ordered by
    time, each carrying the distance from the one before it; the retained
    pre-window sample is the last of the evicted ones. *)
Definition window_inv (ev : list point) (self : t) : Prop :=
  time_ordered (ev ++ _recent_points self)
  /\ _pre_recent_point self = last_opt ev
  /\ chained None (ev ++ _recent_points self)
  /\ (_recent_points self = [] -> ev = []).

(** The length of the path from [q] through the samples of [l]. *)
Fixpoint path_length (q : point) (l : list point) : R :=
  match l with
  | [] => 0
  | p :: l' => sqrt ((p0 p - p0 q) ^ 2 + (p1 p - p1 q) ^ 2) + path_length p l'
  end.


(** What a retained tuple holds of the sample it was made from, and what
    [update_xyt] stores of a sample it is called with. *)
Definition sample_of (p : point) : R * R * R := (p0 p, p1 p, p2 p).
Definition stored (units_per_mm : R) (sample : R * R * R) : R * R * R :=
  let '(x_coord, y_coord, time) := sample in
  (x_coord / units_per_mm, y_coord / units_per_mm, time).

(** The time the trial started at: the argument of [reset], or, without
    one, the time of the first sample. *)
Definition start_time (t0 : option R) (samples : list (R * R * R)) : option R :=
  match t0, samples with
  | Some a, _ => Some a
  | None, (_, _, time) :: _ => Some time
  | None, [] => None
  end.

End SpeedMonitor.

(* ================================================================== *)
(** * validators: the verdict a validator returns                     *)
(* ================================================================== *)

Module Validators.

(** [ValidationAxis = enum.Enum('ValidationAxis', 'x y xy')] *)
Inductive ValidationAxis : Type := x | y | xy.

(** Modelled from the spec: [ExperimentError] and
    [trajtracker.validators.create_experiment_error] are not in the
    sources.  The spec: a verdict is "either Pass, or Fail(code: ErrorCode,
    message: string, args: mapping string->numeric)".  A validator returns
    [None] for Pass and the error object for Fail. *)
Record ExperimentError : Type := mkError {
  err_code : string;
  message : string;
  err_args : list (string * value)
}.

Definition create_experiment_error
    (err_code message : string) (err_args : list (string * value)) : ExperimentError :=
  mkError err_code message err_args.

Definition Verdict : Type := option ExperimentError.
Definition Pass : Verdict := None.
Definition Fail (e : ExperimentError) : Verdict := Some e.

End Validators.

(* ================================================================== *)
(** * validators.InstantaneousSpeedValidator                          *)
(* ================================================================== *)

Module InstantaneousSpeedValidator.

Import Validators.
Local Open Scope string_scope.
Local Open Scope R_scope.
Local Open Scope py_scope.

Definition err_too_slow : string := "TooSlowInstantaneous".
Definition err_too_fast : string := "TooFast".
Definition arg_speed : string := "speed".

Record t : Type := mk {
  _enabled : bool;
  _speed_monitor : SpeedMonitor.t;
  _axis : ValidationAxis;
  _min_speed : option R;
  _max_speed : option R;
  _grace_period : R
}.

Definition set_speed_monitor (m : SpeedMonitor.t) (self : t) : t :=
  mk (_enabled self) m (_axis self) (_min_speed self) (_max_speed self)
     (_grace_period self).

(** A method of the wrapped monitor, called on [self._speed_monitor]. *)
Definition on_monitor {A} (c : M SpeedMonitor.t A) : M t A :=
  fun self =>
    let (m, r) := c (_speed_monitor self) in (set_speed_monitor m self, r).

(** What the caller passes as [movement_monitor]. *)
Inductive movement_monitor_arg : Type :=
| NoMonitor                          (* [None], the default *)
| Monitor (m : SpeedMonitor.t)
| OtherObject.                       (* not a [SpeedMonitor] *)

(** The setters of [min_speed] and [max_speed]: [None] is valid, a number
    must be positive. *)
Definition speed_bound_ok (value : option R) : bool :=
  match value with
  | None => true
  | Some v => Rltb 0 v
  end.

(** [reset(time0)] *)
Definition reset (time0 : option R) (self : t) : t :=
  set_speed_monitor (SpeedMonitor.reset time0 (_speed_monitor self)) self.

(** [__init__(axis, enabled, min_speed, max_speed, grace_period,
    calculation_interval, movement_monitor)] *)
Definition __init__ (axis : ValidationAxis) (enabled : bool)
    (min_speed max_speed : option R) (grace_period : option R)
    (calculation_interval : R) (movement_monitor : movement_monitor_arg)
  : result t :=
  rbind
    (match movement_monitor with
     | NoMonitor => SpeedMonitor.new [calculation_interval]
     | Monitor m => Ok m
     | OtherObject => Raise ValueError
     end)
    (fun monitor =>
       if negb (speed_bound_ok min_speed) then Raise ValueError
       else if negb (speed_bound_ok max_speed) then Raise ValueError
       else
         (* [none_value=ChangeTo0], then [validate_attr_not_negative] *)
         let grace_period := match grace_period with Some g => g | None => 0 end in
         if Rltb grace_period 0 then Raise ValueError
         else
           match SpeedMonitor.calculation_interval_setter calculation_interval monitor with
           | (monitor, Ok _) =>
               Ok (reset None (mk enabled monitor axis min_speed max_speed grace_period))
           | (_, Raise e) => Raise e
           end).

(** The speed of the configured axis. *)
Definition axis_speed (self : t) : result (option value) :=
  match _axis self with
  | x => SpeedMonitor.xspeed (_speed_monitor self)
  | y => SpeedMonitor.yspeed (_speed_monitor self)
  | xy => SpeedMonitor.xyspeed (_speed_monitor self)
  end.

(** The two comparisons with the bounds, once the speed is known. *)
Definition check_bounds (self : t) (speed : value) : Verdict :=
  if match _min_speed self with
     | Some m => value_lt speed m
     | None => false
     end
  then Fail (create_experiment_error err_too_slow "You moved too slowly"
               [(arg_speed, speed)])
  else if match _max_speed self with
          | Some m => value_gt speed m
          | None => false
          end
  then Fail (create_experiment_error err_too_fast "You moved too fast"
               [(arg_speed, speed)])
  else Pass.

(** [update_xyt(x_coord, y_coord, time_in_trial)] with numeric arguments.
    The speed properties return [None] only when [_pre_recent_point] is
    [None], and then [last_calculation_interval] is [None] too: the
    comparison of a [None] speed is never reached (lemma
    [speed_not_None_when_interval] below); it stands as a [TypeError]. *)
Definition update_xyt (x_coord y_coord time_in_trial : R) : M t Verdict :=
  self <- get ;;
  if negb (_enabled self) then ret Pass
  else
    on_monitor (SpeedMonitor.update_xyt x_coord y_coord time_in_trial) ;;;
    self <- get ;;
    match SpeedMonitor.time_in_trial (_speed_monitor self) with
    | None => ret Pass
    | Some tit =>
        if negb (Rltb (_grace_period self) tit) then ret Pass
        else
          interval <- lift (SpeedMonitor.last_calculation_interval (_speed_monitor self)) ;;
          match interval with
          | None => ret Pass
          | Some _ =>
              speed <- lift (axis_speed self) ;;
              match speed with
              | Some speed => ret (check_bounds self speed)
              | None => raise TypeError
              end
          end
    end.

(** Successive updates; the verdicts in call order.  An exception ends
    the run. *)
Fixpoint updates (samples : list (R * R * R)) : M t (list Verdict) :=
  match samples with
  | [] => ret []
  | (x_coord, y_coord, time) :: rest =>
      v <- update_xyt x_coord y_coord time ;;
      vs <- updates rest ;;
      ret (v :: vs)
  end.

(** ** Notions used to state the properties *)

(** The verdict computed from the state of the monitor after its update. *)
Definition verdict_after (self : t) : result Verdict :=
  match SpeedMonitor.time_in_trial (_speed_monitor self) with
  | None => Ok Pass
  | Some tit =>
      if negb (Rltb (_grace_period self) tit) then Ok Pass
      else
        rbind (SpeedMonitor.last_calculation_interval (_speed_monitor self))
          (fun interval =>
             match interval with
             | None => Ok Pass
             | Some _ =>
                 rbind (axis_speed self)
                   (fun speed =>
                      match speed with
                      | Some speed => Ok (check_bounds self speed)
                      | None => Raise TypeError
                      end)
             end)
  end.

End InstantaneousSpeedValidator.

(* ================================================================== *)
(** * misc.LocationColorMap (the collaborator of the gradient validator) *)
(* ================================================================== *)

Module LocationColorMap.

Local Open Scope Z_scope.

Definition rgb : Type := (Z * Z * Z)%type.

(** What is assigned to the [colormap] property. *)
Inductive colormap_setting : Type :=
| CmNone
| CmRGB
| CmFunc (f : rgb -> option Z).

(** Modelled from the spec: [LocationColorMap] is not in the sources.  The
    spec: the validator "maps the current (x, y) onto a pixel in a
    reference image (a 2-D lookup, not part of this core) to obtain a
    scalar elevation value", and "if no reference color is available at
    the location" there is none.  The lookup is kept abstract: a function
    of the colormap in force and of the coordinates. *)
Record t : Type := mk {
  lookup : colormap_setting -> Z -> Z -> option Z;
  available_colors : list rgb;
  colormap : colormap_setting
}.

Definition get_color_at (self : t) (x_coord y_coord : Z) : option Z :=
  lookup self (colormap self) x_coord y_coord.

Definition set_colormap (c : colormap_setting) (self : t) : t :=
  mk (lookup self) (available_colors self) c.

(** Modelled from the spec: [trajtracker.utils.color_rgb_to_num] is not in
    the sources; the spec names the value the "full RGB magnitude" of the
    pixel: here the 24-bit code of the three channels. *)
Definition color_rgb_to_num (color : rgb) : Z :=
  let '(r, g, b) := color in Z.shiftl r 16 + Z.shiftl g 8 + b.

End LocationColorMap.

(* ================================================================== *)
(** * validators.MoveByGradientValidator                              *)
(* ================================================================== *)

Module MoveByGradientValidator.

Import Validators.
Local Open Scope string_scope.
Local Open Scope Z_scope.
Local Open Scope py_scope.

Definition max_irrelevant_color_value : Z := 10.
Definition cyclic_ratio : Z := 5.
Definition err_gradient : string := "GradientViolation".

(** An instance attribute: it exists once it has been assigned. *)
Inductive attribute (A : Type) : Type :=
| Missing
| Bound (a : A).
Arguments Missing {A}.
Arguments Bound {A} a.

(** Reading [self.name]: [AttributeError] when it was never assigned. *)
Definition getattr {S A} (a : attribute A) : M S A :=
  match a with
  | Bound v => ret v
  | Missing => raise AttributeError
  end.

Record t : Type := mk {
  _enabled : bool;
  _lcm : LocationColorMap.t;
  _rgb_should_ascend : bool;
  _max_valid_back_movement : Q;
  _cyclic : bool;
  color_filter : attribute (option string);
  _single_color : attribute (option string);
  _min_available_color : attribute (option Z);
  _max_available_color : attribute (option Z);
  _last_color : option Z
}.

Definition set_last_color (c : option Z) (self : t) : t :=
  mk (_enabled self) (_lcm self) (_rgb_should_ascend self)
     (_max_valid_back_movement self) (_cyclic self) (color_filter self)
     (_single_color self) (_min_available_color self)
     (_max_available_color self) c.

(** [reset(time0)] *)
Definition reset (self : t) : t := set_last_color None self.

(** [__init__(image, position, rgb_should_ascend, max_valid_back_movement,
    cyclic, enabled)]; [lcm] is the [LocationColorMap] built from the image
    with [colormap="RGB"].  The constructor assigns [self.color_filter];
    it does not assign [single_color]. *)
Definition __init__ (lcm : LocationColorMap.t) (rgb_should_ascend : bool)
    (max_valid_back_movement : Q) (cyclic enabled : bool) : result t :=
  if negb (Qle_bool 0 max_valid_back_movement) then Raise ValueError
  else
    Ok (reset (mk enabled (LocationColorMap.set_colormap LocationColorMap.CmRGB lcm)
                  rgb_should_ascend max_valid_back_movement cyclic
                  (Bound None) Missing Missing Missing None)).

(** The table [_colormaps]. *)
Definition _colormaps (key : string) : option (LocationColorMap.rgb -> option Z) :=
  if String.eqb key "R" then
    Some (fun color => let '(r, g, b) := color in
            if (g >? max_irrelevant_color_value) || (b >? max_irrelevant_color_value)
            then None else Some r)
  else if String.eqb key "G" then
    Some (fun color => let '(r, g, b) := color in
            if (r >? max_irrelevant_color_value) || (b >? max_irrelevant_color_value)
            then None else Some g)
  else if String.eqb key "B" then
    Some (fun color => let '(r, g, b) := color in
            if (r >? max_irrelevant_color_value) || (g >? max_irrelevant_color_value)
            then None else Some b)
  else None.

(** [min(colors)] and [max(colors)] of a list, [None] when it is empty. *)
Definition list_min (l : list Z) : option Z :=
  match l with
  | [] => None
  | c :: l' => Some (fold_left Z.min l' c)
  end.
Definition list_max (l : list Z) : option Z :=
  match l with
  | [] => None
  | c :: l' => Some (fold_left Z.max l' c)
  end.

(** [colors = [c for c in colors if c is not None]] *)
Fixpoint not_None (l : list (option Z)) : list Z :=
  match l with
  | [] => []
  | Some c :: l' => c :: not_None l'
  | None :: l' => not_None l'
  end.

(** [_calc_min_max_colors()], called once [_single_color] is [value]. *)
Definition _calc_min_max_colors (value : option string) (self : t) : t :=
  let mapping_func :=
    match value with
    | None => fun color => Some (LocationColorMap.color_rgb_to_num color)
    | Some key =>
        match _colormaps key with
        | Some f => f
        | None => fun _ => None
        end
    end in
  let colors := not_None (map mapping_func (LocationColorMap.available_colors (_lcm self))) in
  mk (_enabled self) (_lcm self) (_rgb_should_ascend self)
     (_max_valid_back_movement self) (_cyclic self) (color_filter self)
     (_single_color self) (Bound (list_min colors)) (Bound (list_max colors))
     (_last_color self).

(** The setter of [single_color]: the only place that assigns
    [_min_available_color] and [_max_available_color]. *)
Definition single_color_setter (value : option string) : M t unit :=
  match value with
  | Some key =>
      match _colormaps key with
      | None => raise ValueError
      | Some f =>
          modify (fun self =>
            _calc_min_max_colors value
              (mk (_enabled self)
                  (LocationColorMap.set_colormap (LocationColorMap.CmFunc f) (_lcm self))
                  (_rgb_should_ascend self) (_max_valid_back_movement self)
                  (_cyclic self) (color_filter self) (Bound value)
                  (_min_available_color self) (_max_available_color self)
                  (_last_color self)))
      end
  | None =>
      modify (fun self =>
        _calc_min_max_colors value
          (mk (_enabled self)
              (LocationColorMap.set_colormap LocationColorMap.CmNone (_lcm self))
              (_rgb_should_ascend self) (_max_valid_back_movement self)
              (_cyclic self) (color_filter self) (Bound value)
              (_min_available_color self) (_max_available_color self)
              (_last_color self)))
  end.

(** [rgb_delta = (color - self._last_color) * expected_direction] *)
Definition rgb_delta_of (self : t) (color last_color : Z) : Z :=
  let expected_direction := if _rgb_should_ascend self then 1 else -1 in
  (color - last_color) * expected_direction.

(** The test of the cyclic branch, with the attribute reads it makes:
    [self._cyclic and self._min_available_color is not None], then
    [range = self._max_available_color - self._min_available_color] and
    [np.abs(rgb_delta) >= self.cyclic_ratio * (range - np.abs(rgb_delta))]. *)
Definition is_wraparound (rgb_delta : Z) : M t bool :=
  self <- get ;;
  if negb (_cyclic self) then ret false
  else
    min_color <- getattr (_min_available_color self) ;;
    match min_color with
    | None => ret false
    | Some min_color =>
        max_color <- getattr (_max_available_color self) ;;
        match max_color with
        | None => raise TypeError
        | Some max_color =>
            let range := max_color - min_color in
            ret (cyclic_ratio * (range - Z.abs rgb_delta) <=? Z.abs rgb_delta)
        end
    end.

(** [update_xyt(x_coord, y_coord, time)] *)
Definition update_xyt (x_coord y_coord : Z) : M t Verdict :=
  self <- get ;;
  if negb (_enabled self) then ret Pass
  else
    match LocationColorMap.get_color_at (_lcm self) x_coord y_coord with
    | None => modify (set_last_color None) ;;; ret Pass
    | Some color =>
        match _last_color self with
        | None => modify (set_last_color (Some color)) ;;; ret Pass
        | Some last_color =>
            let rgb_delta := rgb_delta_of self color last_color in
            if 0 <=? rgb_delta then
              modify (set_last_color (Some color)) ;;; ret Pass
            else if Qle_bool (- _max_valid_back_movement self) (inject_Z rgb_delta) then
              ret Pass
            else
              wrap <- is_wraparound rgb_delta ;;
              if wrap then modify (set_last_color (Some color)) ;;; ret Pass
              else
                ret (Fail (create_experiment_error err_gradient
                             "You moved in an invalid direction" []))
        end
    end.

(** ** Notions used to state the properties *)

Definition gradient_violation : Verdict :=
  Fail (create_experiment_error err_gradient "You moved in an invalid direction" []).

(** The wraparound test on a known colour range. *)
Definition wraps (range rgb_delta : Z) : bool :=
  cyclic_ratio * (range - Z.abs rgb_delta) <=? Z.abs rgb_delta.

(** ** The validator once the colour range has been computed

    After an assignment of [single_color] the attributes
    [_min_available_color] and [_max_available_color] exist; both are [None]
    (no colour available: the range is not known) or both are numbers. *)
Inductive range_of (self : t) : option Z -> Prop :=
| range_unknown :
    _min_available_color self = Bound None ->
    _max_available_color self = Bound None ->
    range_of self None
| range_known (min_color max_color : Z) :
    _min_available_color self = Bound (Some min_color) ->
    _max_available_color self = Bound (Some max_color) ->
    range_of self (Some (max_color - min_color)).

(** The image used below: the colour 100 at [x = 0], the colour 40
    elsewhere; the colours 0..255 are available. *)
Definition two_tone : LocationColorMap.t :=
  LocationColorMap.mk
    (fun _ x_coord _ => if x_coord =? 0 then Some 100 else Some 40)
    [(0, 0, 0); (0, 0, 255)]
    LocationColorMap.CmRGB.

(** Successive updates at the given positions; the verdicts in call order.
    An exception ends the run. *)
Fixpoint updates (positions : list (Z * Z)) : M t (list Verdict) :=
  match positions with
  | [] => ret []
  | (x_coord, y_coord) :: rest =>
      v <- update_xyt x_coord y_coord ;;
      vs <- updates rest ;;
      ret (v :: vs)
  end.

(** [expected_direction] of [update_xyt]. *)
Definition expected_direction (self : t) : Z :=
  if _rgb_should_ascend self then 1 else -1.

(** [mapping_func] of [_calc_min_max_colors] for a value of [single_color]. *)
Definition mapping_func (value : option string) : LocationColorMap.rgb -> option Z :=
  match value with
  | None => fun color => Some (LocationColorMap.color_rgb_to_num color)
  | Some key =>
      match _colormaps key with
      | Some f => f
      | None => fun _ => None
      end
  end.

End MoveByGradientValidator.

(* ================================================================== *)
(** * stimuli.NumberLine: detection of the touch                      *)
(* ================================================================== *)

Module NumberLine.

Local Open Scope Q_scope.
Local Open Scope py_scope.

Inductive Orientation : Type := Horizontal | Vertical.

(** The feedback stimulus, as far as [_show_feedback_stim] uses it. *)
Record FeedbackStim : Type := mkStim {
  has_visible : bool;          (* ["visible" in dir(stim)] *)
  position : Z * Z;
  visible : bool
}.

Record t : Type := mk {
  _orientation : Orientation;
  _mid_x : Z;
  _mid_y : Z;
  _line_length : Q;
  _touch_directioned : bool;
  _touch_distance : Q;
  _feedback_stim : option FeedbackStim;
  _feedback_stim_offset : Z * Z;
  _last_mouse_coord : option Z;
  _last_touched_coord : option Z;
  _initial_mouse_dir : option Z
}.

Definition set_tracking (mouse touched dir : option Z) (self : t) : t :=
  mk (_orientation self) (_mid_x self) (_mid_y self) (_line_length self)
     (_touch_directioned self) (_touch_distance self) (_feedback_stim self)
     (_feedback_stim_offset self) mouse touched dir.
Definition set_last_touched_coord (c : option Z) (self : t) : t :=
  set_tracking (_last_mouse_coord self) c (_initial_mouse_dir self) self.
Definition set_initial_mouse_dir (d : option Z) (self : t) : t :=
  set_tracking (_last_mouse_coord self) (_last_touched_coord self) d self.
Definition set_feedback_stim (s : option FeedbackStim) (self : t) : t :=
  mk (_orientation self) (_mid_x self) (_mid_y self) (_line_length self)
     (_touch_directioned self) (_touch_distance self) s
     (_feedback_stim_offset self) (_last_mouse_coord self)
     (_last_touched_coord self) (_initial_mouse_dir self).

(** [_main_line_start()] *)
Definition _main_line_start (self : t) : Q * Q :=
  match _orientation self with
  | Horizontal => (- _line_length self / 2, 0)
  | Vertical => (0, - _line_length self / 2)
  end.

(** [reset(time0)] *)
Definition reset (self : t) : t := set_tracking None None None self.

(** The property [touched]. *)
Definition touched (self : t) : bool :=
  match _last_touched_coord self with
  | Some _ => true
  | None => false
  end.

(** The property [last_touched_coord]. *)
Definition last_touched_coord (self : t) : option Z := _last_touched_coord self.

(** [np.sign(distance)] *)
Definition np_sign (q : Q) : Z := Z.sgn (Qnum q).

Definition Qlt_bool (a b : Q) : bool := negb (Qle_bool b a).

(** [distance = line_coord - mouse_coord]: positive when the mouse
    coordinate is smaller than the coordinate of the line. *)
Definition distance_from_line (self : t) (x_coord y_coord : Z) : Q :=
  match _orientation self with
  | Horizontal =>
      let mouse_coord := y_coord in
      let line_coord := snd (_main_line_start self) + inject_Z (_mid_y self) in
      line_coord - inject_Z mouse_coord
  | Vertical =>
      let mouse_coord := x_coord in
      let line_coord := fst (_main_line_start self) + inject_Z (_mid_x self) in
      line_coord - inject_Z mouse_coord
  end.

(** [touch_coord] *)
Definition touch_coord_of (self : t) (x_coord y_coord : Z) : Z :=
  match _orientation self with
  | Horizontal => (x_coord - _mid_x self)%Z
  | Vertical => (y_coord - _mid_y self)%Z
  end.

(** [_show_feedback_stim()] *)
Definition _show_feedback_stim : M t unit :=
  self <- get ;;
  match _feedback_stim self with
  | None => ret tt
  | Some stim =>
      if negb (has_visible stim) then raise InvalidStateError
      else
        let c := match _last_touched_coord self with Some c => c | None => 0%Z end in
        let fb_stim_coord :=
          match _orientation self with
          | Horizontal => ((_mid_x self + c)%Z, _mid_y self)
          | Vertical => (_mid_x self, (_mid_y self + c)%Z)
          end in
        let fb_stim_coord :=
          ((fst fb_stim_coord + fst (_feedback_stim_offset self))%Z,
           (snd fb_stim_coord + snd (_feedback_stim_offset self))%Z) in
        modify (set_feedback_stim
                  (Some (mkStim (has_visible stim) fb_stim_coord true)))
  end.

(** [update_xyt(x_coord, y_coord, time_in_trial)] with [int] coordinates.
    The log lines are left out; the one written after a touch reads
    [last_touched_value], a division by [line_length], which its setter
    keeps positive. *)
Definition update_xyt (x_coord y_coord : Z) : M t unit :=
  self <- get ;;
  match _last_touched_coord self with
  | Some _ => ret tt
  | None =>
      let touch_coord := touch_coord_of self x_coord y_coord in
      let distance := distance_from_line self x_coord y_coord in
      touched <-
        (if negb (_touch_directioned self) then
           ret (Qle_bool (Qabs distance) (_touch_distance self))
         else
           match _initial_mouse_dir self with
           | None =>
               modify (set_initial_mouse_dir (Some (np_sign distance))) ;;;
               ret false
           | Some dir =>
               let distance := distance * inject_Z dir in
               ret (Qlt_bool distance (_touch_distance self))
           end) ;;
      if (touched : bool) then
        modify (set_last_touched_coord (Some touch_coord)) ;;;
        _show_feedback_stim
      else ret tt
  end.

(** ** Notions used to state the properties *)

(** A horizontal line through the origin, direction-locked, with the given
    touch distance and no feedback stimulus. *)
Definition horizontal_line (touch_distance : Q) : t :=
  mk Horizontal 0 0 100 true touch_distance None (0%Z, 0%Z) None None None.

(** Successive updates at the given positions.  An exception ends the run. *)
Fixpoint updates (positions : list (Z * Z)) : M t unit :=
  match positions with
  | [] => ret tt
  | (x_coord, y_coord) :: rest => update_xyt x_coord y_coord ;;; updates rest
  end.

(** [_main_line_end()] *)
Definition _main_line_end (self : t) : Q * Q :=
  match _orientation self with
  | Horizontal => (_line_length self / 2, 0)
  | Vertical => (0, _line_length self / 2)
  end.

(** The attributes of the number line that the detection of the touch does
    not use: those read by [size] and by the placing of the ticks and
    labels, and the two ends of the scale. *)
Record Layout : Type := mkLayout {
  _end_tick_height : option Q;
  _labels_visible : bool;
  _labels_offset_x : Q;
  _labels_offset_y : Q;
  _labels_box_size : option (Q * Q);
  _min_value : Q;
  _max_value : Q
}.

(** The property [size]: [(width, height)].  Adding [None] to a number
    raises [TypeError], and so does indexing [None].  The assignment of
    [_canvas_to_nl_coord_shift], which nothing here reads, is left out. *)
Definition size (layout : Layout) (self : t) : result (Q * Q) :=
  let '(xmin, ymin) := _main_line_start self in
  let '(xmax, ymax) := _main_line_end self in
  match _end_tick_height layout with
  | None => Raise TypeError
  | Some end_tick_height =>
      let '(xmax, ymax) :=
        match _orientation self with
        | Horizontal => (xmax, ymax + end_tick_height)
        | Vertical => (xmax + end_tick_height, ymax)
        end in
      if _labels_visible layout then
        match _labels_box_size layout with
        | None => Raise TypeError
        | Some (box_w, box_h) =>
            let text_x_offset_min := _labels_offset_x layout - box_w / 2 in
            let text_x_offset_max := _labels_offset_x layout + box_w / 2 in
            let text_y_offset_min := _labels_offset_y layout - box_h / 2 in
            let text_y_offset_max := _labels_offset_y layout + box_h / 2 in
            let xmin := Qmin xmin (xmin + text_x_offset_min) in
            let xmax := Qmax xmax (xmax + text_x_offset_max) in
            let ymin := Qmin ymin (ymin + text_y_offset_min) in
            let ymax := Qmax ymax (ymax + text_y_offset_max) in
            Ok (2 * Qmax xmax (- xmin), 2 * Qmax ymax (- ymin))
        end
      else Ok (2 * Qmax xmax (- xmin), 2 * Qmax ymax (- ymin))
  end.

(** [_prepare_end_of_line_ticks()]: the far ends of the two ticks, the one
    at the start of the line first. *)
Definition end_tick_tips (end_tick_height : Q) (self : t) : (Q * Q) * (Q * Q) :=
  let tick_dx := match _orientation self with Horizontal => 0 | Vertical => end_tick_height end in
  let tick_dy := match _orientation self with Horizontal => end_tick_height | Vertical => 0 end in
  let pt1 := _main_line_start self in
  let pt2 := _main_line_end self in
  ((fst pt1 + tick_dx, snd pt1 + tick_dy), (fst pt2 + tick_dx, snd pt2 + tick_dy)).

(** [_prepare_labels()]: the positions of the two text boxes, the one of
    the minimal value first. *)
Definition label_positions (layout : Layout) (self : t) : (Q * Q) * (Q * Q) :=
  let dx := _labels_offset_x layout in
  let dy := _labels_offset_y layout in
  let min_pos := _main_line_start self in
  let max_pos := _main_line_end self in
  ((fst min_pos + dx, snd min_pos + dy), (fst max_pos + dx, snd max_pos + dy)).

(** Whether a point lies in the rectangle of the given size centred on the
    middle of the line. *)
Definition in_rectangle (size : Q * Q) (p : Q * Q) : Prop :=
  - fst size / 2 <= fst p <= fst size / 2 /\ - snd size / 2 <= snd p <= snd size / 2.

End NumberLine.

(* ================================================================== *)
(** * misc.nvshapes.Sector                                            *)
(* ================================================================== *)

Module Sector.

Local Open Scope Z_scope.

Record t : Type := mk {
  x : Z;
  y : Z;
  radius : Z;
  from_angle : Z;
  to_angle : Z
}.

(** [__init__(x, y, radius, from_angle, to_angle)] with [int] arguments;
    [validate_func_arg_positive] on the radius. *)
Definition __init__ (x y radius from_angle to_angle : Z) : result t :=
  if radius <=? 0 then Raise ValueError
  else Ok (mk x y radius (from_angle mod 360) (to_angle mod 360)).

(** [a % 360] on a float. *)
Definition mod360 (a : R) : R := (a - 360 * IZR (Int_part (a / 360)))%R.

Section Angle.

(** [trajtracker.utils.get_angle(center, pos, as_degrees=True)] is not part
    of the sources: the results hold whatever angle it returns. *)
Variable get_angle : Z * Z -> Z * Z -> R.

(** [overlapping_with_position(pos)] *)
Definition overlapping_with_position (self : t) (pos : Z * Z) : bool :=
  let '(px, py) := pos in
  let distance_from_center := sqrt (IZR ((px - x self) ^ 2 + (py - y self) ^ 2)) in
  if Rltb (IZR (radius self)) distance_from_center then false
  else
    let angle := mod360 (get_angle (x self, y self) (px, py)) in
    if from_angle self <? to_angle self then
      Rleb (IZR (from_angle self)) angle && Rleb angle (IZR (to_angle self))
    else
      negb (Rleb (IZR (to_angle self)) angle && Rleb angle (IZR (from_angle self))).

End Angle.

(** The property [position]. *)
Definition position (self : t) : Z * Z := (x self, y self).

End Sector.

(* ================================================================== *)
(** * stimuli.RSVPText (with its base class BaseRSVPStim)             *)
(* ================================================================== *)

Module RSVPText.

Local Open Scope string_scope.
Local Open Scope Q_scope.
Local Open Scope py_scope.

(** A property assigned through [_set_property]: its value together with
    the flag [_<name>_multiple]. *)
Inductive prop (A : Type) : Type :=
| Unset
| Single (a : A)
| Multiple (l : list A).
Arguments Unset {A}.
Arguments Single {A} a.
Arguments Multiple {A} l.

(** A property that is [None] or a list. *)
Definition as_prop {A} (value : option (list A)) : prop A :=
  match value with
  | None => Unset
  | Some l => Multiple l
  end.

(** What this code reads and writes of an expyriment [TextBox]; [None] is
    an attribute this code has not assigned. *)
Record TextBox : Type := mkTextBox {
  text : option string;
  text_font : option string;
  text_size : option Z;
  text_bold : option bool;
  text_italic : option bool;
  text_underline : option bool;
  text_justification : option string;
  text_colour : option (Z * Z * Z);
  background_colour : option (Z * Z * Z);
  size : option (Z * Z);
  position : option (Z * Z);
  visible : bool
}.

Definition set_text (v : option string) (b : TextBox) : TextBox :=
  mkTextBox v (text_font b) (text_size b) (text_bold b) (text_italic b) (text_underline b)
    (text_justification b) (text_colour b) (background_colour b) (size b) (position b)
    (visible b).
Definition set_text_font (v : option string) (b : TextBox) : TextBox :=
  mkTextBox (text b) v (text_size b) (text_bold b) (text_italic b) (text_underline b)
    (text_justification b) (text_colour b) (background_colour b) (size b) (position b)
    (visible b).
Definition set_text_bold (v : option bool) (b : TextBox) : TextBox :=
  mkTextBox (text b) (text_font b) (text_size b) v (text_italic b) (text_underline b)
    (text_justification b) (text_colour b) (background_colour b) (size b) (position b)
    (visible b).
Definition set_text_italic (v : option bool) (b : TextBox) : TextBox :=
  mkTextBox (text b) (text_font b) (text_size b) (text_bold b) v (text_underline b)
    (text_justification b) (text_colour b) (background_colour b) (size b) (position b)
    (visible b).
Definition set_text_underline (v : option bool) (b : TextBox) : TextBox :=
  mkTextBox (text b) (text_font b) (text_size b) (text_bold b) (text_italic b) v
    (text_justification b) (text_colour b) (background_colour b) (size b) (position b)
    (visible b).
Definition set_text_justification (v : option string) (b : TextBox) : TextBox :=
  mkTextBox (text b) (text_font b) (text_size b) (text_bold b) (text_italic b)
    (text_underline b) v (text_colour b) (background_colour b) (size b) (position b)
    (visible b).
Definition set_text_colour (v : option (Z * Z * Z)) (b : TextBox) : TextBox :=
  mkTextBox (text b) (text_font b) (text_size b) (text_bold b) (text_italic b)
    (text_underline b) (text_justification b) v (background_colour b) (size b) (position b)
    (visible b).
Definition set_background_colour (v : option (Z * Z * Z)) (b : TextBox) : TextBox :=
  mkTextBox (text b) (text_font b) (text_size b) (text_bold b) (text_italic b)
    (text_underline b) (text_justification b) (text_colour b) v (size b) (position b)
    (visible b).
Definition set_size (v : option (Z * Z)) (b : TextBox) : TextBox :=
  mkTextBox (text b) (text_font b) (text_size b) (text_bold b) (text_italic b)
    (text_underline b) (text_justification b) (text_colour b) (background_colour b) v
    (position b) (visible b).
Definition set_position (v : option (Z * Z)) (b : TextBox) : TextBox :=
  mkTextBox (text b) (text_font b) (text_size b) (text_bold b) (text_italic b)
    (text_underline b) (text_justification b) (text_colour b) (background_colour b) (size b)
    v (visible b).
Definition set_visible (v : bool) (b : TextBox) : TextBox :=
  mkTextBox (text b) (text_font b) (text_size b) (text_bold b) (text_italic b)
    (text_underline b) (text_justification b) (text_colour b) (background_colour b) (size b)
    (position b) v.

(** [xpy.stimuli.TextBox("", size)], added to the container with
    [visible=False]. *)
Definition new_TextBox (size : option (Z * Z)) : TextBox :=
  mkTextBox (Some "") None None None None None None None None size None false.

(** An entry of [_show_hide_operations]: [(time, visible, stimulus number)]. *)
Definition operation : Type := (Q * bool * nat)%type.
Definition op_time (o : operation) : Q := fst (fst o).
Definition op_visible (o : operation) : bool := snd (fst o).
Definition op_stim (o : operation) : nat := snd o.

(** The attributes of the object.  [_show_hide_operations] is [None] until
    [init_for_trial] has assigned it; an event is known by its name. *)
Record t : Type := mk {
  _text : option (list string);
  _text_font : prop string;
  _text_size : prop Z;
  _text_bold : prop bool;
  _text_italic : prop bool;
  _text_underline : prop bool;
  _text_justification : prop string;
  _text_colour : prop (Z * Z * Z);
  _background_colour : prop (Z * Z * Z);
  _size : prop (Z * Z);
  _position : prop (Z * Z);
  _onset_time : option (list Q);
  _duration : prop Q;
  _last_stimulus_remains : bool;
  _start_rsvp_event : option string;
  _stimuli : list TextBox;
  _show_hide_operations : option (list operation);
  _start_showing_time : option Q
}.

Definition set_stimuli (l : list TextBox) (self : t) : t :=
  mk (_text self) (_text_font self) (_text_size self) (_text_bold self) (_text_italic self)
     (_text_underline self) (_text_justification self) (_text_colour self)
     (_background_colour self) (_size self) (_position self) (_onset_time self)
     (_duration self) (_last_stimulus_remains self) (_start_rsvp_event self)
     l (_show_hide_operations self) (_start_showing_time self).
Definition set_show_hide_operations (ops : option (list operation)) (self : t) : t :=
  mk (_text self) (_text_font self) (_text_size self) (_text_bold self) (_text_italic self)
     (_text_underline self) (_text_justification self) (_text_colour self)
     (_background_colour self) (_size self) (_position self) (_onset_time self)
     (_duration self) (_last_stimulus_remains self) (_start_rsvp_event self)
     (_stimuli self) ops (_start_showing_time self).
Definition set_start_showing_time (time : option Q) (self : t) : t :=
  mk (_text self) (_text_font self) (_text_size self) (_text_bold self) (_text_italic self)
     (_text_underline self) (_text_justification self) (_text_colour self)
     (_background_colour self) (_size self) (_position self) (_onset_time self)
     (_duration self) (_last_stimulus_remains self) (_start_rsvp_event self)
     (_stimuli self) (_show_hide_operations self) time.

(** [l[i] = x] on a list, for an index in range. *)
Fixpoint update_nth {A} (i : nat) (x : A) (l : list A) : list A :=
  match l, i with
  | [], _ => []
  | _ :: l', O => x :: l'
  | y :: l', S i' => y :: update_nth i' x l'
  end.

(** [values[i]] once a value that is not multiple has been repeated:
    [values = [values] * n_stim]. *)
Definition value_at {A} (values : prop A) (i : nat) : result (option A) :=
  match values with
  | Unset => Ok None
  | Single a => Ok (Some a)
  | Multiple l =>
      match nth_error l i with
      | Some a => Ok (Some a)
      | None => Raise IndexError
      end
  end.

(** [len(self._text)] *)
Definition len_text : M t nat :=
  self <- get ;;
  match _text self with
  | None => raise TypeError
  | Some l => ret (List.length l)
  end.

(** The loop of [_create_stimuli] over the indices it runs through. *)
Fixpoint create_from (indices : list nat) : M t unit :=
  match indices with
  | [] => ret tt
  | i :: rest =>
      self <- get ;;
      size_i <- lift (value_at (_size self) i) ;;
      modify (set_stimuli (_stimuli self ++ [new_TextBox size_i])) ;;;
      create_from rest
  end.

(** [_create_stimuli(n_stim)]: [for i in range(len(self._stimuli), n_stim+1)]. *)
Definition _create_stimuli (n_stim : nat) : M t unit :=
  self <- get ;;
  create_from (seq (List.length (_stimuli self)) (n_stim + 1 - List.length (_stimuli self))).

(** [_validate_property(prop_name, n_stim)] *)
Definition _validate_property {A} (value : prop A) (n_stim : nat) : result unit :=
  match value with
  | Unset => Raise ValueError
  | Single _ => Ok tt
  | Multiple l => if (List.length l <? n_stim)%nat then Raise ValueError else Ok tt
  end.

(** Checks made one after the other: the first that raises ends them. *)
Fixpoint checks (l : list (result unit)) : result unit :=
  match l with
  | [] => Ok tt
  | Ok _ :: l' => checks l'
  | Raise e :: _ => Raise e
  end.

(** [_validate()] *)
Definition _validate (self : t) : result unit :=
  match _text self with
  | None => Raise TypeError
  | Some txt =>
      let n_stim := List.length txt in
      checks [ _validate_property (Multiple txt) 0;
               _validate_property (_text_font self) n_stim;
               _validate_property (_text_size self) n_stim;
               _validate_property (_text_bold self) n_stim;
               _validate_property (_text_italic self) n_stim;
               _validate_property (_text_underline self) n_stim;
               _validate_property (_text_justification self) n_stim;
               _validate_property (_text_colour self) n_stim;
               _validate_property (_background_colour self) n_stim;
               _validate_property (_size self) n_stim;
               _validate_property (_position self) n_stim;
               _validate_property (as_prop (_onset_time self)) n_stim;
               _validate_property (_duration self) n_stim;
               match _start_rsvp_event self with
               | None => Raise ValueError
               | Some _ => Ok tt
               end ]
  end.

(** The loop of [_set_stimuli_property]:
    [setattr(self._stimuli[i], prop_name, values[i])]. *)
Fixpoint set_from {A} (values : prop A) (setattr : option A -> TextBox -> TextBox)
    (indices : list nat) : M t unit :=
  match indices with
  | [] => ret tt
  | i :: rest =>
      self <- get ;;
      match nth_error (_stimuli self) i with
      | None => raise IndexError
      | Some stim =>
          v <- lift (value_at values i) ;;
          modify (set_stimuli (update_nth i (setattr v stim) (_stimuli self))) ;;;
          set_from values setattr rest
      end
  end.

(** [_set_stimuli_property(prop_name, prop_type, n_stim)] *)
Definition _set_stimuli_property {A} (getattr : t -> prop A)
    (setattr : option A -> TextBox -> TextBox) (n_stim : nat) : M t unit :=
  self <- get ;;
  set_from (getattr self) setattr (seq 0 n_stim).

(** [_configure_stimuli()] *)
Definition _configure_stimuli : M t unit :=
  self <- get ;;
  lift (_validate self) ;;;
  n_stim <- len_text ;;
  _create_stimuli n_stim ;;;
  _set_stimuli_property (fun self => as_prop (_text self)) set_text n_stim ;;;
  _set_stimuli_property _text_font set_text_font n_stim ;;;
  _set_stimuli_property _text_bold set_text_bold n_stim ;;;
  _set_stimuli_property _text_italic set_text_italic n_stim ;;;
  _set_stimuli_property _text_underline set_text_underline n_stim ;;;
  _set_stimuli_property _text_justification set_text_justification n_stim ;;;
  _set_stimuli_property _text_colour set_text_colour n_stim ;;;
  _set_stimuli_property _background_colour set_background_colour n_stim ;;;
  _set_stimuli_property _size set_size n_stim ;;;
  _set_stimuli_property _position set_position n_stim.

(** [sorted(ops, key=itemgetter(0))]: the sort is stable. *)
Fixpoint insert (o : operation) (l : list operation) : list operation :=
  match l with
  | [] => [o]
  | o' :: l' =>
      if Qle_bool (op_time o) (op_time o') then o :: o' :: l' else o' :: insert o l'
  end.
Definition sorted (l : list operation) : list operation := fold_right insert [] l.

(** [zip(times, [visible] * n_stim, range(n_stim))] *)
Definition zip_ops (times : list Q) (visible : bool) (n_stim : nat) : list operation :=
  map (fun p => (fst p, visible, snd p)) (combine times (seq 0 n_stim)).

(** [duration[i]], the duration being repeated when it is not multiple;
    adding [None] raises [TypeError]. *)
Definition duration_at (self : t) (i : nat) : result Q :=
  match value_at (_duration self) i with
  | Ok (Some d) => Ok d
  | Ok None => Raise TypeError
  | Raise e => Raise e
  end.

(** [[self._onset_time[i] + duration[i] for i in range(n_stim)]] *)
Fixpoint offset_times (self : t) (onset_time : list Q) (indices : list nat)
    : result (list Q) :=
  match indices with
  | [] => Ok []
  | i :: rest =>
      match nth_error onset_time i with
      | None => Raise IndexError
      | Some onset =>
          rbind (duration_at self i) (fun d =>
          rbind (offset_times self onset_time rest) (fun l => Ok ((onset + d) :: l)))
      end
  end.

(** [init_for_trial()] *)
Definition init_for_trial : M t unit :=
  _configure_stimuli ;;;
  n_stim <- len_text ;;
  self <- get ;;
  match _onset_time self with
  | None => raise TypeError
  | Some onset_time =>
      let show_ops := zip_ops (firstn n_stim onset_time) true n_stim in
      offsets <- lift (offset_times self onset_time (seq 0 n_stim)) ;;
      let hide_ops := zip_ops offsets false n_stim in
      let hide_ops := if _last_stimulus_remains self then removelast hide_ops else hide_ops in
      modify (set_show_hide_operations (Some (sorted (show_ops ++ hide_ops)))) ;;;
      modify (set_start_showing_time None)
  end.

(** The loop of [update_rsvp] on the operations still pending. *)
Fixpoint update_loop (time : Q) (ops : list operation) : M t unit :=
  match ops with
  | [] => ret tt
  | o :: rest =>
      self <- get ;;
      match _start_showing_time self with
      | None => raise TypeError
      | Some start =>
          if Qle_bool (start + op_time o) time then
            modify (set_show_hide_operations (Some rest)) ;;;
            match nth_error (_stimuli self) (op_stim o) with
            | None => raise IndexError
            | Some stim =>
                modify (set_stimuli
                          (update_nth (op_stim o) (set_visible (op_visible o) stim)
                             (_stimuli self))) ;;;
                update_loop time rest
            end
          else ret tt
      end
  end.

(** [update_rsvp(time)] *)
Definition update_rsvp (time : Q) : M t unit :=
  self <- get ;;
  match _show_hide_operations self with
  | None => raise AttributeError
  | Some ops => update_loop time ops
  end.

(** [start_showing(time)] *)
Definition start_showing (time : Q) : M t unit :=
  modify (set_start_showing_time (Some time)) ;;;
  update_rsvp time.

(** The property [stim_visibility]. *)
Definition stim_visibility : M t (list bool) :=
  n_stim <- len_text ;;
  _create_stimuli n_stim ;;;
  self <- get ;;
  if (List.length (_stimuli self) <? n_stim)%nat then raise IndexError
  else ret (map visible (firstn n_stim (_stimuli self))).

(** ** Notions used to state the properties *)

(** Successive calls of [update_rsvp].  An exception ends the run. *)
Fixpoint updates (times : list Q) : M t unit :=
  match times with
  | [] => ret tt
  | time :: rest => update_rsvp time ;;; updates rest
  end.

(** The latest of the times of a run that starts at [time]. *)
Definition latest (time : Q) (times : list Q) : Q := fold_left Qmax times time.

(** An object as the constructor leaves it, with the given configuration:
    one font, size, colour and position for all the texts, nothing created
    and no trial initialised. *)
Definition configured (text : list string) (onset_time : list Q) (duration : prop Q)
    (last_stimulus_remains : bool) : t :=
  mk (Some text) (Single "Arial") (Single 12%Z) (Single false) (Single false) (Single false)
     (Single "center") (Single (255, 255, 255)%Z) (Single (0, 0, 0)%Z)
     (Single (100, 40)%Z) (Single (0, 0)%Z) (Some onset_time) duration
     last_stimulus_remains (Some "start") [] None None.

(** [start_showing(time)] followed by calls of [update_rsvp]. *)
Definition run (time : Q) (times : list Q) : M t unit :=
  start_showing time ;;; updates times.

(** An operation is due at [time] when [time >= start + its time]. *)
Definition due (start time : Q) (o : operation) : bool :=
  Qle_bool (start + op_time o) time.

(** The operations [update_rsvp] pops, and those it leaves. *)
Fixpoint take_due (start time : Q) (ops : list operation) : list operation :=
  match ops with
  | [] => []
  | o :: rest => if due start time o then o :: take_due start time rest else []
  end.
Fixpoint drop_due (start time : Q) (ops : list operation) : list operation :=
  match ops with
  | [] => []
  | o :: rest => if due start time o then drop_due start time rest else ops
  end.

(** The effect of popped operations on the stimuli. *)
Definition apply_op (l : list TextBox) (o : operation) : list TextBox :=
  match nth_error l (op_stim o) with
  | Some stim => update_nth (op_stim o) (set_visible (op_visible o) stim) l
  | None => l
  end.
Definition apply_ops (ops : list operation) (l : list TextBox) : list TextBox :=
  fold_left apply_op ops l.

(** The visibility the operations leave to stimulus [i]. *)
Definition final_visible (i : nat) (ops : list operation) (init : bool) : bool :=
  fold_left (fun v o => if Nat.eqb (op_stim o) i then op_visible o else v) ops init.

(** Whether the operations hold one that sets stimulus [i] to [v]. *)
Definition has_op (i : nat) (v : bool) (ops : list operation) : bool :=
  existsb (fun o => Nat.eqb (op_stim o) i && Bool.eqb (op_visible o) v) ops.

(** A text box that kept its visibility and its text size. *)
Definition kept (b b' : TextBox) : Prop :=
  visible b' = visible b /\ text_size b' = text_size b.

(** A text box that is hidden and whose text size was never assigned. *)
Definition fresh (b : TextBox) : Prop :=
  visible b = false /\ text_size b = None.

(** The order of the operations by their times. *)
Definition by_time (o o' : operation) : Prop := op_time o <= op_time o'.

(** What [_configure_stimuli] may do to the object: text boxes are added,
    hidden and without a text size; those that were there keep their
    visibility and their text size; nothing else changes. *)
Definition evolves (s s' : t) : Prop :=
  exists l0 extra,
    s' = set_stimuli (l0 ++ extra) s
    /\ Forall2 kept (_stimuli s) l0
    /\ Forall fresh extra.

Definition evolving {A} (c : M t A) : Prop := forall s, evolves s (fst (c s)).

End RSVPText.

(* ================================================================== *)
(** * Python runtime: numbers in double precision                     *)
(* ================================================================== *)

(** The numbers as the interpreter holds them: an IEEE 754 binary64 value,
    every operation rounding.  An [int] of less than 2^53 in absolute value
    behaves in the methods below as the [float] of the same value ([/] is
    true division: [from __future__ import division]), so a number is a
    [float] throughout. *)
Module Py64.

Import PrimFloat.
Local Open Scope float_scope.

(** A built-in number, or a [numpy.float64] (what [np.sqrt] returns). *)
Inductive number : Type :=
| PyNum (f : float)
| NpNum (f : float).

Definition number_val (n : number) : float :=
  match n with PyNum f | NpNum f => f end.

(** [a + b]: the sum is a [numpy.float64] as soon as one operand is; an
    addition of floats that overflows gives an infinity, it does not raise. *)
Definition number_add (a b : number) : number :=
  match a, b with
  | PyNum x, PyNum y => PyNum (x + y)
  | _, _ => NpNum (number_val a + number_val b)
  end.

(** The built-in [sum]: [0 + l[0] + l[1] + ...], from the [int] 0. *)
Definition sum (l : list number) : number := fold_left number_add l (PyNum 0).

(** A value a speed query hands out; a [numpy.float64] may be an infinity
    or a NaN. *)
Inductive value : Type :=
| VPy (f : float)
| VNp (f : float).

(** [a / b] on built-in numbers: raises when [b] is zero (of either sign),
    rounds otherwise. *)
Definition py_div (a b : float) : result float :=
  if b =? 0 then Raise ZeroDivisionError else Ok (a / b).

(** [a / b] with [a] a [numpy.float64]: NumPy warns on a zero divisor and
    returns the IEEE quotient (an infinity or a NaN); it does not raise. *)
Definition number_div (a : number) (b : float) : result value :=
  match a with
  | PyNum x => rbind (py_div x b) (fun q => Ok (VPy q))
  | NpNum x => Ok (VNp (x / b))
  end.

(** A finite number whose square is out of range. *)
Definition overflows (x : float) : bool := is_finite x && is_infinity (x * x).

(** [x ** 2] on a built-in float: the square, taken to be correctly
    rounded, and [OverflowError] when a finite [x] has a square that is out
    of range. *)
Definition square (x : float) : result float :=
  if overflows x then Raise OverflowError else Ok (x * x).


End Py64.

(* ================================================================== *)
(** * movement.SpeedMonitor in double precision                       *)
(* ================================================================== *)

(** The class of [_SpeedMonitor.py] once more, with every coordinate, time
    and speed a double.  The distance [0] of the first sample is the float
    zero, tagged as a built-in number. *)
Module SpeedMonitor64.

Import PrimFloat Py64.
Local Open Scope float_scope.
Local Open Scope py_scope.

(** An element of [_recent_points]: the tuple
    [(x_coord, y_coord, time, distance)]. *)
Record point : Type := mkPoint {
  p0 : float;
  p1 : float;
  p2 : float;
  p3 : number
}.

Record t : Type := mk {
  _units_per_mm : float;
  _calculation_interval : float;
  _recent_points : list point;
  _pre_recent_point : option point;
  _time0 : option float
}.

Definition set_recent_points (l : list point) (self : t) : t :=
  mk (_units_per_mm self) (_calculation_interval self) l
     (_pre_recent_point self) (_time0 self).
Definition set_pre_recent_point (p : option point) (self : t) : t :=
  mk (_units_per_mm self) (_calculation_interval self) (_recent_points self)
     p (_time0 self).
Definition set_time0 (t0 : option float) (self : t) : t :=
  mk (_units_per_mm self) (_calculation_interval self) (_recent_points self)
     (_pre_recent_point self) t0.

(** [reset(time)] *)
Definition reset (time : option float) (self : t) : t :=
  set_time0 time (set_pre_recent_point None (set_recent_points [] self)).

(** [__init__(self, units_per_mm, calculation_interval)], the two setters
    ([validate_attr_positive], [validate_attr_not_negative]) and [reset()]. *)
Definition __init__ (units_per_mm calculation_interval : float) : result t :=
  if units_per_mm <=? 0 then Raise ValueError
  else if calculation_interval <? 0 then Raise ValueError
  else Ok (mk units_per_mm calculation_interval [] None None).

(** [prev_time] of [_validate_time]. *)
Definition prev_time (self : t) : option float :=
  match last_opt (_recent_points self) with
  | Some p => Some (p2 p)
  | None => _time0 self
  end.

(** [_validate_time(time)]: raises when [prev_time > time]. *)
Definition _validate_time (time : float) : M t unit :=
  self <- get ;;
  match prev_time self with
  | Some prev => if time <? prev then raise InvalidStateError else ret tt
  | None => ret tt
  end.

(** [_remove_recent_points_older_than(latest_good_time)] *)
Definition _remove_recent_points_older_than (latest_good_time : float) (self : t) : t :=
  let older_than_threshold :=
    SpeedMonitor.np_where
      (map (fun p => p2 p <=? latest_good_time) (_recent_points self)) in
  match last_opt older_than_threshold with
  | Some k =>
      set_recent_points (skipn (S k) (_recent_points self))
        (set_pre_recent_point (nth_error (_recent_points self) k) self)
  | None => self
  end.

(** [distance] of [update_xyt]:
    [np.sqrt((x_coord-last_loc[0]) ** 2 + (y_coord-last_loc[1]) ** 2)], or
    [0] when there is no sample. *)
Definition distance_to (last : option point) (x_coord y_coord : float) : result number :=
  match last with
  | Some last_loc =>
      rbind (square (x_coord - p0 last_loc)) (fun dx2 =>
      rbind (square (y_coord - p1 last_loc)) (fun dy2 =>
      Ok (NpNum (sqrt (dx2 + dy2)))))
  | None => Ok (PyNum 0)
  end.

(** [update_xyt(x_coord, y_coord, time)] *)
Definition update_xyt (x_coord y_coord time : float) : M t unit :=
  _validate_time time ;;;
  modify (fun self =>
            match _time0 self with
            | None => set_time0 (Some time) self
            | Some _ => self
            end) ;;;
  self <- get ;;
  x_coord <- lift (py_div x_coord (_units_per_mm self)) ;;
  y_coord <- lift (py_div y_coord (_units_per_mm self)) ;;
  distance <- lift (distance_to (last_opt (_recent_points self)) x_coord y_coord) ;;
  modify (_remove_recent_points_older_than (time - _calculation_interval self)) ;;;
  modify (fun self =>
            set_recent_points
              (_recent_points self ++ [mkPoint x_coord y_coord time distance]) self).

(** The property [last_calculation_interval]. *)
Definition last_calculation_interval (self : t) : result (option float) :=
  match _pre_recent_point self with
  | None => Ok None
  | Some pre =>
      match last_opt (_recent_points self) with
      | Some p => Ok (Some (p2 p - p2 pre))
      | None => Raise IndexError
      end
  end.

(** [n / self.last_calculation_interval] *)
Definition div_by_interval (n : number) (self : t) : result (option value) :=
  rbind (last_calculation_interval self)
    (fun i => match i with
              | Some d => rbind (number_div n d) (fun v => Ok (Some v))
              | None => Raise TypeError
              end).

(** The property [xspeed]. *)
Definition xspeed (self : t) : result (option value) :=
  match _pre_recent_point self with
  | None => Ok None
  | Some pre =>
      let y1 := p0 pre in
      match last_opt (_recent_points self) with
      | None => Raise IndexError
      | Some p => let y2 := p0 p in div_by_interval (PyNum (y2 - y1)) self
      end
  end.

(** The property [yspeed]. *)
Definition yspeed (self : t) : result (option value) :=
  match _pre_recent_point self with
  | None => Ok None
  | Some pre =>
      let y1 := p1 pre in
      match last_opt (_recent_points self) with
      | None => Raise IndexError
      | Some p => let y2 := p1 p in div_by_interval (PyNum (y2 - y1)) self
      end
  end.

(** The property [xyspeed]. *)
Definition xyspeed (self : t) : result (option value) :=
  match _pre_recent_point self with
  | None => Ok None
  | Some _ =>
      let distance := sum (map p3 (_recent_points self)) in
      div_by_interval distance self
  end.

(** Successive calls of [update_xyt]; an exception ends the run. *)
Fixpoint pushes (samples : list (float * float * float)) : M t unit :=
  match samples with
  | [] => ret tt
  | (x_coord, y_coord, time) :: rest =>
      update_xyt x_coord y_coord time ;;; pushes rest
  end.


(** ** Notions used to state the properties *)

(** The test of [_validate_time]: [prev_time is not None and prev_time > time]. *)
Definition time_rejected (self : t) (time : float) : bool :=
  match prev_time self with
  | Some prev => time <? prev
  | None => false
  end.

(** [self] once [_time0] has its default. *)
Definition with_time0 (time : float) (self : t) : t :=
  match _time0 self with
  | None => set_time0 (Some time) self
  | Some _ => self
  end.

(** Each sample of [l] carries the distance, as [update_xyt] computes it,
    from the sample before it. *)
Fixpoint chained (prev : option point) (l : list point) : Prop :=
  match l with
  | [] => True
  | p :: l' => distance_to prev (p0 p) (p1 p) = Ok (p3 p) /\ chained (Some p) l'
  end.




(** What the window keeps between two calls: the retained samples are
    chained from the pre-window sample, and there is no pre-window sample
    before the first call. *)
Definition linked (self : t) : Prop :=
  chained (_pre_recent_point self) (_recent_points self)
  /\ (_recent_points self = [] -> _pre_recent_point self = None).

End SpeedMonitor64.

(* ================================================================== *)
(** * stimuli.NumberLine: the value of a touch, in double precision   *)
(* ================================================================== *)

Module NumberLine64.

Import PrimFloat Py64.
Local Open Scope float_scope.

(** The property [last_touched_value], from the attributes it reads:
    [_last_touched_coord], [line_length], [_min_value] and [_max_value]. *)
Definition last_touched_value (_last_touched_coord : option float)
    (line_length _min_value _max_value : float) : result (option float) :=
  match _last_touched_coord with
  | None => Ok None
  | Some coord =>
      rbind (py_div coord line_length) (fun ratio =>
      let pos01 := ratio + 0x1p-1 in
      Ok (Some (pos01 * (_max_value - _min_value) + _min_value)))
  end.

End NumberLine64.

(* ================================================================== *)
(** * Facts about the Python runtime notions                          *)
(* ================================================================== *)

Module PyFacts.

Local Open Scope R_scope.

Lemma Rleb_true_iff (a b : R) : Rleb a b = true <-> a <= b.
Proof. unfold Rleb; destruct (Rle_dec a b); split; intros; try lra; discriminate. Qed.

Lemma Rleb_false_iff (a b : R) : Rleb a b = false <-> b < a.
Proof. unfold Rleb; destruct (Rle_dec a b); split; intros; try lra; discriminate. Qed.

Lemma Rltb_true_iff (a b : R) : Rltb a b = true <-> a < b.
Proof. unfold Rltb; destruct (Rlt_dec a b); split; intros; try lra; discriminate. Qed.

Lemma Rltb_false_iff (a b : R) : Rltb a b = false <-> b <= a.
Proof. unfold Rltb; destruct (Rlt_dec a b); split; intros; try lra; discriminate. Qed.

Lemma py_div_nonzero (a b : R) : b <> 0 -> py_div a b = Ok (a / b).
Proof. intros H; unfold py_div; destruct (Req_dec_T b 0); [contradiction | reflexivity]. Qed.

Lemma py_div_zero (a : R) : py_div a 0 = Raise ZeroDivisionError.
Proof. unfold py_div; destruct (Req_dec_T 0 0); [reflexivity | lra]. Qed.

Lemma np_div_nonzero (a b : R) : b <> 0 -> np_div a b = VNp (a / b).
Proof. intros H; unfold np_div; destruct (Req_dec_T b 0); [contradiction | reflexivity]. Qed.

Lemma last_opt_nil {A} : last_opt (@nil A) = None.
Proof. reflexivity. Qed.

Lemma last_opt_snoc {A} (l : list A) (a : A) : last_opt (l ++ [a]) = Some a.
Proof.
  unfold last_opt. rewrite length_app. simpl.
  replace (List.length l + 1 - 1)%nat with (List.length l) by lia.
  rewrite nth_error_app2 by lia. rewrite Nat.sub_diag. reflexivity.
Qed.

Lemma last_opt_None {A} (l : list A) : last_opt l = None -> l = [].
Proof.
  destruct l as [|a l]; [reflexivity|].
  unfold last_opt. intros H. apply nth_error_None in H. simpl in H. lia.
Qed.

Lemma last_opt_cons {A} (a : A) (l : list A) :
  last_opt (a :: l) = match last_opt l with Some b => Some b | None => Some a end.
Proof.
  destruct l as [|b l]; [reflexivity|].
  unfold last_opt. simpl. rewrite Nat.sub_0_r.
  destruct (nth_error (b :: l) (List.length l)) eqn:E; [reflexivity|].
  apply nth_error_None in E. simpl in E. lia.
Qed.

Lemma last_opt_app {A} (l1 l2 : list A) :
  l2 <> [] -> last_opt (l1 ++ l2) = last_opt l2.
Proof.
  intros H. destruct (exists_last H) as [l [a ->]].
  rewrite app_assoc, !last_opt_snoc. reflexivity.
Qed.

Lemma last_opt_In {A} (l : list A) (a : A) : last_opt l = Some a -> In a l.
Proof. unfold last_opt. apply nth_error_In. Qed.

(** A list is empty or ends with its [last_opt]. *)
Lemma last_opt_inv {A} (l : list A) :
  (l = [] /\ last_opt l = None) \/ (exists l' a, l = l' ++ [a] /\ last_opt l = Some a).
Proof.
  destruct l as [|b l]; [left; split; reflexivity|].
  right. assert (H : b :: l <> []) by discriminate.
  destruct (exists_last H) as [l' [a E]]. exists l', a.
  rewrite E. split; [reflexivity | apply last_opt_snoc].
Qed.

End PyFacts.

(* ================================================================== *)
(** * SpeedMonitor: the window and its invariant                      *)
(* ================================================================== *)

Module SpeedMonitorFacts.

Import PyFacts SpeedMonitor.
Local Open Scope R_scope.

(** ** The cut made by [np.where] *)

Lemma where_from_last_None (mask : list bool) : forall i,
  last_opt (where_from i mask) = None -> Forall (fun b => b = false) mask.
Proof.
  induction mask as [|b mask IH]; intros i H; [constructor|].
  simpl in H. destruct b.
  - rewrite last_opt_cons in H. destruct (last_opt (where_from (S i) mask)); discriminate.
  - constructor; [reflexivity | eauto].
Qed.

Lemma where_from_last_Some (mask : list bool) : forall i k,
  last_opt (where_from i mask) = Some k ->
  exists m1 m2, mask = m1 ++ true :: m2 /\ k = (i + List.length m1)%nat
                /\ Forall (fun b => b = false) m2.
Proof.
  induction mask as [|b mask IH]; intros i k H; [discriminate|].
  simpl in H. destruct b.
  - rewrite last_opt_cons in H.
    destruct (last_opt (where_from (S i) mask)) as [k'|] eqn:E.
    + injection H as <-. destruct (IH _ _ E) as (m1 & m2 & -> & -> & F).
      exists (true :: m1), m2. repeat split; [simpl; lia | assumption].
    + injection H as <-. exists [], mask. repeat split; [simpl; lia|].
      eapply where_from_last_None; eassumption.
  - destruct (IH _ _ H) as (m1 & m2 & -> & -> & F).
    exists (false :: m1), m2. repeat split; [simpl; lia | assumption].
Qed.

(** What [_remove_recent_points_older_than] does to the window: nothing
    when every sample is newer than the threshold; otherwise it cuts after
    the last sample [p] that is not, keeps [p] as [_pre_recent_point] and
    drops [p] and everything before it. *)
Lemma remove_cases (thr : R) (self : t) :
  (evicted_by thr self = []
   /\ _remove_recent_points_older_than thr self = self
   /\ Forall (fun p => thr < p2 p) (_recent_points self))
  \/
  (exists r1 p r2,
      _recent_points self = r1 ++ p :: r2
      /\ p2 p <= thr
      /\ Forall (fun q => thr < p2 q) r2
      /\ evicted_by thr self = r1 ++ [p]
      /\ _remove_recent_points_older_than thr self
         = set_recent_points r2 (set_pre_recent_point (Some p) self)).
Proof.
  unfold evicted_by, _remove_recent_points_older_than, np_where.
  destruct (last_opt (where_from 0 (map (fun p => Rleb (p2 p) thr) (_recent_points self))))
    as [k|] eqn:E.
  - right. apply where_from_last_Some in E. destruct E as (m1 & m2 & Hm & -> & F).
    apply map_eq_app in Hm. destruct Hm as (r1 & r' & Hr & <- & Hm).
    apply map_eq_cons in Hm. destruct Hm as (p & r2 & -> & Hp & <-).
    exists r1, p, r2. rewrite Hr. rewrite Nat.add_0_l, length_map.
    assert (Hlen : S (List.length r1) = List.length (r1 ++ [p]))
      by (rewrite length_app; simpl; lia).
    assert (Happ : r1 ++ p :: r2 = (r1 ++ [p]) ++ r2) by (now rewrite <- app_assoc).
    repeat split.
    + now apply Rleb_true_iff.
    + rewrite Forall_map in F. eapply Forall_impl; [|exact F].
      intros q Hq. now apply Rleb_false_iff.
    + rewrite Hlen, Happ, firstn_app, firstn_all, Nat.sub_diag.
      simpl. now rewrite app_nil_r.
    + f_equal.
      * rewrite Hlen, Happ, skipn_app, skipn_all, Nat.sub_diag. reflexivity.
      * rewrite nth_error_app2 by lia. rewrite Nat.sub_diag. reflexivity.
  - left. repeat split. apply where_from_last_None in E.
    rewrite Forall_map in E. eapply Forall_impl; [|exact E].
    intros q Hq. now apply Rleb_false_iff.
Qed.

(** The window before a cut is what the cut evicts followed by what it keeps. *)
Lemma evicted_by_split (thr : R) (self : t) :
  _recent_points self
  = evicted_by thr self ++ _recent_points (_remove_recent_points_older_than thr self).
Proof.
  destruct (remove_cases thr self) as [(-> & -> & _) | (r1 & p & r2 & Hr & _ & _ & -> & ->)].
  - reflexivity.
  - rewrite Hr. simpl. now rewrite <- app_assoc.
Qed.

(** ** One call of [update_xyt] *)

Lemma update_xyt_unfold (x_coord y_coord time : R) (self : t) :
  update_xyt x_coord y_coord time self =
  if time_rejected self time then (self, Raise InvalidStateError)
  else if Req_dec_T (_units_per_mm self) 0
       then (with_time0 time self, Raise ZeroDivisionError)
       else
         let self2 :=
           _remove_recent_points_older_than (time - _calculation_interval self)
             (with_time0 time self) in
         (set_recent_points
            (_recent_points self2 ++ [new_point self x_coord y_coord time]) self2,
          Ok tt).
Proof.
  unfold update_xyt, _validate_time, time_rejected, bind, get, modify, lift, ret, raise.
  destruct (prev_time self) as [prev|]; [destruct (Rltb time prev); [reflexivity|]|];
    unfold py_div, new_point, with_time0;
    destruct (_time0 self); simpl;
    destruct (Req_dec_T (_units_per_mm self) 0); reflexivity.
Qed.

Lemma with_time0_recent (time : R) (self : t) :
  _recent_points (with_time0 time self) = _recent_points self.
Proof. unfold with_time0; destruct (_time0 self); reflexivity. Qed.

Lemma with_time0_pre (time : R) (self : t) :
  _pre_recent_point (with_time0 time self) = _pre_recent_point self.
Proof. unfold with_time0; destruct (_time0 self); reflexivity. Qed.

Lemma evicted_by_with_time0 (thr time : R) (self : t) :
  evicted_by thr (with_time0 time self) = evicted_by thr self.
Proof. unfold evicted_by. now rewrite with_time0_recent. Qed.

(** What a successful call leaves behind. *)
Lemma update_xyt_Ok (x_coord y_coord time : R) (self self' : t) :
  update_xyt x_coord y_coord time self = (self', Ok tt) ->
  time_rejected self time = false
  /\ _units_per_mm self <> 0
  /\ _units_per_mm self' = _units_per_mm self
  /\ _calculation_interval self' = _calculation_interval self
  /\ _time0 self' = Some (match _time0 self with Some t0 => t0 | None => time end)
  /\ _recent_points self =
       evicted_by (time - _calculation_interval self) self
       ++ removelast (_recent_points self')
  /\ _recent_points self' =
       removelast (_recent_points self') ++ [new_point self x_coord y_coord time]
  /\ _pre_recent_point self' =
       match last_opt (evicted_by (time - _calculation_interval self) self) with
       | Some p => Some p
       | None => _pre_recent_point self
       end.
Proof.
  rewrite update_xyt_unfold.
  destruct (time_rejected self time); [discriminate|].
  destruct (Req_dec_T (_units_per_mm self) 0) as [|Hu]; [discriminate|].
  cbv zeta. intros H. injection H as <-.
  split; [reflexivity|]. split; [assumption|].
  pose proof (evicted_by_split (time - _calculation_interval self) (with_time0 time self)) as Hs.
  rewrite evicted_by_with_time0, with_time0_recent in Hs.
  destruct (remove_cases (time - _calculation_interval self) (with_time0 time self))
    as [(He & Hr & _) | (r1 & p & r2 & Hrec & _ & _ & He & Hr)];
    rewrite evicted_by_with_time0 in He; rewrite Hr in *; rewrite He in *;
    simpl; rewrite ?removelast_last, ?with_time0_recent, ?with_time0_pre, ?last_opt_snoc;
    unfold with_time0; destruct (_time0 self) eqn:Et; simpl; rewrite ?Et;
    repeat split; auto.
Qed.

(** ** Ordered and chained lists of samples *)

Lemma time_ordered_app (a b : list point) :
  time_ordered (a ++ b) <->
  time_ordered a /\ time_ordered b
  /\ Forall (fun p => Forall (fun q => p2 p <= p2 q) b) a.
Proof.
  induction a as [|p a IH]; simpl.
  - split; [intros H; repeat split; auto | intros (_ & H & _); exact H].
  - rewrite Forall_app, IH. split.
    + intros ((Ha & Hb) & Ho & Hob & Hab). repeat split; auto.
    + intros ((Ha & Ho) & Hob & Hab). inversion Hab; subst. repeat split; auto.
Qed.

Lemma time_ordered_last (l : list point) (p q : point) :
  time_ordered l -> In p l -> last_opt l = Some q -> p2 p <= p2 q.
Proof.
  intros Ho Hin Hl.
  destruct (last_opt_inv l) as [(-> & _) | (l' & a & -> & Ha)]; [contradiction|].
  rewrite Ha in Hl. injection Hl as ->.
  apply time_ordered_app in Ho. destruct Ho as (_ & _ & Hf).
  apply in_app_or in Hin. destruct Hin as [Hin | [-> | []]]; [|lra].
  rewrite Forall_forall in Hf. specialize (Hf _ Hin). inversion Hf; subst. assumption.
Qed.

Lemma time_ordered_snoc (l : list point) (p : point) :
  time_ordered l ->
  (forall q, last_opt l = Some q -> p2 q <= p2 p) ->
  time_ordered (l ++ [p]).
Proof.
  intros Ho Hl. apply time_ordered_app. repeat split; [assumption | constructor |].
  apply Forall_forall. intros a Ha. constructor; [|constructor].
  destruct (last_opt l) as [q|] eqn:E.
  - pose proof (time_ordered_last _ _ _ Ho Ha E). specialize (Hl _ eq_refl). lra.
  - apply last_opt_None in E. subst. contradiction.
Qed.

Lemma chained_app (prev : option point) (a b : list point) :
  chained prev (a ++ b) <-> chained prev a /\ chained (before prev a) b.
Proof.
  revert prev. induction a as [|p a IH]; intros prev; simpl.
  - unfold before; simpl. tauto.
  - rewrite IH. unfold before. rewrite (last_opt_cons p a).
    destruct (last_opt a); tauto.
Qed.

Lemma window_inv_reset (t0 : option R) (self : t) : window_inv [] (reset t0 self).
Proof. repeat split; simpl; auto. Qed.

Lemma last_opt_history (ev : list point) (self : t) :
  window_inv ev self -> last_opt (ev ++ _recent_points self) = last_opt (_recent_points self).
Proof.
  intros (_ & _ & _ & He).
  destruct (_recent_points self) as [|p r] eqn:E.
  - rewrite (He eq_refl). reflexivity.
  - apply last_opt_app. discriminate.
Qed.

Lemma new_point_distance (self : t) (x_coord y_coord time : R) :
  p3 (new_point self x_coord y_coord time)
  = distance_after (last_opt (_recent_points self)) (new_point self x_coord y_coord time).
Proof. unfold new_point, distance_after. simpl. destruct (last_opt (_recent_points self)); reflexivity. Qed.

Lemma update_xyt_inv (x_coord y_coord time : R) (self self' : t) (ev : list point) :
  window_inv ev self ->
  update_xyt x_coord y_coord time self = (self', Ok tt) ->
  window_inv (ev ++ evicted_by (time - _calculation_interval self) self) self'.
Proof.
  intros Hinv Hup.
  pose proof (last_opt_history _ _ Hinv) as Hlast.
  destruct Hinv as (Ho & Hpre & Hc & He).
  apply update_xyt_Ok in Hup.
  destruct Hup as (Hrej & _ & _ & _ & _ & Hsplit & Hnew & Hpre').
  set (E := evicted_by (time - _calculation_interval self) self) in *.
  assert (Hhist : (ev ++ E) ++ _recent_points self'
                  = (ev ++ _recent_points self) ++ [new_point self x_coord y_coord time]).
  { rewrite Hnew at 1. rewrite Hsplit. now rewrite <- !app_assoc. }
  unfold window_inv. rewrite Hhist. repeat split.
  - apply time_ordered_snoc; [assumption|].
    intros q Hq. rewrite Hlast in Hq. unfold time_rejected, prev_time in Hrej.
    rewrite Hq in Hrej. apply Rltb_false_iff in Hrej. exact Hrej.
  - rewrite Hpre'. destruct (last_opt E) as [p|] eqn:EE.
    + destruct (last_opt_inv E) as [(-> & _) | (l' & a & HE & Ha)]; [discriminate|].
      rewrite HE in *. rewrite Ha in EE. injection EE as ->.
      rewrite app_assoc. now rewrite last_opt_snoc.
    + apply last_opt_None in EE. rewrite EE, app_nil_r. exact Hpre.
  - apply chained_app. split; [assumption|]. cbn [chained]. split; [|exact I].
    unfold before. rewrite Hlast, new_point_distance.
    destruct (last_opt (_recent_points self)); reflexivity.
  - intros Hnil. rewrite Hnil in Hnew. destruct (removelast []); discriminate.
Qed.

(** ** Runs *)

Lemma pushes_cons_Ok (x_coord y_coord time : R) (rest : list (R * R * R)) (self self' : t) :
  pushes ((x_coord, y_coord, time) :: rest) self = (self', Ok tt) ->
  exists s1, update_xyt x_coord y_coord time self = (s1, Ok tt)
             /\ pushes rest s1 = (self', Ok tt).
Proof.
  simpl. unfold bind.
  destruct (update_xyt x_coord y_coord time self) as [s1 [[]|e]]; [|discriminate].
  intros H. exists s1. split; [reflexivity | exact H].
Qed.

Lemma pushes_inv (samples : list (R * R * R)) : forall (self self' : t) (ev : list point),
  window_inv ev self ->
  pushes samples self = (self', Ok tt) ->
  window_inv (ev ++ evictions samples self) self'.
Proof.
  induction samples as [|[[xc yc] time] rest IH]; intros self self' ev Hinv Hp.
  - simpl in *. injection Hp as <-. now rewrite app_nil_r.
  - apply pushes_cons_Ok in Hp. destruct Hp as (s1 & Hup & Hrest).
    simpl. rewrite Hup. rewrite app_assoc. eapply IH; [|exact Hrest].
    eapply update_xyt_inv; eassumption.
Qed.

(** A call with a time that is not smaller than the previous one, on a
    monitor with a valid [units_per_mm], returns. *)
Lemma update_xyt_total (x_coord y_coord time : R) (self : t) :
  _units_per_mm self <> 0 ->
  time_rejected self time = false ->
  exists self', update_xyt x_coord y_coord time self = (self', Ok tt).
Proof.
  intros Hu Hrej. rewrite update_xyt_unfold, Hrej.
  destruct (Req_dec_T (_units_per_mm self) 0); [contradiction|]. eauto.
Qed.

Lemma update_xyt_last (x_coord y_coord time : R) (self self' : t) :
  update_xyt x_coord y_coord time self = (self', Ok tt) ->
  last_opt (_recent_points self') = Some (new_point self x_coord y_coord time).
Proof.
  intros H. apply update_xyt_Ok in H.
  destruct H as (_ & _ & _ & _ & _ & _ & -> & _). apply last_opt_snoc.
Qed.

Lemma nondecreasing_accepted (prev : option R) (x_coord y_coord time : R)
    (rest : list (R * R * R)) (self : t) :
  prev_time self = prev ->
  nondecreasing_from prev ((x_coord, y_coord, time) :: rest) ->
  time_rejected self time = false.
Proof.
  intros <- [H _]. unfold time_rejected.
  destruct (prev_time self); [now apply Rltb_false_iff | reflexivity].
Qed.

Lemma pushes_total (samples : list (R * R * R)) : forall self : t,
  _units_per_mm self <> 0 ->
  nondecreasing_from (prev_time self) samples ->
  exists self', pushes samples self = (self', Ok tt).
Proof.
  induction samples as [|[[xc yc] time] rest IH]; intros self Hu Hnd.
  - exists self. reflexivity.
  - pose proof (nondecreasing_accepted _ _ _ _ _ _ eq_refl Hnd) as Hrej.
    destruct (update_xyt_total xc yc time self Hu Hrej) as [s1 H1].
    pose proof (update_xyt_last _ _ _ _ _ H1) as Hl.
    pose proof (update_xyt_Ok _ _ _ _ _ H1) as (_ & _ & Hu1 & _).
    destruct (IH s1) as [s2 H2].
    + now rewrite Hu1.
    + unfold prev_time. rewrite Hl. simpl. apply Hnd.
    + exists s2. simpl. unfold bind. rewrite H1. exact H2.
Qed.

(** The last sample of a run is the last element of the window. *)
Lemma pushes_last (samples : list (R * R * R)) : forall (self self' : t) xc yc time,
  pushes samples self = (self', Ok tt) ->
  last_opt samples = Some (xc, yc, time) ->
  _units_per_mm self' = _units_per_mm self
  /\ exists p, last_opt (_recent_points self') = Some p
               /\ p0 p = xc / _units_per_mm self
               /\ p1 p = yc / _units_per_mm self
               /\ p2 p = time.
Proof.
  induction samples as [|[[xa ya] ta] rest IH]; intros self self' xc yc time Hp Hl;
    [discriminate|].
  apply pushes_cons_Ok in Hp. destruct Hp as (s1 & Hup & Hrest).
  pose proof (update_xyt_Ok _ _ _ _ _ Hup) as (_ & _ & Hu1 & _).
  rewrite last_opt_cons in Hl. destruct (last_opt rest) as [s|] eqn:E.
  - injection Hl as ->. destruct (IH _ _ _ _ _ Hrest eq_refl) as (Hu & p & Hp & H0 & H1 & H2).
    rewrite Hu1 in *. split; [assumption|]. exists p. auto.
  - injection Hl as -> -> ->. apply last_opt_None in E. subst rest.
    simpl in Hrest. injection Hrest as <-. split; [assumption|].
    exists (new_point self xc yc time). split; [|repeat split].
    eapply update_xyt_last; eassumption.
Qed.

(** ** Evaluation on concrete numbers *)

Lemma Rleb_true (a b : R) : a <= b -> Rleb a b = true.
Proof. apply Rleb_true_iff. Qed.
Lemma Rleb_false (a b : R) : b < a -> Rleb a b = false.
Proof. apply Rleb_false_iff. Qed.
Lemma Rltb_true (a b : R) : a < b -> Rltb a b = true.
Proof. apply Rltb_true_iff. Qed.
Lemma Rltb_false (a b : R) : b <= a -> Rltb a b = false.
Proof. apply Rltb_false_iff. Qed.

(** Settles the comparisons of the goal whose operands are known numbers. *)
Ltac R_decide :=
  repeat match goal with
  | |- context [Rleb ?a ?b] =>
      first [rewrite (Rleb_true a b) by lra | rewrite (Rleb_false a b) by lra]
  | |- context [Rltb ?a ?b] =>
      first [rewrite (Rltb_true a b) by lra | rewrite (Rltb_false a b) by lra]
  | |- context [Req_dec_T ?a ?b] =>
      destruct (Req_dec_T a b); try (exfalso; lra)
  end.

(** One call on known numbers. *)
Ltac step_update :=
  rewrite update_xyt_unfold;
  unfold _remove_recent_points_older_than, np_where, new_point, with_time0;
  cbn; R_decide; cbn.

(** ** The window stays ordered, keeps the newest sample, and retains the
       last evicted sample *)

Lemma reachable_inv (m0 m : t) (t0 : option R) (samples : list (R * R * R)) :
  pushes samples (reset t0 m0) = (m, Ok tt) ->
  window_inv (evictions samples (reset t0 m0)) m.
Proof.
  intros H. apply (pushes_inv samples _ _ [] (window_inv_reset t0 m0) H).
Qed.

(** The evicted samples followed by the retained ones are the samples of
    the calls, in call order: what a call evicts leaves [_recent_points]. *)
Lemma update_xyt_history (x_coord y_coord time : R) (self self' : t) :
  update_xyt x_coord y_coord time self = (self', Ok tt) ->
  map sample_of
    (evicted_by (time - _calculation_interval self) self ++ _recent_points self')
  = map sample_of (_recent_points self)
    ++ [stored (_units_per_mm self) (x_coord, y_coord, time)].
Proof.
  intros Hup. apply update_xyt_Ok in Hup.
  destruct Hup as (_ & _ & _ & _ & _ & Hsplit & Hnew & _).
  rewrite Hnew, app_assoc, <- Hsplit, map_app. reflexivity.
Qed.

Lemma pushes_history (samples : list (R * R * R)) :
  forall (self self' : t) (ev : list point) (done : list (R * R * R)),
    pushes samples self = (self', Ok tt) ->
    map sample_of (ev ++ _recent_points self) = done ->
    map sample_of ((ev ++ evictions samples self) ++ _recent_points self')
    = done ++ map (stored (_units_per_mm self)) samples.
Proof.
  induction samples as [|[[xc yc] time] rest IH]; intros self self' ev done Hp Hd.
  - simpl in *. injection Hp as <-. now rewrite !app_nil_r.
  - destruct (pushes_cons_Ok _ _ _ _ _ _ Hp) as (s1 & H1 & Hrest).
    cbn [evictions]. rewrite H1.
    pose proof (update_xyt_history _ _ _ _ _ H1) as Hh.
    pose proof (update_xyt_Ok _ _ _ _ _ H1) as (_ & _ & Hu & _).
    rewrite app_assoc.
    rewrite (IH s1 self' (ev ++ evicted_by (time - _calculation_interval self) self)
               (done ++ [stored (_units_per_mm self) (xc, yc, time)]) Hrest).
    + rewrite Hu, <- app_assoc. reflexivity.
    + rewrite <- app_assoc, map_app, Hh, <- Hd, !map_app, <- app_assoc. reflexivity.
Qed.

(** C2.  For every sequence of [update_xyt] calls with non-decreasing
    timestamps (on a monitor with a valid [units_per_mm], after [reset]): the
    run returns; the retained samples are ordered by time; the sample pushed
    last is the last retained sample (no call evicts the sample it pushes);
    the samples evicted so far, in the order of their eviction, followed by
    the retained samples are exactly the samples of the calls in call order,
    so that an evicted sample has left the window and the window is what
    remains after it; and the pre-window sample is the sample evicted last,
    which is also the newest (by time) of all the samples evicted so far. *)
Theorem window_invariants (m0 : t) (t0 : option R) (samples : list (R * R * R)) :
  0 < _units_per_mm m0 ->
  nondecreasing_from t0 samples ->
  exists m,
    pushes samples (reset t0 m0) = (m, Ok tt)
    /\ time_ordered (_recent_points m)
    /\ (forall xc yc time, last_opt samples = Some (xc, yc, time) ->
         exists p, last_opt (_recent_points m) = Some p
                   /\ p0 p = xc / _units_per_mm m0
                   /\ p1 p = yc / _units_per_mm m0
                   /\ p2 p = time)
    /\ map sample_of (evictions samples (reset t0 m0) ++ _recent_points m)
       = map (stored (_units_per_mm m0)) samples
    /\ _pre_recent_point m = last_opt (evictions samples (reset t0 m0))
    /\ (forall q, _pre_recent_point m = Some q ->
         Forall (fun p => p2 p <= p2 q) (evictions samples (reset t0 m0))).
Proof.
  intros Hu Hnd.
  destruct (pushes_total samples (reset t0 m0)) as [m Hm];
    [simpl; lra | exact Hnd |].
  exists m. split; [exact Hm|].
  pose proof (reachable_inv _ _ _ _ Hm) as (Ho & Hpre & _ & _).
  apply time_ordered_app in Ho. destruct Ho as (Hev & Hrec & _).
  repeat split.
  - exact Hrec.
  - intros xc yc time Hl.
    destruct (pushes_last _ _ _ _ _ _ Hm Hl) as (_ & p & Hp). exists p. exact Hp.
  - exact (pushes_history samples _ _ [] [] Hm eq_refl).
  - exact Hpre.
  - intros q Hq. rewrite Hpre in Hq. apply Forall_forall. intros p Hp.
    exact (time_ordered_last _ _ _ Hev Hp Hq).
Qed.

Lemma window_invariants_witness :
  exists m,
    pushes [(0, 0, 0); (3, 4, 1); (3, 4, 5)] (reset None (mk 1 2 [] None None)) = (m, Ok tt)
    /\ time_ordered (_recent_points m)
    /\ map sample_of
         (evictions [(0, 0, 0); (3, 4, 1); (3, 4, 5)] (reset None (mk 1 2 [] None None))
          ++ _recent_points m)
       = map (stored 1) [(0, 0, 0); (3, 4, 1); (3, 4, 5)].
Proof.
  destruct (window_invariants (mk 1 2 [] None None) None [(0, 0, 0); (3, 4, 1); (3, 4, 5)])
    as (m & Hm & Ho & _ & Hh & _).
  - simpl. lra.
  - simpl. intuition lra.
  - exists m. split; [|split]; assumption.
Defined.

(** ** Out-of-order time *)

Lemma update_xyt_raises_iff (x_coord y_coord time : R) (self : t) :
  snd (update_xyt x_coord y_coord time self) = Raise InvalidStateError
  <-> time_rejected self time = true.
Proof.
  rewrite update_xyt_unfold.
  destruct (time_rejected self time); [split; reflexivity|].
  destruct (Req_dec_T (_units_per_mm self) 0); simpl; split; discriminate.
Qed.

Lemma time_rejected_iff (self : t) (time : R) :
  time_rejected self time = true <-> exists prev, prev_time self = Some prev /\ time < prev.
Proof.
  unfold time_rejected. destruct (prev_time self) as [prev|].
  - rewrite Rltb_true_iff. split; [eauto|]. intros (p & Hp & Hlt). now injection Hp as <-.
  - split; [discriminate|]. intros (p & Hp & _). discriminate.
Qed.

(** C5.  [update_xyt] raises [InvalidStateError] exactly when the time is
    strictly smaller than the time of the last pushed sample (or than
    [_time0] when there is no sample); the monitor is then left as it was; a
    time that is not smaller never raises it; and the speed validator hands
    the exception on to its caller: it does not turn it into a verdict. *)
Theorem out_of_order_time_raises (self : t) (x_coord y_coord time : R) :
  (snd (update_xyt x_coord y_coord time self) = Raise InvalidStateError
   <-> exists prev, prev_time self = Some prev /\ time < prev)
  /\ (snd (update_xyt x_coord y_coord time self) = Raise InvalidStateError ->
      fst (update_xyt x_coord y_coord time self) = self)
  /\ (forall prev, prev_time self = Some prev -> prev <= time ->
      snd (update_xyt x_coord y_coord time self) <> Raise InvalidStateError)
  /\ (forall v : InstantaneousSpeedValidator.t,
      InstantaneousSpeedValidator._enabled v = true ->
      InstantaneousSpeedValidator._speed_monitor v = self ->
      snd (update_xyt x_coord y_coord time self) = Raise InvalidStateError ->
      InstantaneousSpeedValidator.update_xyt x_coord y_coord time v
      = (v, Raise InvalidStateError)).
Proof.
  pose proof (update_xyt_raises_iff x_coord y_coord time self) as Hr.
  pose proof (time_rejected_iff self time) as Ht.
  split; [|split; [|split]].
  - tauto.
  - intros H. apply Hr in H.
    rewrite update_xyt_unfold, H. reflexivity.
  - intros prev Hp Hle H. apply Hr, Ht in H.
    destruct H as (p & Hp' & Hlt). rewrite Hp in Hp'. injection Hp' as <-. lra.
  - intros v Hen Hmon H. apply Hr in H.
    unfold InstantaneousSpeedValidator.update_xyt, InstantaneousSpeedValidator.on_monitor,
      bind, get.
    rewrite Hen. simpl. rewrite Hmon, update_xyt_unfold, H. subst self.
    destruct v; reflexivity.
Qed.

(** ** The queries before and after the first eviction *)

Lemma div_by_interval_not_None (n : number) (self : t) :
  div_by_interval n self <> Ok None.
Proof.
  unfold div_by_interval, rbind.
  destruct (last_calculation_interval self) as [[d|]|e]; try discriminate.
  destruct (number_div n d); discriminate.
Qed.

Lemma xspeed_None_iff (self : t) : xspeed self = Ok None <-> _pre_recent_point self = None.
Proof.
  unfold xspeed. destruct (_pre_recent_point self) as [pre|]; [|tauto].
  destruct (last_opt (_recent_points self)).
  - split; [intros H; now apply div_by_interval_not_None in H | discriminate].
  - split; discriminate.
Qed.

Lemma yspeed_None_iff (self : t) : yspeed self = Ok None <-> _pre_recent_point self = None.
Proof.
  unfold yspeed. destruct (_pre_recent_point self) as [pre|]; [|tauto].
  destruct (last_opt (_recent_points self)).
  - split; [intros H; now apply div_by_interval_not_None in H | discriminate].
  - split; discriminate.
Qed.

Lemma xyspeed_None_iff (self : t) : xyspeed self = Ok None <-> _pre_recent_point self = None.
Proof.
  unfold xyspeed. destruct (_pre_recent_point self) as [pre|]; [|tauto].
  split; [intros H; now apply div_by_interval_not_None in H | discriminate].
Qed.

Lemma interval_None_iff (self : t) :
  last_calculation_interval self = Ok None <-> _pre_recent_point self = None.
Proof.
  unfold last_calculation_interval. destruct (_pre_recent_point self) as [pre|]; [|tauto].
  destruct (last_opt (_recent_points self)); split; discriminate.
Qed.

Lemma last_opt_nil_iff {A} (l : list A) : last_opt l = None <-> l = [].
Proof. split; [apply last_opt_None | intros ->; reflexivity]. Qed.

Lemma pushes_time0 (samples : list (R * R * R)) : forall self self' : t,
  pushes samples self = (self', Ok tt) ->
  samples <> [] ->
  _time0 self' <> None /\ _recent_points self' <> [].
Proof.
  induction samples as [|[[xc yc] time] rest IH]; intros self self' Hp Hne;
    [contradiction|].
  apply pushes_cons_Ok in Hp. destruct Hp as (s1 & Hup & Hrest).
  destruct rest as [|s rest].
  - simpl in Hrest. injection Hrest as <-.
    pose proof (update_xyt_Ok _ _ _ _ _ Hup) as (_ & _ & _ & _ & Ht & _ & Hr & _).
    rewrite Ht. split; [discriminate|]. rewrite Hr.
    destruct (removelast (_recent_points s1)); discriminate.
  - apply (IH _ _ Hrest). discriminate.
Qed.

(** The claim that [time_in_trial] is [None] until a sample is evicted fails:
    with [calculation_interval = 10], after the single call
    [update_xyt(0, 0, 0)] nothing has been evicted and [time_in_trial] is 0. *)
Lemma time_in_trial_defined_without_eviction :
  exists m v,
    nondecreasing_from None [(0, 0, 0)]
    /\ pushes [(0, 0, 0)] (reset None (mk 1 10 [] None None)) = (m, Ok tt)
    /\ evictions [(0, 0, 0)] (reset None (mk 1 10 [] None None)) = []
    /\ time_in_trial m = Some v /\ v = 0.
Proof.
  eexists. eexists. split; [simpl; tauto|]. split; [|split; [|split]].
  - unfold pushes, bind. step_update. reflexivity.
  - unfold evictions. step_update. reflexivity.
  - cbn. reflexivity.
  - lra.
Qed.

(** C8, as the code has it.  For every push sequence with non-decreasing
    timestamps: [xspeed], [yspeed], [xyspeed] and
    [last_calculation_interval] return [None] exactly as long as no sample
    has been evicted; [time_in_trial] returns [None] exactly as long as no
    sample has been pushed. *)
Theorem queries_None_until_eviction (m0 : t) (t0 : option R) (samples : list (R * R * R)) :
  0 < _units_per_mm m0 ->
  nondecreasing_from t0 samples ->
  exists m,
    pushes samples (reset t0 m0) = (m, Ok tt)
    /\ (xspeed m = Ok None <-> evictions samples (reset t0 m0) = [])
    /\ (yspeed m = Ok None <-> evictions samples (reset t0 m0) = [])
    /\ (xyspeed m = Ok None <-> evictions samples (reset t0 m0) = [])
    /\ (last_calculation_interval m = Ok None <-> evictions samples (reset t0 m0) = [])
    /\ (time_in_trial m = None <-> samples = []).
Proof.
  intros Hu Hnd.
  destruct (pushes_total samples (reset t0 m0)) as [m Hm];
    [simpl; lra | exact Hnd |].
  exists m. split; [exact Hm|].
  pose proof (reachable_inv _ _ _ _ Hm) as (_ & Hpre & _ & _).
  rewrite xspeed_None_iff, yspeed_None_iff, xyspeed_None_iff, interval_None_iff, Hpre,
    last_opt_nil_iff.
  repeat split; try tauto.
  - intros Ht. destruct samples as [|s rest]; [reflexivity|]. exfalso.
    destruct (pushes_time0 _ _ _ Hm) as (H0 & Hr); [discriminate|].
    unfold time_in_trial in Ht. destruct (_time0 m); [|contradiction].
    destruct (last_opt (_recent_points m)) eqn:E; [discriminate|].
    apply last_opt_None in E. contradiction.
  - intros ->. simpl in Hm. injection Hm as <-.
    unfold time_in_trial. simpl. destruct t0; reflexivity.
Qed.

Lemma queries_None_until_eviction_witness :
  exists m,
    pushes [(0, 0, 0); (3, 4, 1)] (reset None (mk 1 2 [] None None)) = (m, Ok tt)
    /\ (xspeed m = Ok None
        <-> evictions [(0, 0, 0); (3, 4, 1)] (reset None (mk 1 2 [] None None)) = []).
Proof.
  destruct (queries_None_until_eviction (mk 1 2 [] None None) None [(0, 0, 0); (3, 4, 1)])
    as (m & Hm & Hx & _).
  - simpl. lra.
  - simpl. intuition lra.
  - exists m. split; assumption.
Defined.

(** ** Path length against net displacement *)

Lemma sqrt_bounds_fst (dx dy : R) : Rabs dx <= sqrt (dx ^ 2 + dy ^ 2).
Proof.
  rewrite <- sqrt_Rsqr_abs. apply sqrt_le_1_alt. unfold Rsqr. nra.
Qed.

Lemma sqrt_bounds_snd (dx dy : R) : Rabs dy <= sqrt (dx ^ 2 + dy ^ 2).
Proof.
  rewrite <- sqrt_Rsqr_abs. apply sqrt_le_1_alt. unfold Rsqr. nra.
Qed.

Lemma path_length_nonneg (l : list point) : forall q, 0 <= path_length q l.
Proof.
  induction l as [|p l IH]; intros q; cbn [path_length]; [lra|].
  pose proof (sqrt_pos ((p0 p - p0 q) ^ 2 + (p1 p - p1 q) ^ 2)).
  specialize (IH p). lra.
Qed.

Lemma path_length_bounds (l : list point) : forall q p,
  last_opt l = Some p ->
  Rabs (p0 p - p0 q) <= path_length q l /\ Rabs (p1 p - p1 q) <= path_length q l.
Proof.
  induction l as [|a l IH]; intros q p Hl; [discriminate|].
  rewrite last_opt_cons in Hl. cbn [path_length].
  pose proof (sqrt_bounds_fst (p0 a - p0 q) (p1 a - p1 q)) as Hx.
  pose proof (sqrt_bounds_snd (p0 a - p0 q) (p1 a - p1 q)) as Hy.
  destruct (last_opt l) as [b|] eqn:E.
  - injection Hl as ->. destruct (IH a p eq_refl) as (Ix & Iy).
    pose proof (Rabs_triang (p0 p - p0 a) (p0 a - p0 q)) as Tx.
    pose proof (Rabs_triang (p1 p - p1 a) (p1 a - p1 q)) as Ty.
    replace (p0 p - p0 a + (p0 a - p0 q)) with (p0 p - p0 q) in Tx by lra.
    replace (p1 p - p1 a + (p1 a - p1 q)) with (p1 p - p1 q) in Ty by lra.
    lra.
  - injection Hl as ->. apply last_opt_None in E. subst l. cbn [path_length]. lra.
Qed.

Lemma fold_chained (l : list point) : forall q a,
  chained (Some q) l ->
  fold_left number_add (map p3 l) (NpNum a) = NpNum (a + path_length q l).
Proof.
  induction l as [|p l IH]; intros q a Hc; cbn [map fold_left path_length].
  - f_equal. lra.
  - destruct Hc as (Hp & Hc). rewrite Hp.
    cbn [distance_after number_add number_val]. rewrite (IH _ _ Hc). f_equal. lra.
Qed.

(** Over samples that follow a sample [q], the built-in [sum] of the
    distances is a [numpy.float64]: the length of the path from [q]. *)
Lemma sum_chained (l : list point) (q : point) :
  chained (Some q) l -> l <> [] ->
  Py.sum (map p3 l) = NpNum (path_length q l).
Proof.
  intros Hc Hne. destruct l as [|p l]; [contradiction|].
  destruct Hc as (Hp & Hc). unfold Py.sum. cbn [map fold_left path_length].
  rewrite Hp. cbn [distance_after number_add number_val].
  rewrite (fold_chained _ _ _ Hc). f_equal. lra.
Qed.

(** What the queries compute once a sample has been evicted. *)
Lemma speeds_after_eviction (ev : list point) (self : t) (q : point) :
  window_inv ev self ->
  _pre_recent_point self = Some q ->
  exists p,
    last_opt (_recent_points self) = Some p
    /\ p2 q <= p2 p
    /\ Rabs (p0 p - p0 q) <= path_length q (_recent_points self)
    /\ Rabs (p1 p - p1 q) <= path_length q (_recent_points self)
    /\ last_calculation_interval self = Ok (Some (p2 p - p2 q))
    /\ xspeed self = rbind (py_div (p0 p - p0 q) (p2 p - p2 q)) (fun v => Ok (Some (VPy v)))
    /\ yspeed self = rbind (py_div (p1 p - p1 q) (p2 p - p2 q)) (fun v => Ok (Some (VPy v)))
    /\ xyspeed self
       = Ok (Some (np_div (path_length q (_recent_points self)) (p2 p - p2 q))).
Proof.
  intros (Ho & Hpre & Hc & He) Hq.
  rewrite Hq in Hpre. symmetry in Hpre.
  assert (Hne : _recent_points self <> []).
  { intros Hn. rewrite (He Hn) in Hpre. discriminate. }
  destruct (last_opt (_recent_points self)) as [p|] eqn:Hl;
    [|apply last_opt_None in Hl; contradiction].
  exists p. split; [reflexivity|].
  apply chained_app in Hc. destruct Hc as (_ & Hc).
  unfold before in Hc. rewrite Hpre in Hc.
  destruct (path_length_bounds _ q p Hl) as (Bx & By).
  assert (Hlci : last_calculation_interval self = Ok (Some (p2 p - p2 q))).
  { unfold last_calculation_interval. now rewrite Hq, Hl. }
  repeat split; try assumption.
  - apply time_ordered_app in Ho. destruct Ho as (_ & _ & Hf).
    rewrite Forall_forall in Hf. specialize (Hf q (last_opt_In _ _ Hpre)).
    rewrite Forall_forall in Hf. apply Hf. now apply last_opt_In.
  - unfold xspeed, div_by_interval. rewrite Hq, Hl, Hlci. simpl.
    destruct (py_div (p0 p - p0 q) (p2 p - p2 q)); reflexivity.
  - unfold yspeed, div_by_interval. rewrite Hq, Hl, Hlci. simpl.
    destruct (py_div (p1 p - p1 q) (p2 p - p2 q)); reflexivity.
  - unfold xyspeed, div_by_interval. rewrite Hq, Hlci, (sum_chained _ _ Hc Hne).
    reflexivity.
Qed.


(** ** Division by a zero interval *)

Lemma zero_interval_queries (ev : list point) (self : t) :
  window_inv ev self ->
  last_calculation_interval self = Ok (Some 0) ->
  xspeed self = Raise ZeroDivisionError
  /\ yspeed self = Raise ZeroDivisionError
  /\ exists v, xyspeed self = Ok (Some v) /\ (v = VNaN \/ v = VInf false).
Proof.
  intros Hinv Hz.
  destruct (_pre_recent_point self) as [q|] eqn:Hq;
    [|apply interval_None_iff in Hq; rewrite Hq in Hz; discriminate].
  destruct (speeds_after_eviction _ _ _ Hinv Hq)
    as (p & Hl & _ & _ & _ & Hlci & Ex & Ey & Exy).
  rewrite Hlci in Hz. injection Hz as Hz.
  rewrite Ex, Ey, Exy, Hz, !py_div_zero. repeat split.
  unfold np_div. destruct (Req_dec_T 0 0) as [_|]; [|lra].
  destruct (Req_dec_T (path_length q (_recent_points self)) 0).
  - eexists. split; [reflexivity | now left].
  - eexists. split; [reflexivity | right]. f_equal. apply Rltb_false.
    apply path_length_nonneg.
Qed.

(** The claim that [xyspeed] raises on a zero interval fails: after no
    accepted run do [xspeed], [yspeed] and [xyspeed] all raise, because the
    numerator of [xyspeed] is a [numpy.float64], whose division by zero
    returns [nan] or [inf]. *)
Lemma xyspeed_does_not_raise :
  ~ exists (m0 : t) (t0 : option R) (samples : list (R * R * R)) (m : t),
      nondecreasing_from t0 samples
      /\ pushes samples (reset t0 m0) = (m, Ok tt)
      /\ last_calculation_interval m = Ok (Some 0)
      /\ raises (xspeed m) /\ raises (yspeed m) /\ raises (xyspeed m).
Proof.
  intros (m0 & t0 & samples & m & _ & Hm & Hz & _ & _ & (e & He)).
  destruct (zero_interval_queries _ _ (reachable_inv _ _ _ _ Hm) Hz)
    as (_ & _ & v & Hv & _).
  rewrite Hv in He. discriminate.
Qed.

(** C10, as the code has it.  Two calls with the same timestamp are
    accepted; with [calculation_interval = 0] the second evicts the first,
    [last_calculation_interval] is 0, [xspeed] and [yspeed] raise
    [ZeroDivisionError], and [xyspeed] does not raise: it returns [nan].
    After any accepted run that leaves a zero interval, [xspeed] and
    [yspeed] raise [ZeroDivisionError] and [xyspeed] returns [nan] or
    [+inf]. *)
Theorem zero_interval_division :
  (exists (m0 m : t) (v : R),
      _calculation_interval m0 = 0
      /\ nondecreasing_from None [(0, 0, 0); (0, 0, 0)]
      /\ pushes [(0, 0, 0); (0, 0, 0)] (reset None m0) = (m, Ok tt)
      /\ evictions [(0, 0, 0); (0, 0, 0)] (reset None m0) <> []
      /\ last_calculation_interval m = Ok (Some v) /\ v = 0
      /\ xspeed m = Raise ZeroDivisionError
      /\ yspeed m = Raise ZeroDivisionError
      /\ xyspeed m = Ok (Some VNaN))
  /\ (forall (m0 m : t) (t0 : option R) (samples : list (R * R * R)),
        pushes samples (reset t0 m0) = (m, Ok tt) ->
        last_calculation_interval m = Ok (Some 0) ->
        xspeed m = Raise ZeroDivisionError
        /\ yspeed m = Raise ZeroDivisionError
        /\ exists v, xyspeed m = Ok (Some v) /\ (v = VNaN \/ v = VInf false)).
Proof.
  split.
  - exists (mk 1 0 [] None None). eexists. eexists.
    split; [reflexivity|]. split; [simpl; intuition lra|].
    split; [unfold pushes, bind; step_update; step_update; reflexivity|].
    split; [unfold evictions; step_update; step_update; unfold evicted_by; cbn;
            R_decide; cbn; discriminate|].
    split; [cbn; reflexivity|]. split; [lra|].
    unfold xspeed, yspeed, xyspeed, div_by_interval, last_calculation_interval,
      number_div, py_div, np_div, Py.sum.
    cbn. R_decide. cbn.
    + repeat split; reflexivity.
    + exfalso.
      match goal with H : 0 + sqrt ?a <> 0 |- _ =>
        apply H; replace a with 0 by lra
      end.
      rewrite sqrt_0. lra.
  - intros m0 m t0 samples Hm Hz.
    exact (zero_interval_queries _ _ (reachable_inv _ _ _ _ Hm) Hz).
Qed.

(** ** The window against the calculation interval *)



Lemma update_xyt_config (x_coord y_coord time : R) (self : t) :
  _units_per_mm (fst (update_xyt x_coord y_coord time self)) = _units_per_mm self
  /\ _calculation_interval (fst (update_xyt x_coord y_coord time self))
     = _calculation_interval self.
Proof.
  rewrite update_xyt_unfold.
  destruct (time_rejected self time); [split; reflexivity|].
  destruct (Req_dec_T (_units_per_mm self) 0); cbv zeta; cbn [fst].
  - unfold with_time0. destruct (_time0 self); split; reflexivity.
  - destruct (remove_cases (time - _calculation_interval self) (with_time0 time self))
      as [(_ & Hr & _) | (r1 & p & r2 & _ & _ & _ & _ & Hr)];
      rewrite Hr; unfold with_time0; destruct (_time0 self); split; reflexivity.
Qed.

Lemma pushes_config (samples : list (R * R * R)) : forall self : t,
  _units_per_mm (fst (pushes samples self)) = _units_per_mm self
  /\ _calculation_interval (fst (pushes samples self)) = _calculation_interval self.
Proof.
  induction samples as [|[[xc yc] time] rest IH]; intros self; [split; reflexivity|].
  cbn [pushes]. unfold bind.
  pose proof (update_xyt_config xc yc time self) as (Hu & Hc).
  destruct (update_xyt xc yc time self) as [s1 [[]|e]]; cbn [fst] in *.
  - destruct (IH s1) as (Hu' & Hc'). rewrite Hu', Hc'. now split.
  - now split.
Qed.





(** ** Time in the trial *)

Lemma accepted_is_nondecreasing (samples : list (R * R * R)) : forall self self' : t,
  pushes samples self = (self', Ok tt) ->
  nondecreasing_from (prev_time self) samples.
Proof.
  induction samples as [|[[xc yc] time] rest IH]; intros self self' Hp; [exact I|].
  apply pushes_cons_Ok in Hp. destruct Hp as (s1 & Hup & Hrest).
  pose proof (update_xyt_Ok _ _ _ _ _ Hup) as (Hrej & _).
  pose proof (update_xyt_last _ _ _ _ _ Hup) as Hl.
  split.
  - unfold time_rejected in Hrej. destruct (prev_time self); [|exact I].
    now apply Rltb_false_iff.
  - specialize (IH _ _ Hrest). unfold prev_time in IH. rewrite Hl in IH. exact IH.
Qed.

Lemma nondecreasing_last (samples : list (R * R * R)) : forall a xc yc time,
  nondecreasing_from (Some a) samples ->
  last_opt samples = Some (xc, yc, time) ->
  a <= time.
Proof.
  induction samples as [|[[xa ya] ta] rest IH]; intros a xc yc time Hnd Hl; [discriminate|].
  destruct Hnd as (Ha & Hnd). rewrite last_opt_cons in Hl.
  destruct (last_opt rest) as [[[xb yb] tb]|] eqn:E.
  - injection Hl as -> -> ->. specialize (IH _ _ _ _ Hnd eq_refl). lra.
  - injection Hl as -> -> ->. exact Ha.
Qed.

Lemma pushes_keep_time0 (samples : list (R * R * R)) : forall (self self' : t) (a : R),
  _time0 self = Some a ->
  pushes samples self = (self', Ok tt) ->
  _time0 self' = Some a.
Proof.
  induction samples as [|[[xc yc] time] rest IH]; intros self self' a Ha Hp.
  - simpl in Hp. injection Hp as <-. exact Ha.
  - apply pushes_cons_Ok in Hp. destruct Hp as (s1 & Hup & Hrest).
    pose proof (update_xyt_Ok _ _ _ _ _ Hup) as (_ & _ & _ & _ & Ht & _).
    rewrite Ha in Ht. eapply IH; eassumption.
Qed.

(** X3.  After an accepted run, [time_in_trial] is the time of the last
    sample minus the start time (the argument of [reset], or the time of
    the first sample when [reset] got none), and it is not negative. *)
Theorem time_in_trial_value (m0 m : t) (t0 : option R) (samples : list (R * R * R))
    (xc yc time : R) :
  pushes samples (reset t0 m0) = (m, Ok tt) ->
  last_opt samples = Some (xc, yc, time) ->
  exists a,
    start_time t0 samples = Some a
    /\ time_in_trial m = Some (time - a)
    /\ 0 <= time - a.
Proof.
  intros Hm Hl.
  destruct (pushes_last _ _ _ _ _ _ Hm Hl) as (_ & p & Hp & _ & _ & Hpt).
  pose proof (accepted_is_nondecreasing _ _ _ Hm) as Hnd.
  change (prev_time (reset t0 m0)) with t0 in Hnd.
  unfold time_in_trial. rewrite Hp, Hpt.
  destruct t0 as [a|].
  - exists a. rewrite (pushes_keep_time0 samples (reset (Some a) m0) m a eq_refl Hm).
    repeat split. apply Rge_le, Rge_minus, Rle_ge.
    eapply nondecreasing_last; eassumption.
  - destruct samples as [|[[xa ya] ta] rest]; [discriminate|].
    exists ta. pose proof Hm as Hm'.
    apply pushes_cons_Ok in Hm. destruct Hm as (s1 & Hup & Hrest).
    pose proof (update_xyt_Ok _ _ _ _ _ Hup) as (_ & _ & _ & _ & Ht & _).
    cbn in Ht. rewrite (pushes_keep_time0 _ _ _ ta Ht Hrest).
    repeat split. destruct Hnd as (_ & Hnd).
    rewrite last_opt_cons in Hl. destruct (last_opt rest) as [[[xb yb] tb]|] eqn:E.
    + injection Hl as -> -> ->.
      pose proof (nondecreasing_last _ _ _ _ _ Hnd E). lra.
    + injection Hl as -> -> ->. lra.
Qed.

Lemma time_in_trial_value_witness :
  exists m a,
    pushes [(0, 0, 1); (3, 4, 5)] (reset None (mk 1 2 [] None None)) = (m, Ok tt)
    /\ start_time None [(0, 0, 1); (3, 4, 5)] = Some a
    /\ time_in_trial m = Some (5 - a)
    /\ 0 <= 5 - a.
Proof.
  destruct (pushes_total [(0, 0, 1); (3, 4, 5)] (reset None (mk 1 2 [] None None)))
    as [m Hm]; [simpl; lra | simpl; intuition lra |].
  destruct (time_in_trial_value (mk 1 2 [] None None) m None [(0, 0, 1); (3, 4, 5)] 3 4 5 Hm
              eq_refl) as (a & Ha).
  exists m, a. split; [exact Hm | exact Ha].
Defined.

(** ** Reset *)

(** X4.  [reset] after any run, also one that ended with an exception, gives
    the state that [reset] gives on the monitor the run started from: only
    the two configuration values survive a trial. *)
Theorem reset_forgets_run (m0 : t) (t0 t1 : option R) (samples : list (R * R * R)) :
  reset t1 (fst (pushes samples (reset t0 m0))) = reset t1 m0.
Proof.
  pose proof (pushes_config samples (reset t0 m0)) as (Hu & Hc).
  unfold reset, set_time0, set_pre_recent_point, set_recent_points in *.
  cbn in *. rewrite Hu, Hc. reflexivity.
Qed.

(** ** A repeated timestamp with a zero interval *)

(** With [calculation_interval = 0], a call at the time of the last sample
    evicts the whole window: the last sample becomes the pre-window sample
    and the new sample is alone. *)
Lemma repeated_time_evicts_all (x_coord y_coord time : R) (self : t) (p : point) :
  _units_per_mm self <> 0 ->
  _calculation_interval self = 0 ->
  last_opt (_recent_points self) = Some p ->
  p2 p = time ->
  update_xyt x_coord y_coord time self
  = (set_recent_points [new_point self x_coord y_coord time]
       (set_pre_recent_point (Some p) (with_time0 time self)), Ok tt).
Proof.
  intros Hu Hci Hl Hp. rewrite update_xyt_unfold.
  unfold time_rejected, prev_time. rewrite Hl, Hp, (Rltb_false time time) by lra.
  destruct (Req_dec_T (_units_per_mm self) 0); [contradiction|]. cbv zeta.
  rewrite Hci.
  destruct (remove_cases (time - 0) (with_time0 time self))
    as [(_ & _ & Hall) | (r1 & q & r2 & Hrec & _ & Hall & _ & Hr)];
    rewrite with_time0_recent in *.
  - exfalso. rewrite Forall_forall in Hall.
    specialize (Hall p (last_opt_In _ _ Hl)). lra.
  - rewrite Hr. destruct r2 as [|a r2].
    + rewrite Hrec in Hl. rewrite last_opt_snoc in Hl. injection Hl as ->. reflexivity.
    + exfalso. rewrite Hrec in Hl.
      replace (r1 ++ q :: a :: r2) with ((r1 ++ [q]) ++ a :: r2) in Hl
        by (now rewrite <- app_assoc).
      rewrite last_opt_app in Hl by discriminate.
      rewrite Forall_forall in Hall. specialize (Hall p (last_opt_In _ _ Hl)). lra.
Qed.

Lemma pushes_app (a b : list (R * R * R)) : forall (self s1 : t),
  pushes a self = (s1, Ok tt) -> pushes (a ++ b) self = pushes b s1.
Proof.
  induction a as [|[[xc yc] time] a IH]; intros self s1 Ha.
  - simpl in Ha. injection Ha as <-. reflexivity.
  - apply pushes_cons_Ok in Ha. destruct Ha as (s0 & Hup & Hrest).
    cbn [app pushes]. unfold bind. rewrite Hup. now apply IH.
Qed.

End SpeedMonitorFacts.

(* ================================================================== *)
(** * Properties of [SpeedMonitor] in double precision                *)
(* ================================================================== *)

Module SpeedMonitor64Facts.

Import PyFacts Py64 SpeedMonitor64.
Import PrimFloat.

(** ** The cut and the chain of distances *)

Lemma cut_cases (thr : float) (self : t) :
  _remove_recent_points_older_than thr self = self
  \/ exists r1 p r2,
       _recent_points self = r1 ++ p :: r2
       /\ _remove_recent_points_older_than thr self
          = set_recent_points r2 (set_pre_recent_point (Some p) self).
Proof.
  unfold _remove_recent_points_older_than, SpeedMonitor.np_where.
  destruct (last_opt (SpeedMonitor.where_from 0
                        (map (fun p => (p2 p <=? thr)%float) (_recent_points self))))
    as [k|] eqn:E; [right | left; reflexivity].
  apply SpeedMonitorFacts.where_from_last_Some in E.
  destruct E as (m1 & m2 & Hm & -> & _).
  apply map_eq_app in Hm. destruct Hm as (r1 & r' & Hr & <- & Hm).
  apply map_eq_cons in Hm. destruct Hm as (p & r2 & -> & _ & _).
  exists r1, p, r2. rewrite Hr, Nat.add_0_l, length_map. split; [reflexivity|].
  assert (Hlen : S (List.length r1) = List.length (r1 ++ [p]))
    by (rewrite length_app; simpl; lia).
  assert (Happ : r1 ++ p :: r2 = (r1 ++ [p]) ++ r2) by (now rewrite <- app_assoc).
  f_equal.
  - rewrite Hlen, Happ, skipn_app, skipn_all, Nat.sub_diag. reflexivity.
  - rewrite nth_error_app2 by lia. rewrite Nat.sub_diag. reflexivity.
Qed.

Lemma chained_from_last (prev : option point) (a b : list point) :
  chained prev (a ++ b) <->
  chained prev a
  /\ chained (match last_opt a with Some q => Some q | None => prev end) b.
Proof.
  revert prev. induction a as [|p a IH]; intros prev; simpl.
  - unfold last_opt; simpl. tauto.
  - rewrite IH. rewrite (last_opt_cons p a).
    destruct (last_opt a); tauto.
Qed.

Lemma linked_reset (t0 : option float) (self : t) : linked (reset t0 self).
Proof. split; simpl; auto. Qed.

(** ** One call of [update_xyt], and runs *)

Lemma update_xyt_steps (x_coord y_coord time : float) (self : t) :
  update_xyt x_coord y_coord time self =
  if time_rejected self time then (self, Raise InvalidStateError)
  else if (_units_per_mm self =? 0)%float
       then (with_time0 time self, Raise ZeroDivisionError)
       else
         match distance_to (last_opt (_recent_points self))
                 (x_coord / _units_per_mm self)%float
                 (y_coord / _units_per_mm self)%float with
         | Raise e => (with_time0 time self, Raise e)
         | Ok d =>
             let self2 :=
               _remove_recent_points_older_than
                 (time - _calculation_interval self)%float (with_time0 time self) in
             (set_recent_points
                (_recent_points self2
                 ++ [mkPoint (x_coord / _units_per_mm self)%float
                       (y_coord / _units_per_mm self)%float time d])
                self2, Ok tt)
         end.
Proof.
  unfold update_xyt, _validate_time, time_rejected, bind, get, modify, lift, ret, raise.
  destruct (prev_time self) as [prev|]; [destruct (time <? prev)%float; [reflexivity|]|];
    unfold py_div, with_time0;
    destruct (_time0 self); simpl;
    destruct (_units_per_mm self =? 0)%float; try reflexivity;
    destruct (distance_to _ _ _); reflexivity.
Qed.

Lemma with_time0_window (time : float) (self : t) :
  _recent_points (with_time0 time self) = _recent_points self
  /\ _pre_recent_point (with_time0 time self) = _pre_recent_point self
  /\ _calculation_interval (with_time0 time self) = _calculation_interval self.
Proof. unfold with_time0; destruct (_time0 self); repeat split. Qed.

(** What a call that returns leaves behind. *)
Lemma update_xyt_returns (x_coord y_coord time : float) (self self' : t) :
  update_xyt x_coord y_coord time self = (self', Ok tt) ->
  exists s1 xc yc d,
    _recent_points s1 = _recent_points self
    /\ _pre_recent_point s1 = _pre_recent_point self
    /\ distance_to (last_opt (_recent_points self)) xc yc = Ok d
    /\ self' = set_recent_points
                 (_recent_points
                    (_remove_recent_points_older_than
                       (time - _calculation_interval self)%float s1)
                  ++ [mkPoint xc yc time d])
                 (_remove_recent_points_older_than
                    (time - _calculation_interval self)%float s1).
Proof.
  rewrite update_xyt_steps.
  destruct (time_rejected self time); [discriminate|].
  destruct (_units_per_mm self =? 0)%float; [discriminate|].
  destruct (distance_to _ _ _) as [d|] eqn:Ed; [|discriminate].
  cbv zeta. intros H. injection H as <-.
  destruct (with_time0_window time self) as (Hr & Hp & _).
  exists (with_time0 time self). eauto 10.
Qed.

Lemma update_xyt_linked (x_coord y_coord time : float) (self self' : t) :
  linked self ->
  update_xyt x_coord y_coord time self = (self', Ok tt) ->
  linked self'.
Proof.
  intros (Hc & He) H.
  destruct (update_xyt_returns _ _ _ _ _ H) as (s1 & xc & yc & d & Hr & Hp & Hd & ->).
  destruct (cut_cases (time - _calculation_interval self)%float s1)
    as [-> | (r1 & p & r2 & Hs & ->)].
  - split; [|simpl; intros Hn; destruct (_recent_points s1); discriminate].
    simpl. rewrite Hr, Hp. apply chained_from_last. split; [assumption|].
    simpl. split; [|exact I].
    destruct (last_opt (_recent_points self)) as [q|] eqn:El; [exact Hd|].
    apply last_opt_None in El. rewrite (He El). exact Hd.
  - split; [|simpl; intros Hn; destruct r2; discriminate].
    simpl. rewrite Hr in Hs. rewrite Hs in Hc, Hd.
    apply chained_from_last in Hc. destruct Hc as (_ & _ & Hc).
    apply chained_from_last. split; [assumption|].
    simpl. split; [|exact I].
    rewrite last_opt_app in Hd by discriminate. rewrite last_opt_cons in Hd.
    destruct (last_opt r2); exact Hd.
Qed.

Lemma pushes_cons_returns (x_coord y_coord time : float)
    (rest : list (float * float * float)) (self self' : t) :
  pushes ((x_coord, y_coord, time) :: rest) self = (self', Ok tt) ->
  exists s1, update_xyt x_coord y_coord time self = (s1, Ok tt)
             /\ pushes rest s1 = (self', Ok tt).
Proof.
  simpl. unfold bind.
  destruct (update_xyt x_coord y_coord time self) as [s1 [[]|e]]; [|discriminate].
  intros H. exists s1. split; [reflexivity | exact H].
Qed.

Lemma pushes_linked (samples : list (float * float * float)) : forall self self' : t,
  linked self -> pushes samples self = (self', Ok tt) -> linked self'.
Proof.
  induction samples as [|[[xc yc] time] rest IH]; intros self self' Hl Hp.
  - simpl in Hp. injection Hp as <-. exact Hl.
  - apply pushes_cons_returns in Hp. destruct Hp as (s1 & Hup & Hrest).
    eapply IH; [|exact Hrest]. eapply update_xyt_linked; eassumption.
Qed.

(** ** The exceptions of [update_xyt] *)

Lemma distance_to_raises (last : option point) (x_coord y_coord : float) (e : exn) :
  distance_to last x_coord y_coord = Raise e ->
  e = OverflowError
  /\ exists last_loc,
       last = Some last_loc
       /\ (overflows (x_coord - p0 last_loc) || overflows (y_coord - p1 last_loc))%float
          = true.
Proof.
  destruct last as [last_loc|]; [|discriminate].
  unfold distance_to, square, rbind.
  destruct (overflows (x_coord - p0 last_loc)) eqn:Ex.
  - intros H. injection H as <-. split; [reflexivity|]. exists last_loc.
    rewrite Ex. split; reflexivity.
  - destruct (overflows (y_coord - p1 last_loc)) eqn:Ey; [|discriminate].
    intros H. injection H as <-. split; [reflexivity|]. exists last_loc.
    rewrite Ex, Ey. split; reflexivity.
Qed.

(** X9.  What a call of [update_xyt] does, in double precision.  It returns
    exactly when the time is not smaller than the previous one,
    [units_per_mm] is not zero and the distance to the last sample can be
    computed; the new sample is then the last of the window.  Otherwise it
    raises, and the window ([_recent_points], [_pre_recent_point]) is as it
    was: [InvalidStateError] for a time that is smaller than the previous
    one, with the whole object unchanged; [ZeroDivisionError] for a zero
    [units_per_mm]; [OverflowError] when the difference of a coordinate to
    the last sample is finite and its square is out of range.  The last case
    occurs: on [SpeedMonitor(1, 1)], after the sample (0, 0, 0), the sample
    (2.0**512, 0, 1) raises [OverflowError]. *)
Theorem update_xyt_outcomes :
  (forall (x_coord y_coord time : float) (self : t),
     let xc := (x_coord / _units_per_mm self)%float in
     let yc := (y_coord / _units_per_mm self)%float in
     match update_xyt x_coord y_coord time self with
     | (self', Ok _) =>
         time_rejected self time = false
         /\ (_units_per_mm self =? 0)%float = false
         /\ exists d,
              distance_to (last_opt (_recent_points self)) xc yc = Ok d
              /\ last_opt (_recent_points self') = Some (mkPoint xc yc time d)
     | (self', Raise e) =>
         _recent_points self' = _recent_points self
         /\ _pre_recent_point self' = _pre_recent_point self
         /\ ((e = InvalidStateError /\ self' = self /\ time_rejected self time = true)
             \/ (e = ZeroDivisionError
                 /\ time_rejected self time = false
                 /\ (_units_per_mm self =? 0)%float = true)
             \/ (e = OverflowError
                 /\ time_rejected self time = false
                 /\ (_units_per_mm self =? 0)%float = false
                 /\ exists last_loc,
                      last_opt (_recent_points self) = Some last_loc
                      /\ (overflows (xc - p0 last_loc)
                          || overflows (yc - p1 last_loc))%float = true))
     end)
  /\ (exists m0 m m',
        __init__ 1 1 = Ok m0
        /\ update_xyt 0 0 0 m0 = (m, Ok tt)
        /\ update_xyt 0x1p+512 0 1 m = (m', Raise OverflowError)).
Proof.
  split.
  - intros x_coord y_coord time self xc yc. rewrite update_xyt_steps.
    destruct (with_time0_window time self) as (Hr & Hp & _).
    destruct (time_rejected self time); [auto 10|].
    destruct (_units_per_mm self =? 0)%float; [auto 10|].
    fold xc yc.
    destruct (distance_to (last_opt (_recent_points self)) xc yc) as [d|e] eqn:Ed.
    + cbv zeta. split; [reflexivity|]. split; [reflexivity|].
      exists d. split; [reflexivity|]. simpl. apply last_opt_snoc.
    + apply distance_to_raises in Ed. destruct Ed as (-> & last_loc & Hl & Ho).
      split; [assumption|]. split; [assumption|]. right. right.
      split; [reflexivity|]. split; [reflexivity|]. split; [reflexivity|].
      exists last_loc. split; assumption.
  - eexists. eexists. eexists. split; [vm_compute; reflexivity|].
    split; vm_compute; reflexivity.
Qed.

(** ** The three speeds *)

Lemma sum_from_np (l : list number) : forall a,
  exists d, fold_left number_add l (NpNum a) = NpNum d.
Proof.
  induction l as [|n l IH]; intros a; simpl; [eauto|].
  destruct n; apply IH.
Qed.

Lemma distance_to_np (q : point) (x_coord y_coord : float) (n : number) :
  distance_to (Some q) x_coord y_coord = Ok n -> exists d, n = NpNum d.
Proof.
  unfold distance_to, rbind.
  destruct (square (x_coord - p0 q)); [|discriminate].
  destruct (square (y_coord - p1 q)); [|discriminate].
  intros H. injection H as <-. eauto.
Qed.

(** Over samples chained from a sample [q], the built-in [sum] of the
    distances is a [numpy.float64]. *)
Lemma sum_chained_np (l : list point) (q : point) :
  chained (Some q) l -> l <> [] -> exists d, sum (map p3 l) = NpNum d.
Proof.
  intros Hc Hne. destruct l as [|p l]; [contradiction|].
  destruct Hc as (Hp & _). apply distance_to_np in Hp. destruct Hp as (d & Hp).
  unfold sum. simpl. rewrite Hp. simpl. apply sum_from_np.
Qed.


(** ** The elapsed time of the queries *)

(** X2.  The queries once a sample has been evicted, in double precision.
    After a run of calls that returned, when there is a pre-window sample
    [q], there is a newest sample [p] and [last_calculation_interval] is the
    rounded difference of their times; [xspeed] and [yspeed] raise
    [ZeroDivisionError] when this difference is zero and are the rounded
    quotients otherwise; [xyspeed] returns in both cases.  A positive
    [calculation_interval] does not keep the difference from being zero, nor
    at or above the interval: on [SpeedMonitor(1, 1)] the samples
    (0, 0, 1e17), (1, 0, 1e17) leave an interval of 0 (1e17 - 1 rounds to
    1e17, so the first sample is evicted), the two axis speeds raise and
    [xyspeed] is infinite; on [SpeedMonitor(1, 0.1)] the timestamps 0.1, 0.2,
    0.30000000000000004, 0.4 leave an interval of 0.09999999999999998.  (In
    hexadecimal 1e17 is [0x1.6345785d8ap+56]; 0.1, 0.2, 0.30000000000000004
    and 0.4 are [0x1.999999999999ap-4], [0x1.999999999999ap-3],
    [0x1.3333333333334p-2] and [0x1.999999999999ap-2];
    0.09999999999999998 is [0x1.9999999999998p-4].) *)
Theorem elapsed_time_of_queries :
  (forall (m0 m : t) (t0 : option float) (samples : list (float * float * float))
          (q : point),
     pushes samples (reset t0 m0) = (m, Ok tt) ->
     _pre_recent_point m = Some q ->
     exists p,
       last_opt (_recent_points m) = Some p
       /\ last_calculation_interval m = Ok (Some (p2 p - p2 q)%float)
       /\ (if (p2 p - p2 q =? 0)%float
           then xspeed m = Raise ZeroDivisionError /\ yspeed m = Raise ZeroDivisionError
           else xspeed m = Ok (Some (VPy ((p0 p - p0 q) / (p2 p - p2 q))%float))
                /\ yspeed m = Ok (Some (VPy ((p1 p - p1 q) / (p2 p - p2 q))%float)))
       /\ xyspeed m
          = Ok (Some (VNp (number_val (sum (map p3 (_recent_points m)))
                           / (p2 p - p2 q))%float)))
  /\ (exists m0 m,
        __init__ 1 1 = Ok m0
        /\ pushes [(0, 0, 0x1.6345785d8ap+56); (1, 0, 0x1.6345785d8ap+56)]%float m0
           = (m, Ok tt)
        /\ last_calculation_interval m = Ok (Some 0%float)
        /\ xspeed m = Raise ZeroDivisionError
        /\ yspeed m = Raise ZeroDivisionError
        /\ xyspeed m = Ok (Some (VNp infinity)))
  /\ (exists m0 m,
        __init__ 1 0x1.999999999999ap-4 = Ok m0
        /\ pushes [(0, 0, 0x1.999999999999ap-4); (0, 0, 0x1.999999999999ap-3);
                   (0, 0, 0x1.3333333333334p-2); (0, 0, 0x1.999999999999ap-2)]%float m0
           = (m, Ok tt)
        /\ last_calculation_interval m = Ok (Some 0x1.9999999999998p-4%float)
        /\ (0x1.9999999999998p-4 <? _calculation_interval m)%float = true).
Proof.
  split; [|split].
  - intros m0 m t0 samples q Hm Hq.
    pose proof (pushes_linked _ _ _ (linked_reset t0 m0) Hm) as (Hc & He).
    rewrite Hq in Hc.
    destruct (last_opt (_recent_points m)) as [p|] eqn:Hl.
    + assert (Hne : _recent_points m <> []).
      { intros Hn. rewrite Hn in Hl. discriminate. }
      destruct (sum_chained_np _ _ Hc Hne) as (d & Hs).
      exists p. split; [reflexivity|].
      unfold xspeed, yspeed, xyspeed, div_by_interval, last_calculation_interval.
      rewrite Hq, Hl, Hs. cbn [rbind number_div number_val]. unfold py_div.
      split; [reflexivity|].
      destruct (p2 p - p2 q =? 0)%float; repeat split.
    + apply last_opt_None in Hl. rewrite (He Hl) in Hq. discriminate.
  - eexists. eexists. split; [vm_compute; reflexivity|].
    repeat split; vm_compute; reflexivity.
  - eexists. eexists. split; [vm_compute; reflexivity|].
    repeat split; vm_compute; reflexivity.
Qed.

(** ** Path length against net displacement *)






End SpeedMonitor64Facts.

(* ================================================================== *)
(** * InstantaneousSpeedValidator                                     *)
(* ================================================================== *)

Module InstantaneousSpeedValidatorFacts.

Import PyFacts Validators InstantaneousSpeedValidator.
Local Open Scope string_scope.
Local Open Scope R_scope.

Lemma validator_update_unfold (x_coord y_coord time : R) (self : t) :
  update_xyt x_coord y_coord time self =
  if negb (_enabled self) then (self, Ok Pass)
  else
    match SpeedMonitor.update_xyt x_coord y_coord time (_speed_monitor self) with
    | (m, Ok _) =>
        (set_speed_monitor m self, verdict_after (set_speed_monitor m self))
    | (m, Raise e) => (set_speed_monitor m self, Raise e)
    end.
Proof.
  unfold update_xyt, on_monitor, verdict_after, bind, get, lift, ret, raise, rbind.
  destruct (negb (_enabled self)); [reflexivity|].
  destruct (SpeedMonitor.update_xyt x_coord y_coord time (_speed_monitor self))
    as [m [[]|e]]; [|reflexivity].
  set (v := set_speed_monitor m self).
  destruct (SpeedMonitor.time_in_trial (_speed_monitor v)); [|reflexivity].
  destruct (negb (Rltb (_grace_period v) r)); [reflexivity|].
  destruct (SpeedMonitor.last_calculation_interval (_speed_monitor v)) as [[d|]|e];
    try reflexivity.
  destruct (axis_speed v) as [[s|]|e]; reflexivity.
Qed.

(** The speed of the configured axis is not [None] when the interval is
    not: the comparison of a [None] speed with a bound is never reached. *)
Lemma speed_not_None_when_interval (self : t) (d : R) :
  SpeedMonitor.last_calculation_interval (_speed_monitor self) = Ok (Some d) ->
  axis_speed self <> Ok None.
Proof.
  intros Hd Hs.
  assert (Hpre : SpeedMonitor._pre_recent_point (_speed_monitor self) = None).
  { unfold axis_speed in Hs. destruct (_axis self).
    - now apply SpeedMonitorFacts.xspeed_None_iff.
    - now apply SpeedMonitorFacts.yspeed_None_iff.
    - now apply SpeedMonitorFacts.xyspeed_None_iff. }
  apply SpeedMonitorFacts.interval_None_iff in Hpre. rewrite Hpre in Hd. discriminate.
Qed.

(** ** Construction *)

(** C9.  Constructing the validator without a [movement_monitor] raises,
    whatever the other arguments: [SpeedMonitor(calculation_interval)] binds
    one argument where [SpeedMonitor.__init__] requires two, a [TypeError];
    no validator comes out of the default construction path. *)
Theorem default_construction_raises (axis : ValidationAxis) (enabled : bool)
    (min_speed max_speed grace_period : option R) (calculation_interval : R) :
  SpeedMonitor.new [calculation_interval] = Raise TypeError
  /\ __init__ axis enabled min_speed max_speed grace_period calculation_interval NoMonitor
     = Raise TypeError
  /\ (forall v, __init__ axis enabled min_speed max_speed grace_period
                  calculation_interval NoMonitor <> Ok v).
Proof.
  repeat split. intros v H. discriminate.
Qed.

(** ** The grace period *)

(** C7.  On an enabled validator, for a call whose time is not smaller than
    the previous one: the call returns; if the [time_in_trial] of the window
    after the update is at most the grace period, the verdict is Pass,
    whatever the speed; and a Fail verdict comes only with a [time_in_trial]
    strictly greater than the grace period and an available
    [last_calculation_interval]. *)
Theorem grace_period_respected (self : t) (x_coord y_coord time : R) :
  _enabled self = true ->
  0 < SpeedMonitor._units_per_mm (_speed_monitor self) ->
  (forall prev, SpeedMonitor.prev_time (_speed_monitor self) = Some prev -> prev <= time) ->
  (forall tit,
      SpeedMonitor.time_in_trial (_speed_monitor (fst (update_xyt x_coord y_coord time self)))
      = Some tit ->
      tit <= _grace_period self ->
      snd (update_xyt x_coord y_coord time self) = Ok Pass)
  /\ (forall e,
      snd (update_xyt x_coord y_coord time self) = Ok (Fail e) ->
      exists tit d,
        SpeedMonitor.time_in_trial (_speed_monitor (fst (update_xyt x_coord y_coord time self)))
        = Some tit
        /\ _grace_period self < tit
        /\ SpeedMonitor.last_calculation_interval
             (_speed_monitor (fst (update_xyt x_coord y_coord time self)))
           = Ok (Some d)).
Proof.
  intros Hen Hu Hnd. rewrite validator_update_unfold, Hen. cbn [negb].
  destruct (SpeedMonitorFacts.update_xyt_total x_coord y_coord time (_speed_monitor self))
    as [m Hm].
  - lra.
  - unfold SpeedMonitor.time_rejected.
    destruct (SpeedMonitor.prev_time (_speed_monitor self)) as [prev|]; [|reflexivity].
    apply Rltb_false_iff. now apply Hnd.
  - rewrite Hm. cbn [fst snd]. unfold verdict_after.
    cbn [_speed_monitor _grace_period set_speed_monitor].
    destruct (SpeedMonitor.time_in_trial m) as [tit|]; [|split; intros; discriminate].
    destruct (Rltb (_grace_period self) tit) eqn:Hg; cbn [negb].
    + apply Rltb_true_iff in Hg. split.
      * intros tit' Ht Hle. injection Ht as <-. lra.
      * intros e He.
        destruct (SpeedMonitor.last_calculation_interval m) as [[d|]|ex];
          try discriminate.
        exists tit, d. repeat split. exact Hg.
    + split; [reflexivity | intros; discriminate].
Qed.

(** One call of the validator on known numbers. *)
Ltac step_validator :=
  rewrite validator_update_unfold; cbn [negb _enabled _speed_monitor];
  SpeedMonitorFacts.step_update;
  unfold verdict_after, axis_speed, check_bounds, SpeedMonitor.time_in_trial,
    SpeedMonitor.last_calculation_interval, SpeedMonitor.xspeed, SpeedMonitor.yspeed,
    SpeedMonitor.xyspeed, SpeedMonitor.div_by_interval, number_div, py_div, np_div,
    value_lt, value_gt;
  cbn; repeat (progress (SpeedMonitorFacts.R_decide; cbn)).

Lemma grace_period_respected_witness :
  snd (update_xyt 0 1 2
         (mk true
            (SpeedMonitor.mk 1 0 [SpeedMonitor.mkPoint 0 0 0 (PyNum 0)] None (Some 0))
            y (Some 1) None 2))
  = Ok Pass.
Proof.
  refine (proj1 (grace_period_respected
                   (mk true
                      (SpeedMonitor.mk 1 0 [SpeedMonitor.mkPoint 0 0 0 (PyNum 0)]
                         None (Some 0))
                      y (Some 1) None 2) 0 1 2 _ _ _) (2 - 0) _ _).
  - reflexivity.
  - simpl. lra.
  - intros prev H. cbn in H. injection H as <-. lra.
  - rewrite validator_update_unfold. cbn [negb _enabled _speed_monitor].
    SpeedMonitorFacts.step_update. reflexivity.
  - simpl. lra.
Defined.

(** ** The minimal speed on three samples *)

Lemma updates_cons (x_coord y_coord time : R) (rest : list (R * R * R)) (self : t) :
  updates ((x_coord, y_coord, time) :: rest) self =
  match update_xyt x_coord y_coord time self with
  | (s1, Ok v) =>
      match updates rest s1 with
      | (s2, Ok vs) => (s2, Ok (v :: vs))
      | (s2, Raise e) => (s2, Raise e)
      end
  | (s1, Raise e) => (s1, Raise e)
  end.
Proof.
  cbn [updates]. unfold bind, ret.
  destruct (update_xyt x_coord y_coord time self) as [s1 [v|e]]; [|reflexivity].
  destruct (updates rest s1) as [s2 [vs|e]]; reflexivity.
Qed.

Lemma updates_nil (self : t) : updates [] self = (self, Ok []).
Proof. reflexivity. Qed.

Local Arguments update_xyt : simpl never.
Local Arguments updates : simpl never.
Local Arguments SpeedMonitor.update_xyt : simpl never.

(** The construction of a validator on known numbers. *)
Ltac eval_init :=
  unfold __init__, rbind, speed_bound_ok, SpeedMonitor.calculation_interval_setter,
    modify, raise;
  cbn; SpeedMonitorFacts.R_decide; cbn.

(** The first of the remaining calls of a run, on known numbers. *)
Ltac step_updates := rewrite updates_cons; step_validator.

(** C6.  The scenario cannot start on the validator as its test builds it,
    [InstantaneousSpeedValidator(axis=ValidationAxis.y, min_speed=1)]: the
    constructor raises [TypeError] (it calls
    [SpeedMonitor(calculation_interval)], one argument for two), so there is
    no validator to update.  On a validator that is given a monitor with
    [units_per_mm = 1], with the same axis, [min_speed = 1] and the default
    grace period and calculation interval (both 0), the samples (0,0,0),
    (0,1,1), (0,1.5,2) go as the claim says: the first two updates pass and
    the third fails with [TooSlowInstantaneous] and the argument
    [speed = 0.5]. *)
Theorem min_speed_scenario :
  __init__ y true (Some 1) None (Some 0) 0 NoMonitor = Raise TypeError
  /\ (exists v,
        __init__ y true (Some 1) None (Some 0) 0 (Monitor (SpeedMonitor.mk 1 0 [] None None))
        = Ok v)
  /\ (forall (m : SpeedMonitor.t) (v : t),
        SpeedMonitor._units_per_mm m = 1 ->
        __init__ y true (Some 1) None (Some 0) 0 (Monitor m) = Ok v ->
        exists v' speed,
          updates [(0, 0, 0); (0, 1, 1); (0, 3 / 2, 2)] v
          = (v', Ok [Pass; Pass;
                     Fail (create_experiment_error err_too_slow "You moved too slowly"
                             [(arg_speed, VPy speed)])])
          /\ speed = 1 / 2).
Proof.
  split; [reflexivity|]. split; [eexists; eval_init; reflexivity|].
  intros m v Hu Hinit. destruct m as [u c r p t0]. simpl in Hu. subst u.
  revert Hinit. eval_init. intros Hinit. injection Hinit as <-.
  eexists. eexists. split.
  - step_updates. step_updates. step_updates. rewrite updates_nil. reflexivity.
  - lra.
Qed.

(** ** Reset, disabled validators, and what a Fail carries *)

Lemma reset_monitor_first_update (m : SpeedMonitor.t) (t0 : option R)
    (x_coord y_coord time : R) :
  0 < SpeedMonitor._units_per_mm m ->
  (forall a, t0 = Some a -> a <= time) ->
  exists m',
    SpeedMonitor.update_xyt x_coord y_coord time (SpeedMonitor.reset t0 m) = (m', Ok tt)
    /\ SpeedMonitor._pre_recent_point m' = None.
Proof.
  intros Hu Ht0.
  destruct (SpeedMonitorFacts.update_xyt_total x_coord y_coord time (SpeedMonitor.reset t0 m))
    as [m' Hm'].
  - cbn. lra.
  - unfold SpeedMonitor.time_rejected. cbn. destruct t0 as [a|]; [|reflexivity].
    apply Rltb_false_iff. now apply Ht0.
  - exists m'. split; [exact Hm'|].
    pose proof (SpeedMonitorFacts.update_xyt_Ok _ _ _ _ _ Hm')
      as (_ & _ & _ & _ & _ & _ & _ & Hpre).
    rewrite Hpre. reflexivity.
Qed.

(** X5.  The first update after [reset] never fails and never raises (for a
    time that is not before the reset time): no sample has been evicted yet,
    so there is no speed to compare. *)
Theorem first_update_after_reset_passes (self : t) (t0 : option R)
    (x_coord y_coord time : R) :
  0 < SpeedMonitor._units_per_mm (_speed_monitor self) ->
  (forall a, t0 = Some a -> a <= time) ->
  snd (update_xyt x_coord y_coord time (reset t0 self)) = Ok Pass.
Proof.
  intros Hu Ht0. rewrite validator_update_unfold.
  destruct (negb (_enabled (reset t0 self))); [reflexivity|].
  destruct (reset_monitor_first_update (_speed_monitor self) t0 x_coord y_coord time Hu Ht0)
    as (m' & Hm' & Hpre).
  cbn [reset _speed_monitor set_speed_monitor]. rewrite Hm'. cbn [snd].
  unfold verdict_after. cbn [_speed_monitor set_speed_monitor _grace_period].
  destruct (SpeedMonitor.time_in_trial m') as [tit|]; [|reflexivity].
  destruct (negb (Rltb _ tit)); [reflexivity|].
  unfold SpeedMonitor.last_calculation_interval. rewrite Hpre. reflexivity.
Qed.

Lemma first_update_after_reset_passes_witness :
  snd (update_xyt 0 7 3
         (reset (Some 1)
            (mk true (SpeedMonitor.mk 1 0 [SpeedMonitor.mkPoint 0 0 0 (PyNum 0)] None (Some 0))
               y (Some 100) None 0)))
  = Ok Pass.
Proof.
  apply first_update_after_reset_passes.
  - simpl. lra.
  - intros a H. injection H as <-. lra.
Defined.

Lemma disabled_updates (self : t) (samples : list (R * R * R)) :
  _enabled self = false ->
  updates samples self = (self, Ok (map (fun _ => Pass) samples)).
Proof.
  intros Hen. induction samples as [|[[xc yc] time] rest IH]; [reflexivity|].
  rewrite updates_cons, validator_update_unfold, Hen. cbn [negb]. rewrite IH. reflexivity.
Qed.

(** X6.  A disabled validator is inert: whatever the samples, every update
    returns Pass and the validator, its monitor included, stays as it was. *)
Theorem disabled_validator_inert (self : t) (samples : list (R * R * R)) :
  _enabled self = false ->
  updates samples self = (self, Ok (map (fun _ => Pass) samples)).
Proof. exact (disabled_updates self samples). Qed.

Lemma disabled_validator_inert_witness :
  updates [(0, 0, 5); (0, 9, 1)]
    (mk false (SpeedMonitor.mk 1 0 [] None None) y (Some 100) None 0)
  = (mk false (SpeedMonitor.mk 1 0 [] None None) y (Some 100) None 0, Ok [Pass; Pass]).
Proof.
  exact (disabled_validator_inert
           (mk false (SpeedMonitor.mk 1 0 [] None None) y (Some 100) None 0)
           [(0, 0, 5); (0, 9, 1)] eq_refl).
Defined.

(** X7.  A Fail verdict carries the speed of the configured axis as its only
    argument; its code is [TooSlowInstantaneous] when that speed is below
    [min_speed], and [TooFast] when it is not below [min_speed] and is above
    [max_speed].  A validator without bounds never fails. *)
Theorem fail_verdict_characterised (self : t) (x_coord y_coord time : R)
    (e : ExperimentError) :
  snd (update_xyt x_coord y_coord time self) = Ok (Fail e) ->
  exists speed,
    axis_speed (fst (update_xyt x_coord y_coord time self)) = Ok (Some speed)
    /\ err_args e = [(arg_speed, speed)]
    /\ ((err_code e = err_too_slow
         /\ exists m, _min_speed self = Some m /\ value_lt speed m = true)
        \/ (err_code e = err_too_fast
            /\ (forall m, _min_speed self = Some m -> value_lt speed m = false)
            /\ exists m, _max_speed self = Some m /\ value_gt speed m = true)).
Proof.
  rewrite validator_update_unfold.
  destruct (negb (_enabled self)); [discriminate|].
  destruct (SpeedMonitor.update_xyt x_coord y_coord time (_speed_monitor self))
    as [m [[]|ex]]; [|discriminate].
  cbn [fst snd]. unfold verdict_after.
  destruct (SpeedMonitor.time_in_trial _) as [tit|]; [|discriminate].
  destruct (negb (Rltb _ tit)); [discriminate|].
  destruct (SpeedMonitor.last_calculation_interval _) as [[d|]|ex]; try discriminate.
  cbn [rbind]. destruct (axis_speed (set_speed_monitor m self)) as [[speed|]|ex];
    try discriminate.
  cbn [rbind]. unfold check_bounds. cbn [_min_speed _max_speed set_speed_monitor].
  intros H. exists speed. split; [reflexivity|].
  destruct (_min_speed self) as [lo|].
  - destruct (value_lt speed lo) eqn:Elo.
    + injection H as <-. split; [reflexivity|]. left. split; [reflexivity|]. eauto.
    + destruct (_max_speed self) as [hi|]; [|discriminate].
      destruct (value_gt speed hi) eqn:Ehi; [|discriminate].
      injection H as <-. split; [reflexivity|]. right. split; [reflexivity|].
      split; [intros m' Hm'; now injection Hm' as <- | eauto].
  - destruct (_max_speed self) as [hi|]; [|discriminate].
    destruct (value_gt speed hi) eqn:Ehi; [|discriminate].
    injection H as <-. split; [reflexivity|]. right. split; [reflexivity|].
    split; [intros m' Hm'; discriminate | eauto].
Qed.

Lemma fail_verdict_characterised_witness :
  exists e speed,
    snd (update_xyt 0 (1 / 2) 1
           (mk true (SpeedMonitor.mk 1 0 [SpeedMonitor.mkPoint 0 0 0 (PyNum 0)] None (Some 0))
              y (Some 1) None 0)) = Ok (Fail e)
    /\ err_args e = [(arg_speed, speed)].
Proof.
  assert (H : exists e,
             snd (update_xyt 0 (1 / 2) 1
                    (mk true
                       (SpeedMonitor.mk 1 0 [SpeedMonitor.mkPoint 0 0 0 (PyNum 0)] None (Some 0))
                       y (Some 1) None 0)) = Ok (Fail e)).
  { eexists. step_validator. reflexivity. }
  destruct H as [e He].
  destruct (fail_verdict_characterised _ _ _ _ _ He) as (speed & _ & Ha & _).
  exists e, speed. split; assumption.
Defined.

(** ** Timestamps that repeat *)

(** X8.  With [calculation_interval = 0] (the default) and the axis x or y,
    an update that repeats the time of the previous sample, once the grace
    period is over, raises [ZeroDivisionError]: the previous sample is
    evicted at an elapsed time of 0 and the speed is a division by it. *)
Theorem repeated_timestamp_raises (self : t) (x_coord y_coord time a : R)
    (p : SpeedMonitor.point) :
  _enabled self = true ->
  _axis self <> xy ->
  0 < SpeedMonitor._units_per_mm (_speed_monitor self) ->
  SpeedMonitor._calculation_interval (_speed_monitor self) = 0 ->
  last_opt (SpeedMonitor._recent_points (_speed_monitor self)) = Some p ->
  SpeedMonitor.p2 p = time ->
  SpeedMonitor._time0 (_speed_monitor self) = Some a ->
  _grace_period self < time - a ->
  snd (update_xyt x_coord y_coord time self) = Raise ZeroDivisionError.
Proof.
  intros Hen Hax Hu Hci Hl Hp Ht0 Hg.
  rewrite validator_update_unfold, Hen. cbn [negb].
  rewrite (SpeedMonitorFacts.repeated_time_evicts_all x_coord y_coord time _ p)
    by (try assumption; lra).
  cbn [snd]. unfold verdict_after, SpeedMonitor.time_in_trial, SpeedMonitor.with_time0.
  cbn [_speed_monitor set_speed_monitor _grace_period]. rewrite Ht0.
  cbn [SpeedMonitor._time0 SpeedMonitor.set_recent_points SpeedMonitor.set_pre_recent_point
       SpeedMonitor._recent_points SpeedMonitor._units_per_mm
       SpeedMonitor._calculation_interval SpeedMonitor._pre_recent_point].
  change (last_opt [SpeedMonitor.new_point (_speed_monitor self) x_coord y_coord time])
    with (Some (SpeedMonitor.new_point (_speed_monitor self) x_coord y_coord time)).
  cbn [SpeedMonitor.p2 SpeedMonitor.new_point].
  rewrite ?Ht0. rewrite (SpeedMonitorFacts.Rltb_true _ _ Hg). cbn [negb].
  unfold SpeedMonitor.last_calculation_interval, axis_speed, SpeedMonitor.xspeed,
    SpeedMonitor.yspeed, SpeedMonitor.div_by_interval,
    SpeedMonitor.last_calculation_interval.
  cbn [_speed_monitor set_speed_monitor _axis SpeedMonitor._pre_recent_point
       SpeedMonitor._recent_points SpeedMonitor.set_recent_points
       SpeedMonitor.set_pre_recent_point].
  change (last_opt [SpeedMonitor.new_point (_speed_monitor self) x_coord y_coord time])
    with (Some (SpeedMonitor.new_point (_speed_monitor self) x_coord y_coord time)).
  cbn [rbind SpeedMonitor.p2 SpeedMonitor.new_point number_div].
  rewrite Hp. unfold py_div.
  destruct (Req_dec_T (time - time) 0) as [_|Hn]; [|exfalso; lra].
  destruct (_axis self); [reflexivity | reflexivity | contradiction].
Qed.

Lemma repeated_timestamp_raises_witness :
  snd (update_xyt 5 6 1
         (mk true (SpeedMonitor.mk 1 0 [SpeedMonitor.mkPoint 0 0 1 (PyNum 0)] None (Some 0))
            y (Some 1) None 0))
  = Raise ZeroDivisionError.
Proof.
  apply (repeated_timestamp_raises _ 5 6 1 0 (SpeedMonitor.mkPoint 0 0 1 (PyNum 0)));
    try reflexivity; try discriminate; simpl; lra.
Defined.

End InstantaneousSpeedValidatorFacts.

(* ================================================================== *)
(** * MoveByGradientValidator                                         *)
(* ================================================================== *)

Module MoveByGradientValidatorFacts.

Import Validators MoveByGradientValidator.
Local Open Scope string_scope.
Local Open Scope Z_scope.

Lemma list_min_max_None (l : list Z) : list_min l = None <-> list_max l = None.
Proof. destruct l; simpl; split; intros; congruence. Qed.

Lemma single_color_setter_range (value : option string) (self self' : t) :
  single_color_setter value self = (self', Ok tt) ->
  exists r, range_of self' r.
Proof.
  unfold single_color_setter, Py.modify, Py.raise.
  destruct value as [key|].
  - destruct (_colormaps key) as [f|] eqn:E; [|discriminate].
    intros H. injection H as <-. unfold _calc_min_max_colors. cbn.
    match goal with |- context [list_min ?l] => destruct l as [|c l'] end.
    + exists None. now constructor.
    + eexists. now eapply range_known.
  - intros H. injection H as <-. unfold _calc_min_max_colors. cbn.
    match goal with |- context [list_min ?l] => destruct l as [|c l'] end.
    + exists None. now constructor.
    + eexists. now eapply range_known.
Qed.

Lemma is_wraparound_known (self : t) (range : option Z) (rgb_delta : Z) :
  range_of self range ->
  is_wraparound rgb_delta self =
  (self, Ok (_cyclic self && match range with
                             | Some r => wraps r rgb_delta
                             | None => false
                             end)).
Proof.
  intros Hr. unfold is_wraparound, Py.bind, Py.get, Py.ret, getattr.
  destruct (_cyclic self); [|reflexivity]. cbn [negb andb].
  destruct Hr as [Hmin Hmax | mn mx Hmin Hmax]; rewrite Hmin; cbn; [reflexivity|].
  rewrite Hmax. reflexivity.
Qed.

(** What [update_xyt] does on an enabled validator whose colour range has
    been computed: the case analysis of the validation step. *)
Lemma update_xyt_with_range (self : t) (range : option Z) (x_coord y_coord : Z) :
  _enabled self = true ->
  range_of self range ->
  update_xyt x_coord y_coord self =
  match LocationColorMap.get_color_at (_lcm self) x_coord y_coord with
  | None => (set_last_color None self, Ok Pass)
  | Some color =>
      match _last_color self with
      | None => (set_last_color (Some color) self, Ok Pass)
      | Some last_color =>
          let rgb_delta := rgb_delta_of self color last_color in
          if 0 <=? rgb_delta then (set_last_color (Some color) self, Ok Pass)
          else if Qle_bool (- _max_valid_back_movement self) (inject_Z rgb_delta)
          then (self, Ok Pass)
          else if _cyclic self && match range with
                                  | Some r => wraps r rgb_delta
                                  | None => false
                                  end
          then (set_last_color (Some color) self, Ok Pass)
          else (self, Ok gradient_violation)
      end
  end.
Proof.
  intros Hen Hr. unfold update_xyt, Py.bind, Py.get, Py.modify, Py.ret.
  rewrite Hen. cbn [negb].
  destruct (LocationColorMap.get_color_at (_lcm self) x_coord y_coord) as [color|];
    [|reflexivity].
  destruct (_last_color self) as [last_color|]; [|reflexivity].
  cbv zeta. destruct (0 <=? rgb_delta_of self color last_color); [reflexivity|].
  destruct (Qle_bool (- _max_valid_back_movement self)
              (inject_Z (rgb_delta_of self color last_color))); [reflexivity|].
  rewrite (is_wraparound_known _ _ _ Hr).
  destruct (_cyclic self && _); reflexivity.
Qed.

(** With the colours 0..255, a cyclic gradient and [cyclic_ratio = 5]: a
    delta of -250 is taken for a wraparound, a delta of -50 is not. *)
Lemma wraps_255 : wraps 255 (-250) = true /\ wraps 255 (-50) = false.
Proof. split; reflexivity. Qed.

(** ** The validator as the constructor leaves it *)

Lemma init_leaves_range_missing (lcm : LocationColorMap.t) (rgb_should_ascend : bool)
    (max_valid_back_movement : Q) (cyclic enabled : bool) (self : t) :
  __init__ lcm rgb_should_ascend max_valid_back_movement cyclic enabled = Ok self ->
  _min_available_color self = Missing
  /\ _cyclic self = cyclic /\ _enabled self = enabled /\ _last_color self = None.
Proof.
  unfold __init__. destruct (negb (Qle_bool 0 max_valid_back_movement)); [discriminate|].
  intros H. injection H as <-. repeat split.
Qed.

(** A step that reaches the wraparound test of a cyclic validator whose
    [single_color] was never assigned raises [AttributeError]. *)
Lemma update_xyt_range_missing (self : t) (x_coord y_coord color last_color : Z) :
  _enabled self = true ->
  _cyclic self = true ->
  _min_available_color self = Missing ->
  LocationColorMap.get_color_at (_lcm self) x_coord y_coord = Some color ->
  _last_color self = Some last_color ->
  rgb_delta_of self color last_color < 0 ->
  (inject_Z (rgb_delta_of self color last_color) < - _max_valid_back_movement self)%Q ->
  update_xyt x_coord y_coord self = (self, Py.Raise Py.AttributeError).
Proof.
  intros Hen Hc Hm Hcol Hlast Hneg Hback.
  unfold update_xyt, Py.bind, Py.get, Py.modify, Py.ret.
  rewrite Hen, Hcol, Hlast. cbn [negb]. cbv zeta.
  destruct (0 <=? rgb_delta_of self color last_color) eqn:E;
    [apply Z.leb_le in E; lia|].
  destruct (Qle_bool (- _max_valid_back_movement self)
              (inject_Z (rgb_delta_of self color last_color))) eqn:E2.
  - apply Qle_bool_iff in E2. exfalso. eapply Qlt_not_le; eassumption.
  - unfold is_wraparound, Py.bind, Py.get, getattr, Py.raise.
    rewrite Hc, Hm. reflexivity.
Qed.

(** C1, on the validator as constructed.  An ascending, cyclic validator
    built by the constructor, with no assignment of [single_color]: the
    first update (colour 100) passes, and the second (colour 40, a delta of
    -60 beyond [max_valid_back_movement = 0]) neither passes nor fails with
    [GradientViolation]: it raises [AttributeError], because
    [_min_available_color] does not exist.  After [single_color = "B"] the
    same two updates give Pass and then [GradientViolation]. *)
Theorem cyclic_validator_without_single_color :
  exists v0 v1 v2,
    __init__ two_tone true 0 true true = Ok v0
    /\ update_xyt 0 0 v0 = (v1, Py.Ok Pass)
    /\ update_xyt 1 0 v1 = (v1, Py.Raise Py.AttributeError)
    /\ single_color_setter (Some "B") v0 = (v2, Py.Ok tt)
    /\ range_of v2 (Some 255)
    /\ snd (update_xyt 1 0 (fst (update_xyt 0 0 v2))) = Py.Ok gradient_violation.
Proof.
  eexists. eexists. eexists.
  split; [reflexivity|]. split; [reflexivity|]. split; [reflexivity|].
  split; [reflexivity|]. split; [|reflexivity].
  apply (range_known _ 0 255); reflexivity.
Qed.

(** With a colour range of 0..255 and a cyclic validator whose range has
    been computed: a delta of -250 does not fail; a delta of -50 fails
    whenever 50 exceeds [max_valid_back_movement]. *)
Lemma cyclic_wrap_255 (self : t) (x_coord y_coord color last_color : Z) :
  _enabled self = true ->
  _cyclic self = true ->
  range_of self (Some 255) ->
  LocationColorMap.get_color_at (_lcm self) x_coord y_coord = Some color ->
  _last_color self = Some last_color ->
  (rgb_delta_of self color last_color = -250 ->
   snd (update_xyt x_coord y_coord self) = Py.Ok Pass)
  /\ (rgb_delta_of self color last_color = -50 ->
      (_max_valid_back_movement self < 50)%Q ->
      snd (update_xyt x_coord y_coord self) = Py.Ok gradient_violation).
Proof.
  intros Hen Hc Hr Hcol Hlast.
  rewrite (update_xyt_with_range _ _ _ _ Hen Hr), Hcol, Hlast, Hc. cbv zeta.
  split.
  - intros ->. cbn [Z.leb Z.compare andb]. change (wraps 255 (-250)) with true.
    destruct (Qle_bool _ _); reflexivity.
  - intros -> Hm. cbn [Z.leb Z.compare andb]. change (wraps 255 (-50)) with false.
    destruct (Qle_bool (- _max_valid_back_movement self) (inject_Z (-50))) eqn:E;
      [|reflexivity].
    apply Qle_bool_iff in E. exfalso.
    assert (H50 : (inject_Z (-50) == - (50))%Q) by reflexivity.
    rewrite H50 in E. apply Qopp_le_compat in E. rewrite !Qopp_involutive in E.
    eapply Qlt_not_le; eassumption.
Qed.

(** ** Validators that are not cyclic *)

Lemma not_cyclic_step (self : t) (x_coord y_coord : Z) :
  _enabled self = true ->
  _cyclic self = false ->
  update_xyt x_coord y_coord self =
  match LocationColorMap.get_color_at (_lcm self) x_coord y_coord with
  | None => (set_last_color None self, Py.Ok Pass)
  | Some color =>
      match _last_color self with
      | None => (set_last_color (Some color) self, Py.Ok Pass)
      | Some last_color =>
          if 0 <=? rgb_delta_of self color last_color
          then (set_last_color (Some color) self, Py.Ok Pass)
          else if Qle_bool (- _max_valid_back_movement self)
                    (inject_Z (rgb_delta_of self color last_color))
          then (self, Py.Ok Pass)
          else (self, Py.Ok gradient_violation)
      end
  end.
Proof.
  intros Hen Hc. unfold update_xyt, Py.bind, Py.get, Py.modify, Py.ret.
  rewrite Hen. cbn [negb].
  destruct (LocationColorMap.get_color_at (_lcm self) x_coord y_coord) as [color|];
    [|reflexivity].
  destruct (_last_color self) as [last_color|]; [|reflexivity].
  cbv zeta. destruct (0 <=? rgb_delta_of self color last_color); [reflexivity|].
  destruct (Qle_bool _ _); [reflexivity|].
  unfold is_wraparound, Py.bind, Py.get, Py.ret. rewrite Hc. reflexivity.
Qed.

Lemma not_cyclic_step_total (self : t) (x_coord y_coord : Z) :
  _cyclic self = false ->
  exists c v, update_xyt x_coord y_coord self = (set_last_color c self, Py.Ok v).
Proof.
  intros Hc. destruct (_enabled self) eqn:Hen.
  - rewrite (not_cyclic_step _ _ _ Hen Hc).
    destruct (LocationColorMap.get_color_at (_lcm self) x_coord y_coord) as [color|];
      [|eexists; eexists; reflexivity].
    destruct (_last_color self) as [last_color|] eqn:Hl; [|eexists; eexists; reflexivity].
    destruct (0 <=? _); [eexists; eexists; reflexivity|].
    destruct (Qle_bool _ _).
    + exists (_last_color self), Pass. destruct self; reflexivity.
    + exists (_last_color self), gradient_violation. destruct self; reflexivity.
  - exists (_last_color self), Pass.
    unfold update_xyt, Py.bind, Py.get, Py.ret. rewrite Hen. destruct self; reflexivity.
Qed.

Lemma gradient_updates_cons (x_coord y_coord : Z) (rest : list (Z * Z)) (self : t) :
  updates ((x_coord, y_coord) :: rest) self =
  match update_xyt x_coord y_coord self with
  | (s1, Py.Ok v) =>
      match updates rest s1 with
      | (s2, Py.Ok vs) => (s2, Py.Ok (v :: vs))
      | (s2, Py.Raise e) => (s2, Py.Raise e)
      end
  | (s1, Py.Raise e) => (s1, Py.Raise e)
  end.
Proof.
  cbn [updates]. unfold Py.bind, Py.ret.
  destruct (update_xyt x_coord y_coord self) as [s1 [v|e]]; [|reflexivity].
  destruct (updates rest s1) as [s2 [vs|e]]; reflexivity.
Qed.

(** X10.  A validator that is not cyclic never reads the colour range, so
    it never raises, also as the constructor leaves it (the colour range
    missing): a run over any positions returns one verdict for each
    position and changes nothing of the validator but the remembered
    colour. *)
Theorem not_cyclic_updates_total (positions : list (Z * Z)) (self : t) :
  _cyclic self = false ->
  exists c verdicts,
    updates positions self = (set_last_color c self, Py.Ok verdicts)
    /\ List.length verdicts = List.length positions.
Proof.
  revert self. induction positions as [|[xc yc] rest IH]; intros self Hc.
  - exists (_last_color self), []. split; [destruct self; reflexivity | reflexivity].
  - destruct (not_cyclic_step_total self xc yc Hc) as (c1 & v & Hstep).
    destruct (IH (set_last_color c1 self) Hc) as (c2 & vs & Hrun & Hlen).
    rewrite gradient_updates_cons, Hstep, Hrun.
    exists c2, (v :: vs). split; [reflexivity|]. cbn [List.length]. now rewrite Hlen.
Qed.

Lemma not_cyclic_updates_total_witness :
  exists v0 c verdicts,
    __init__ two_tone true 0 false true = Py.Ok v0
    /\ updates [(0, 0); (1, 0); (0, 1)] v0 = (set_last_color c v0, Py.Ok verdicts)
    /\ List.length verdicts = 3%nat.
Proof.
  eexists.
  destruct (not_cyclic_updates_total [(0, 0); (1, 0); (0, 1)]
              (reset (mk true (LocationColorMap.set_colormap LocationColorMap.CmRGB two_tone)
                        true 0 false (Bound None) Missing Missing Missing None))
              eq_refl)
    as (c & verdicts & Hrun & Hlen).
  exists c, verdicts. split; [reflexivity|]. split; [exact Hrun | exact Hlen].
Defined.

(** ** The remembered colour *)

Lemma rgb_delta_direction (self : t) (color last_color : Z) :
  rgb_delta_of self color last_color = expected_direction self * (color - last_color).
Proof. unfold rgb_delta_of, expected_direction. destruct (_rgb_should_ascend self); lia. Qed.

Lemma set_last_color_same (self : t) : set_last_color (_last_color self) self = self.
Proof. destruct self; reflexivity. Qed.

(** One step of a validator that is not cyclic, from a remembered colour:
    the remembered colour does not move against the expected direction, and
    a sample that passes is not further back than the tolerance. *)
Lemma step_keeps_direction (self : t) (x_coord y_coord color base last_color : Z) :
  _enabled self = true ->
  _cyclic self = false ->
  (0 <= _max_valid_back_movement self)%Q ->
  LocationColorMap.get_color_at (_lcm self) x_coord y_coord = Some color ->
  _last_color self = Some last_color ->
  0 <= expected_direction self * (last_color - base) ->
  exists last' v,
    update_xyt x_coord y_coord self = (set_last_color (Some last') self, Py.Ok v)
    /\ 0 <= expected_direction self * (last' - base)
    /\ (v = Pass ->
        (- _max_valid_back_movement self
         <= inject_Z (expected_direction self * (color - base)))%Q).
Proof.
  intros Hen Hc Hm Hcol Hlast Hbase.
  rewrite (not_cyclic_step _ _ _ Hen Hc), Hcol, Hlast.
  pose proof (rgb_delta_direction self color last_color) as Hd.
  assert (Hq : forall a b : Z, a <= b -> (inject_Z a <= inject_Z b)%Q).
  { intros a b Hab. now rewrite <- Zle_Qle. }
  assert (Hneg : (- _max_valid_back_movement self <= inject_Z 0)%Q).
  { apply Qopp_le_compat in Hm. exact Hm. }
  destruct (0 <=? rgb_delta_of self color last_color) eqn:E1.
  - apply Z.leb_le in E1. exists color, Pass.
    assert (Hc0 : 0 <= expected_direction self * (color - base)) by nia.
    repeat split; auto.
    intros _. eapply Qle_trans; [exact Hneg | apply (Hq 0 _ Hc0)].
  - destruct (Qle_bool (- _max_valid_back_movement self)
                (inject_Z (rgb_delta_of self color last_color))) eqn:E2.
    + exists last_color, Pass. rewrite <- Hlast, set_last_color_same.
      repeat split; auto. intros _. apply Qle_bool_iff in E2.
      eapply Qle_trans; [exact E2|]. apply Hq. nia.
    + exists last_color, gradient_violation. rewrite <- Hlast, set_last_color_same.
      repeat split; auto. discriminate.
Qed.

Lemma run_keeps_direction (base : Z) (positions : list (Z * Z)) :
  forall (self : t) (last_color : Z),
    _enabled self = true ->
    _cyclic self = false ->
    (0 <= _max_valid_back_movement self)%Q ->
    _last_color self = Some last_color ->
    0 <= expected_direction self * (last_color - base) ->
    Forall (fun pos => LocationColorMap.get_color_at (_lcm self) (fst pos) (snd pos) <> None)
      positions ->
    exists last' verdicts,
      updates positions self = (set_last_color (Some last') self, Py.Ok verdicts)
      /\ 0 <= expected_direction self * (last' - base)
      /\ Forall2
           (fun pos v =>
              v = Pass ->
              exists color,
                LocationColorMap.get_color_at (_lcm self) (fst pos) (snd pos) = Some color
                /\ (- _max_valid_back_movement self
                    <= inject_Z (expected_direction self * (color - base)))%Q)
           positions verdicts.
Proof.
  induction positions as [|[xc yc] rest IH]; intros self last_color Hen Hc Hm Hlast Hbase Hav.
  - exists last_color, []. rewrite <- Hlast, set_last_color_same.
    split; [reflexivity|]. split; [exact Hbase | constructor].
  - inversion Hav as [|pos l Hcol Hrest]; subst. cbn [fst snd] in Hcol.
    destruct (LocationColorMap.get_color_at (_lcm self) xc yc) as [color|] eqn:Ecol;
      [|contradiction].
    destruct (step_keeps_direction self xc yc color base last_color Hen Hc Hm Ecol Hlast Hbase)
      as (l1 & v & Hstep & Hb1 & Hpass).
    rewrite gradient_updates_cons, Hstep.
    destruct (IH (set_last_color (Some l1) self) l1) as (l2 & vs & Hrun & Hb2 & Hall);
      try assumption; try reflexivity.
    rewrite Hrun. exists l2, (v :: vs). split; [reflexivity|]. split; [exact Hb2|].
    constructor; [|exact Hall].
    intros Hv. exists color. cbn [fst snd]. split; [exact Ecol | now apply Hpass].
Qed.

(** X11.  On a validator that is not cyclic, backward steps within the
    tolerance do not add up.  In a run that starts from a remembered colour
    [c0] over positions where a colour is available, no update raises, the
    remembered colour never ends behind [c0] in the expected direction, and
    every sample that passes is at most [max_valid_back_movement] behind
    [c0]. *)
Theorem tolerance_does_not_accumulate (self : t) (c0 : Z) (positions : list (Z * Z)) :
  _enabled self = true ->
  _cyclic self = false ->
  (0 <= _max_valid_back_movement self)%Q ->
  _last_color self = Some c0 ->
  Forall (fun pos => LocationColorMap.get_color_at (_lcm self) (fst pos) (snd pos) <> None)
    positions ->
  exists last' verdicts,
    updates positions self = (set_last_color (Some last') self, Py.Ok verdicts)
    /\ 0 <= expected_direction self * (last' - c0)
    /\ Forall2
         (fun pos v =>
            v = Pass ->
            exists color,
              LocationColorMap.get_color_at (_lcm self) (fst pos) (snd pos) = Some color
              /\ (- _max_valid_back_movement self
                  <= inject_Z (expected_direction self * (color - c0)))%Q)
         positions verdicts.
Proof.
  intros Hen Hc Hm Hlast Hav.
  apply (run_keeps_direction c0 positions self c0); try assumption. lia.
Qed.

Lemma tolerance_does_not_accumulate_witness :
  exists last' verdicts,
    updates [(1, 0); (1, 0)]
      (mk true two_tone true 70 false (Bound None) Missing Missing Missing (Some 100))
    = (set_last_color (Some last')
         (mk true two_tone true 70 false (Bound None) Missing Missing Missing (Some 100)),
       Py.Ok verdicts)
    /\ 0 <= 1 * (last' - 100).
Proof.
  destruct (tolerance_does_not_accumulate
              (mk true two_tone true 70 false (Bound None) Missing Missing Missing (Some 100))
              100 [(1, 0); (1, 0)])
    as (last' & verdicts & Hrun & Hb & _); try reflexivity.
  - discriminate.
  - repeat constructor; discriminate.
  - exists last', verdicts. split; assumption.
Defined.

(** ** The colour range computed by the setter of [single_color] *)

Lemma fold_min_spec (l : list Z) : forall c,
  In (fold_left Z.min l c) (c :: l)
  /\ forall x, In x (c :: l) -> fold_left Z.min l c <= x.
Proof.
  induction l as [|a l IH]; intros c; cbn [fold_left].
  - split; [now left|]. intros x [<-|[]]. lia.
  - destruct (IH (Z.min c a)) as (Hin & Hle). split.
    + destruct Hin as [Hin|Hin]; [|right; right; exact Hin].
      rewrite <- Hin. destruct (Z.min_spec c a) as [[_ ->]|[_ ->]];
        [left | right; left]; reflexivity.
    + intros x [<-|[<-|Hx]].
      * pose proof (Hle (Z.min c a) (or_introl eq_refl)). lia.
      * pose proof (Hle (Z.min c a) (or_introl eq_refl)). lia.
      * apply Hle. right. exact Hx.
Qed.

Lemma fold_max_spec (l : list Z) : forall c,
  In (fold_left Z.max l c) (c :: l)
  /\ forall x, In x (c :: l) -> x <= fold_left Z.max l c.
Proof.
  induction l as [|a l IH]; intros c; cbn [fold_left].
  - split; [now left|]. intros x [<-|[]]. lia.
  - destruct (IH (Z.max c a)) as (Hin & Hle). split.
    + destruct Hin as [Hin|Hin]; [|right; right; exact Hin].
      rewrite <- Hin. destruct (Z.max_spec c a) as [[_ ->]|[_ ->]];
        [right; left | left]; reflexivity.
    + intros x [<-|[<-|Hx]].
      * pose proof (Hle (Z.max c a) (or_introl eq_refl)). lia.
      * pose proof (Hle (Z.max c a) (or_introl eq_refl)). lia.
      * apply Hle. right. exact Hx.
Qed.

Lemma calc_min_max_colors_mapping (value : option string) (self : t) :
  _calc_min_max_colors value self =
  let colors :=
    not_None (map (mapping_func value) (LocationColorMap.available_colors (_lcm self))) in
  mk (_enabled self) (_lcm self) (_rgb_should_ascend self)
     (_max_valid_back_movement self) (_cyclic self) (color_filter self)
     (_single_color self) (Bound (list_min colors)) (Bound (list_max colors))
     (_last_color self).
Proof. reflexivity. Qed.

Lemma single_color_setter_ok (value : option string) (self self' : t) :
  single_color_setter value self = (self', Py.Ok tt) ->
  let colors :=
    not_None (map (mapping_func value) (LocationColorMap.available_colors (_lcm self))) in
  _single_color self' = Bound value
  /\ _min_available_color self' = Bound (list_min colors)
  /\ _max_available_color self' = Bound (list_max colors)
  /\ _last_color self' = _last_color self
  /\ _enabled self' = _enabled self
  /\ _cyclic self' = _cyclic self.
Proof.
  unfold single_color_setter, Py.modify, Py.raise.
  destruct value as [key|].
  - destruct (_colormaps key) as [f|] eqn:E; [|discriminate].
    intros H. injection H as <-. rewrite calc_min_max_colors_mapping. cbn.
    repeat split.
  - intros H. injection H as <-. rewrite calc_min_max_colors_mapping. cbn.
    repeat split.
Qed.

(** X12.  What an assignment of [single_color] that is accepted leaves
    behind: the value is stored, and the colour range is that of the
    available colours under the mapping of the value, those the mapping
    rejects left out.  When none is left the range is unknown (both bounds
    [None]); otherwise both bounds are mapped colours of the image and every
    mapped colour lies between them. *)
Theorem single_color_range_bounds (value : option string) (self self' : t) :
  single_color_setter value self = (self', Py.Ok tt) ->
  let colors :=
    not_None (map (mapping_func value) (LocationColorMap.available_colors (_lcm self))) in
  _single_color self' = Bound value
  /\ (colors = [] -> range_of self' None)
  /\ (colors <> [] ->
      exists min_color max_color,
        _min_available_color self' = Bound (Some min_color)
        /\ _max_available_color self' = Bound (Some max_color)
        /\ In min_color colors /\ In max_color colors
        /\ forall c, In c colors -> min_color <= c <= max_color).
Proof.
  intros H colors.
  destruct (single_color_setter_ok _ _ _ H) as (Hs & Hmin & Hmax & _).
  fold colors in Hmin, Hmax. split; [exact Hs|]. split.
  - intros E. rewrite E in Hmin, Hmax. now constructor.
  - intros Hne. destruct colors as [|c l]; [congruence|].
    cbn [list_min list_max] in Hmin, Hmax.
    destruct (fold_min_spec l c) as (Hin1 & Hle1).
    destruct (fold_max_spec l c) as (Hin2 & Hle2).
    exists (fold_left Z.min l c), (fold_left Z.max l c).
    repeat split; auto.
Qed.

Lemma single_color_range_bounds_witness :
  exists self',
    single_color_setter (Some "B") (mk true two_tone true 0 true (Bound None)
                                       Missing Missing Missing None)
    = (self', Py.Ok tt)
    /\ _single_color self' = Bound (Some "B").
Proof.
  eexists. split; [reflexivity|].
  exact (proj1 (single_color_range_bounds (Some "B")
                  (mk true two_tone true 0 true (Bound None) Missing Missing Missing None)
                  _ eq_refl)).
Defined.

Lemma colormaps_keys (key : string) :
  (key = "R" \/ key = "G" \/ key = "B") <-> _colormaps key <> None.
Proof.
  unfold _colormaps.
  destruct (String.eqb_spec key "R"); [split; [discriminate | auto]|].
  destruct (String.eqb_spec key "G"); [split; [discriminate | auto]|].
  destruct (String.eqb_spec key "B"); [split; [discriminate | auto]|].
  split; [intros [?|[?|?]]; contradiction | congruence].
Qed.

(** X13.  The setter of [single_color] accepts the keys "R", "G" and "B"
    (and [None]); any other string raises [ValueError] and leaves the
    validator as it was: the stored value, the colormap of the image and the
    colour range are not touched. *)
Theorem single_color_accepted_keys (key : string) (self : t) :
  ((key = "R" \/ key = "G" \/ key = "B") ->
   exists self', single_color_setter (Some key) self = (self', Py.Ok tt))
  /\ (~ (key = "R" \/ key = "G" \/ key = "B") ->
      single_color_setter (Some key) self = (self, Py.Raise Py.ValueError))
  /\ exists self', single_color_setter None self = (self', Py.Ok tt).
Proof.
  pose proof (colormaps_keys key) as Hk.
  unfold single_color_setter, Py.modify, Py.raise.
  destruct (_colormaps key) as [f|].
  - split; [intros _; eexists; reflexivity|]. split; [|eexists; reflexivity].
    intros Hn. exfalso. apply Hn, Hk. discriminate.
  - split; [|split; [reflexivity | eexists; reflexivity]].
    intros Hin. apply Hk in Hin. congruence.
Qed.

(** ** Validators whose colour range has been computed *)

Lemma range_of_set_last_color (self : t) (r c : option Z) :
  range_of self r -> range_of (set_last_color c self) r.
Proof. intros [Hmin Hmax | mn mx Hmin Hmax]; [apply range_unknown | apply range_known]; assumption. Qed.

Lemma update_xyt_keeps_range (self : t) (r : option Z) (x_coord y_coord : Z) :
  range_of self r ->
  exists c v,
    update_xyt x_coord y_coord self = (set_last_color c self, Py.Ok v).
Proof.
  intros Hr. destruct (_enabled self) eqn:Hen.
  - rewrite (update_xyt_with_range _ _ _ _ Hen Hr).
    destruct (LocationColorMap.get_color_at (_lcm self) x_coord y_coord) as [color|];
      [|eexists; eexists; reflexivity].
    destruct (_last_color self) as [last_color|] eqn:Hl; [|eexists; eexists; reflexivity].
    cbv zeta. destruct (0 <=? _); [eexists; eexists; reflexivity|].
    destruct (Qle_bool _ _);
      [exists (_last_color self), Pass; now rewrite set_last_color_same|].
    destruct (_cyclic self && _); [eexists; eexists; reflexivity|].
    exists (_last_color self), gradient_violation. now rewrite set_last_color_same.
  - exists (_last_color self), Pass. rewrite set_last_color_same.
    unfold update_xyt, Py.bind, Py.get, Py.ret. rewrite Hen. reflexivity.
Qed.

Lemma set_last_color_twice (self : t) (c c' : option Z) :
  set_last_color c' (set_last_color c self) = set_last_color c' self.
Proof. reflexivity. Qed.

(** X14.  Once the colour range has been computed (after any accepted
    assignment of [single_color]), no update raises, cyclic or not, enabled
    or not: a run over any positions returns one verdict for each position,
    and changes nothing of the validator but the remembered colour. *)
Theorem updates_total_with_range (positions : list (Z * Z)) (self : t) (r : option Z) :
  range_of self r ->
  exists c verdicts,
    updates positions self = (set_last_color c self, Py.Ok verdicts)
    /\ List.length verdicts = List.length positions.
Proof.
  revert self. induction positions as [|[xc yc] rest IH]; intros self Hr.
  - exists (_last_color self), []. rewrite set_last_color_same. split; reflexivity.
  - destruct (update_xyt_keeps_range self r xc yc Hr) as (c1 & v & Hstep).
    destruct (IH (set_last_color c1 self) (range_of_set_last_color _ _ c1 Hr))
      as (c2 & vs & Hrun & Hlen).
    rewrite gradient_updates_cons, Hstep, Hrun, set_last_color_twice.
    exists c2, (v :: vs). split; [reflexivity|]. cbn [List.length]. now rewrite Hlen.
Qed.

Lemma updates_total_with_range_witness :
  exists c verdicts,
    updates [(0, 0); (1, 0)]
      (fst (single_color_setter (Some "B")
              (mk true two_tone true 0 true (Bound None) Missing Missing Missing None)))
    = (set_last_color c
         (fst (single_color_setter (Some "B")
                 (mk true two_tone true 0 true (Bound None) Missing Missing Missing None))),
       Py.Ok verdicts)
    /\ List.length verdicts = 2%nat.
Proof.
  apply (updates_total_with_range [(0, 0); (1, 0)] _ (Some (255 - 0))).
  apply range_known; reflexivity.
Defined.

(** X15.  On a cyclic validator whose colour range is known, a backward
    step beyond the tolerance is taken for a wraparound, passes and is
    remembered, exactly when it spans at least five sixths of the range:
    [5 * range <= 6 * |color - last_color|]; any shorter one is a
    [GradientViolation] and the remembered colour stays. *)
Theorem cyclic_step_beyond_tolerance (self : t) (range x_coord y_coord color last_color : Z) :
  _enabled self = true ->
  _cyclic self = true ->
  range_of self (Some range) ->
  LocationColorMap.get_color_at (_lcm self) x_coord y_coord = Some color ->
  _last_color self = Some last_color ->
  (0 <= _max_valid_back_movement self)%Q ->
  (inject_Z (expected_direction self * (color - last_color))
   < - _max_valid_back_movement self)%Q ->
  update_xyt x_coord y_coord self =
  if 5 * range <=? 6 * Z.abs (color - last_color)
  then (set_last_color (Some color) self, Py.Ok Pass)
  else (self, Py.Ok gradient_violation).
Proof.
  intros Hen Hc Hr Hcol Hlast Hm Hback.
  rewrite (update_xyt_with_range _ _ _ _ Hen Hr), Hcol, Hlast, Hc. cbv zeta.
  rewrite rgb_delta_direction. cbn [andb].
  assert (Hneg : expected_direction self * (color - last_color) < 0).
  { apply Qopp_le_compat in Hm.
    pose proof (Qlt_le_trans _ _ _ Hback Hm) as H0.
    change (- 0)%Q with (inject_Z 0) in H0. now rewrite <- Zlt_Qlt in H0. }
  destruct (0 <=? expected_direction self * (color - last_color)) eqn:E1;
    [apply Z.leb_le in E1; lia|].
  destruct (Qle_bool (- _max_valid_back_movement self)
              (inject_Z (expected_direction self * (color - last_color)))) eqn:E2.
  { apply Qle_bool_iff in E2. exfalso. eapply Qlt_not_le; eassumption. }
  assert (Habs : Z.abs (expected_direction self * (color - last_color))
                 = Z.abs (color - last_color)).
  { unfold expected_direction. destruct (_rgb_should_ascend self); lia. }
  unfold wraps, cyclic_ratio. rewrite Habs.
  destruct (5 * (range - Z.abs (color - last_color)) <=? Z.abs (color - last_color)) eqn:E3;
    destruct (5 * range <=? 6 * Z.abs (color - last_color)) eqn:E4; try reflexivity;
    rewrite ?Z.leb_le, ?Z.leb_gt in *; lia.
Qed.

Lemma cyclic_step_beyond_tolerance_witness :
  update_xyt 1 0
    (set_last_color (Some 100)
       (fst (single_color_setter None
               (mk true two_tone true 0 true (Bound None) Missing Missing Missing None))))
  = (set_last_color (Some 100)
       (fst (single_color_setter None
               (mk true two_tone true 0 true (Bound None) Missing Missing Missing None))),
     Py.Ok gradient_violation).
Proof.
  apply (cyclic_step_beyond_tolerance
           (set_last_color (Some 100)
              (fst (single_color_setter None
                      (mk true two_tone true 0 true (Bound None) Missing Missing Missing None))))
           (255 - 0) 1 0 40 100); try reflexivity.
  - apply range_known; reflexivity.
  - discriminate.
Defined.

(** X16.  A position where no colour is available acts as [reset]: the
    update passes and the remembered colour is forgotten.  The first update
    after that, or after [reset], always passes, whatever the colour and
    the direction, and remembers what it saw; on every enabled validator,
    cyclic or not, also as the constructor leaves it. *)
Theorem colour_gap_restarts_validation (self : t) (x1 y1 x2 y2 : Z) :
  _enabled self = true ->
  (LocationColorMap.get_color_at (_lcm self) x1 y1 = None ->
   update_xyt x1 y1 self = (reset self, Py.Ok Pass))
  /\ update_xyt x2 y2 (reset self)
     = (set_last_color (LocationColorMap.get_color_at (_lcm self) x2 y2) self, Py.Ok Pass).
Proof.
  intros Hen. unfold update_xyt, Py.bind, Py.get, Py.modify, Py.ret. split.
  - intros Hcol. rewrite Hen, Hcol. reflexivity.
  - cbn. rewrite Hen. cbn.
    destruct (LocationColorMap.get_color_at (_lcm self) x2 y2); reflexivity.
Qed.

Lemma colour_gap_restarts_validation_witness :
  update_xyt 1 0
    (reset (mk true two_tone true 0 true (Bound None) Missing Missing Missing (Some 100)))
  = (set_last_color (Some 40)
       (mk true two_tone true 0 true (Bound None) Missing Missing Missing (Some 100)),
     Py.Ok Pass).
Proof.
  exact (proj2 (colour_gap_restarts_validation
                  (mk true two_tone true 0 true (Bound None) Missing Missing Missing (Some 100))
                  0 0 1 0 eq_refl)).
Defined.

End MoveByGradientValidatorFacts.

(* ================================================================== *)
(** * NumberLine: the touch                                           *)
(* ================================================================== *)

Module NumberLineFacts.

Import NumberLine.
Local Open Scope Q_scope.

Lemma Qlt_bool_iff (a b : Q) : Qlt_bool a b = true <-> a < b.
Proof.
  unfold Qlt_bool. rewrite negb_true_iff. split.
  - intros H. apply Qnot_le_lt. intros Hle. apply Qle_bool_iff in Hle. congruence.
  - intros H. destruct (Qle_bool b a) eqn:E; [|reflexivity].
    apply Qle_bool_iff in E. exfalso. eapply Qlt_not_le; eassumption.
Qed.

(** [_show_feedback_stim] leaves the state of the detection alone. *)
Lemma show_feedback_tracking (self : t) :
  _last_touched_coord (fst (_show_feedback_stim self)) = _last_touched_coord self
  /\ _initial_mouse_dir (fst (_show_feedback_stim self)) = _initial_mouse_dir self.
Proof.
  unfold _show_feedback_stim, Py.bind, Py.get, Py.ret, Py.raise, Py.modify.
  destruct (_feedback_stim self) as [stim|]; [|split; reflexivity].
  destruct (has_visible stim); split; reflexivity.
Qed.

(** A sample on the side of the first one, multiplied by its sign, is not
    negative. *)
Lemma same_side_nonneg (d : Q) : 0 <= d * inject_Z (np_sign d).
Proof.
  unfold np_sign, Qle, Qmult, inject_Z. destruct d as [a b]. simpl.
  rewrite Z.mul_1_r. destruct a; simpl; lia.
Qed.

(** The first sample after [reset] on a direction-locked line. *)
Lemma first_sample (self : t) (x_coord y_coord : Z) :
  _touch_directioned self = true ->
  update_xyt x_coord y_coord (reset self)
  = (set_initial_mouse_dir (Some (np_sign (distance_from_line self x_coord y_coord)))
       (reset self), Py.Ok tt).
Proof.
  intros Hd. unfold update_xyt, Py.bind, Py.get, Py.ret, Py.modify.
  cbn. rewrite Hd. reflexivity.
Qed.

(** A later sample on a direction-locked line that was not touched yet. *)
Lemma later_sample (self : t) (x_coord y_coord dir : Z) :
  _touch_directioned self = true ->
  _initial_mouse_dir self = Some dir ->
  _last_touched_coord self = None ->
  update_xyt x_coord y_coord self =
  if Qlt_bool (distance_from_line self x_coord y_coord * inject_Z dir) (_touch_distance self)
  then _show_feedback_stim
         (set_last_touched_coord (Some (touch_coord_of self x_coord y_coord)) self)
  else (self, Py.Ok tt).
Proof.
  intros Hd Hdir Hl. unfold update_xyt, Py.bind, Py.get, Py.ret, Py.modify.
  rewrite Hl, Hd, Hdir. cbn [negb].
  destruct (Qlt_bool _ _); [|reflexivity].
  destruct (_show_feedback_stim _) as [s [[]|e]]; reflexivity.
Qed.

Lemma touched_false (self : t) : touched self = false -> _last_touched_coord self = None.
Proof. unfold touched. destruct (_last_touched_coord self); [discriminate | reflexivity]. Qed.

(** The claim that a sample on the side of the first one never reports a
    touch fails for a positive touch distance: with [touch_distance = 10],
    after a first sample at y = -100 (below the line), the sample at y = -5
    is on the same side and reports the touch. *)
Lemma same_side_touch_with_positive_distance :
  let s1 := fst (update_xyt 0 (-100) (reset (horizontal_line 10))) in
  let s2 := fst (update_xyt 0 (-5) s1) in
  _initial_mouse_dir s1 = Some 1%Z
  /\ np_sign (distance_from_line s1 0 (-5)) = 1%Z
  /\ touched s1 = false
  /\ touched s2 = true.
Proof. repeat split. Qed.

(** C3, as the code has it.  On a direction-locked line: the first
    [update_xyt] after [reset] records the sign of the perpendicular offset
    and reports no touch; from then on, while the line is not touched, an
    update makes [touched] true exactly when the distance multiplied by the
    recorded sign is below the touch distance (the touch coordinate is then
    recorded and the sign is kept); with a touch distance that is not
    positive, a sample on the side of the first one does not report a touch;
    and once the line is touched an update changes nothing. *)
Theorem directional_touch (self : t) (x_coord y_coord : Z) :
  _touch_directioned self = true ->
  (_initial_mouse_dir (fst (update_xyt x_coord y_coord (reset self)))
   = Some (np_sign (distance_from_line self x_coord y_coord))
   /\ touched (fst (update_xyt x_coord y_coord (reset self))) = false)
  /\ (forall dir,
        _initial_mouse_dir self = Some dir -> touched self = false ->
        (touched (fst (update_xyt x_coord y_coord self)) = true
         <-> distance_from_line self x_coord y_coord * inject_Z dir < _touch_distance self)
        /\ (touched (fst (update_xyt x_coord y_coord self)) = true ->
            last_touched_coord (fst (update_xyt x_coord y_coord self))
            = Some (touch_coord_of self x_coord y_coord))
        /\ _initial_mouse_dir (fst (update_xyt x_coord y_coord self)) = Some dir)
  /\ (forall dir,
        _initial_mouse_dir self = Some dir -> touched self = false ->
        _touch_distance self <= 0 ->
        np_sign (distance_from_line self x_coord y_coord) = dir ->
        touched (fst (update_xyt x_coord y_coord self)) = false)
  /\ (touched self = true -> update_xyt x_coord y_coord self = (self, Py.Ok tt)).
Proof.
  intros Hd.
  assert (Hlater : forall dir,
             _initial_mouse_dir self = Some dir -> touched self = false ->
             (touched (fst (update_xyt x_coord y_coord self)) = true
              <-> distance_from_line self x_coord y_coord * inject_Z dir < _touch_distance self)
             /\ (touched (fst (update_xyt x_coord y_coord self)) = true ->
                 last_touched_coord (fst (update_xyt x_coord y_coord self))
                 = Some (touch_coord_of self x_coord y_coord))
             /\ _initial_mouse_dir (fst (update_xyt x_coord y_coord self)) = Some dir).
  { intros dir Hdir Ht. pose proof (touched_false _ Ht) as Hl.
    rewrite (later_sample _ _ _ _ Hd Hdir Hl). rewrite <- Qlt_bool_iff.
    destruct (Qlt_bool _ _).
    - pose proof (show_feedback_tracking
                    (set_last_touched_coord (Some (touch_coord_of self x_coord y_coord)) self))
        as (Hc & Hi).
      unfold touched, last_touched_coord. rewrite Hc, Hi. cbn.
      repeat split; auto.
    - cbn [fst]. rewrite Ht. repeat split; auto; discriminate. }
  split; [|split; [exact Hlater | split]].
  - rewrite (first_sample _ _ _ Hd). split; reflexivity.
  - intros dir Hdir Ht Htd Hside.
    destruct (Hlater dir Hdir Ht) as (Hiff & _).
    destruct (touched (fst (update_xyt x_coord y_coord self))); [|reflexivity].
    exfalso. pose proof (proj1 Hiff eq_refl) as Hlt.
    pose proof (same_side_nonneg (distance_from_line self x_coord y_coord)) as Hnn.
    rewrite Hside in Hnn.
    apply (Qlt_not_le _ _ Hlt). eapply Qle_trans; eassumption.
  - intros Ht. unfold update_xyt, Py.bind, Py.get, Py.ret. unfold touched in Ht.
    destruct (_last_touched_coord self); [reflexivity | discriminate].
Qed.

Lemma directional_touch_witness :
  _initial_mouse_dir (fst (update_xyt 0 (-100) (reset (horizontal_line 0)))) = Some 1%Z
  /\ touched (fst (update_xyt 0 (-100) (reset (horizontal_line 0)))) = false.
Proof.
  exact (proj1 (directional_touch (horizontal_line 0) 0 (-100) eq_refl)).
Defined.

(** ** Lines that can be touched from any side *)

(** A sample on a line that was not touched yet and is not direction-locked. *)
Lemma undirected_sample (self : t) (x_coord y_coord : Z) :
  _touch_directioned self = false ->
  _last_touched_coord self = None ->
  update_xyt x_coord y_coord self =
  if Qle_bool (Qabs (distance_from_line self x_coord y_coord)) (_touch_distance self)
  then _show_feedback_stim
         (set_last_touched_coord (Some (touch_coord_of self x_coord y_coord)) self)
  else (self, Py.Ok tt).
Proof.
  intros Hd Hl. unfold update_xyt, Py.bind, Py.get, Py.ret, Py.modify.
  rewrite Hl, Hd. cbn [negb].
  destruct (Qle_bool _ _); [|reflexivity].
  destruct (_show_feedback_stim _) as [s [[]|e]]; reflexivity.
Qed.

(** X17.  On a line that is not direction-locked and was not touched yet,
    an update reports the touch exactly when the sample is within the touch
    distance of the line, on either side: [|distance| <= touch_distance].
    The touch coordinate is then recorded; the direction of the first
    sample is never recorded. *)
Theorem undirected_touch (self : t) (x_coord y_coord : Z) :
  _touch_directioned self = false ->
  touched self = false ->
  (touched (fst (update_xyt x_coord y_coord self)) = true
   <-> Qabs (distance_from_line self x_coord y_coord) <= _touch_distance self)
  /\ (touched (fst (update_xyt x_coord y_coord self)) = true ->
      last_touched_coord (fst (update_xyt x_coord y_coord self))
      = Some (touch_coord_of self x_coord y_coord))
  /\ _initial_mouse_dir (fst (update_xyt x_coord y_coord self)) = _initial_mouse_dir self.
Proof.
  intros Hd Ht. pose proof (touched_false _ Ht) as Hl.
  rewrite (undirected_sample _ _ _ Hd Hl). rewrite <- Qle_bool_iff.
  destruct (Qle_bool _ _).
  - pose proof (show_feedback_tracking
                  (set_last_touched_coord (Some (touch_coord_of self x_coord y_coord)) self))
      as (Hc & Hi).
    unfold touched, last_touched_coord. rewrite Hc, Hi. cbn.
    repeat split; auto.
  - cbn [fst]. rewrite Ht. repeat split; auto; discriminate.
Qed.

Lemma undirected_touch_witness :
  touched (fst (update_xyt 7 3
                  (mk Horizontal 0 0 100 false 5 None (0%Z, 0%Z) None None None))) = true
  <-> Qabs (distance_from_line
              (mk Horizontal 0 0 100 false 5 None (0%Z, 0%Z) None None None) 7 3) <= 5.
Proof.
  exact (proj1 (undirected_touch
                  (mk Horizontal 0 0 100 false 5 None (0%Z, 0%Z) None None None)
                  7 3 eq_refl eq_refl)).
Defined.

Lemma line_updates_cons (x_coord y_coord : Z) (rest : list (Z * Z)) (self : t) :
  updates ((x_coord, y_coord) :: rest) self =
  match update_xyt x_coord y_coord self with
  | (s1, Py.Ok _) => updates rest s1
  | (s1, Py.Raise e) => (s1, Py.Raise e)
  end.
Proof.
  cbn [updates]. unfold Py.bind.
  destruct (update_xyt x_coord y_coord self) as [s1 [v|e]]; reflexivity.
Qed.

(** X18.  A negative touch distance, which on a direction-locked line
    asks the finger to cross the line, makes a line that is not
    direction-locked impossible to touch: whatever the positions, a run of
    updates changes nothing and never reports a touch. *)
Theorem undirected_negative_distance_never_touched (self : t) (positions : list (Z * Z)) :
  _touch_directioned self = false ->
  _touch_distance self < 0 ->
  touched self = false ->
  updates positions self = (self, Py.Ok tt).
Proof.
  intros Hd Hneg Ht. pose proof (touched_false _ Ht) as Hl.
  induction positions as [|[xc yc] rest IH]; [reflexivity|].
  rewrite line_updates_cons, (undirected_sample _ _ _ Hd Hl).
  destruct (Qle_bool _ _) eqn:E; [|exact IH].
  apply Qle_bool_iff in E. exfalso.
  pose proof (Qabs_nonneg (distance_from_line self xc yc)) as Hnn.
  apply (Qlt_irrefl 0). eapply Qle_lt_trans; [exact Hnn|].
  eapply Qle_lt_trans; eassumption.
Qed.

Lemma undirected_negative_distance_never_touched_witness :
  updates [(0, 0)%Z; (5, 1)%Z]
    (mk Horizontal 0 0 100 false (-1) None (0%Z, 0%Z) None None None)
  = (mk Horizontal 0 0 100 false (-1) None (0%Z, 0%Z) None None None, Py.Ok tt).
Proof.
  apply undirected_negative_distance_never_touched; reflexivity.
Defined.

(** ** The feedback stimulus *)

(** An update of a line that was not touched yet either leaves it untouched
    and returns, or records the touch coordinate and shows the feedback
    stimulus. *)
Lemma update_xyt_untouched (self : t) (x_coord y_coord : Z) :
  _last_touched_coord self = None ->
  (exists s, update_xyt x_coord y_coord self = (s, Py.Ok tt)
             /\ _last_touched_coord s = None)
  \/ update_xyt x_coord y_coord self
     = _show_feedback_stim
         (set_last_touched_coord (Some (touch_coord_of self x_coord y_coord)) self).
Proof.
  intros Hl. destruct (_touch_directioned self) eqn:Hd.
  - destruct (_initial_mouse_dir self) as [dir|] eqn:Hdir.
    + rewrite (later_sample _ _ _ _ Hd Hdir Hl).
      destruct (Qlt_bool _ _); [right; reflexivity|].
      left. exists self. split; [reflexivity | exact Hl].
    + left. unfold update_xyt, Py.bind, Py.get, Py.ret, Py.modify.
      rewrite Hl, Hd, Hdir. cbn. eexists. split; [reflexivity|]. exact Hl.
  - rewrite (undirected_sample _ _ _ Hd Hl).
    destruct (Qle_bool _ _); [right; reflexivity|].
    left. exists self. split; [reflexivity | exact Hl].
Qed.

(** X19.  When an update detects the touch and the feedback stimulus has
    the attribute [visible], the stimulus is made visible and placed at the
    touched position along the line (the coordinate of the sample itself: the
    middle of the line cancels out), on the line across it, moved by
    [feedback_stim_offset]; the update returns normally. *)
Theorem feedback_stim_placed_at_touch (self : t) (stim : FeedbackStim) (x_coord y_coord : Z) :
  touched self = false ->
  _feedback_stim self = Some stim ->
  has_visible stim = true ->
  touched (fst (update_xyt x_coord y_coord self)) = true ->
  snd (update_xyt x_coord y_coord self) = Py.Ok tt
  /\ _feedback_stim (fst (update_xyt x_coord y_coord self))
     = Some (mkStim true
               match _orientation self with
               | Horizontal => ((x_coord + fst (_feedback_stim_offset self))%Z,
                                (_mid_y self + snd (_feedback_stim_offset self))%Z)
               | Vertical => ((_mid_x self + fst (_feedback_stim_offset self))%Z,
                              (y_coord + snd (_feedback_stim_offset self))%Z)
               end
               true).
Proof.
  intros Ht Hs Hv Hafter. pose proof (touched_false _ Ht) as Hl.
  destruct (update_xyt_untouched self x_coord y_coord Hl) as [(s & Hu & Hn) | Hu];
    rewrite Hu in *.
  - cbn [fst] in Hafter. unfold touched in Hafter. rewrite Hn in Hafter. discriminate.
  - unfold _show_feedback_stim, Py.bind, Py.get, Py.ret, Py.raise, Py.modify.
    cbn. rewrite Hs, Hv. cbn. split; [reflexivity|].
    unfold touch_coord_of. destruct (_orientation self); cbn; repeat f_equal; lia.
Qed.

Lemma feedback_stim_placed_at_touch_witness :
  _feedback_stim
    (fst (update_xyt 7 3
            (mk Horizontal 20 0 100 false 5 (Some (mkStim true (0%Z, 0%Z) false))
                (1%Z, 2%Z) None None None)))
  = Some (mkStim true (8%Z, 2%Z) true).
Proof.
  exact (proj2 (feedback_stim_placed_at_touch
                  (mk Horizontal 20 0 100 false 5 (Some (mkStim true (0%Z, 0%Z) false))
                      (1%Z, 2%Z) None None None)
                  (mkStim true (0%Z, 0%Z) false) 7 3 eq_refl eq_refl eq_refl eq_refl)).
Defined.

(** X20.  With a feedback stimulus that lacks the attribute [visible], the
    update that detects the touch raises [InvalidStateError], and only that
    one does; the touch is recorded all the same, before the exception, so
    every later update returns normally and changes nothing. *)
Theorem touch_recorded_despite_invalid_stim (self : t) (stim : FeedbackStim)
    (x_coord y_coord : Z) :
  touched self = false ->
  _feedback_stim self = Some stim ->
  has_visible stim = false ->
  (snd (update_xyt x_coord y_coord self) = Py.Raise Py.InvalidStateError
   <-> touched (fst (update_xyt x_coord y_coord self)) = true)
  /\ (touched (fst (update_xyt x_coord y_coord self)) = false ->
      snd (update_xyt x_coord y_coord self) = Py.Ok tt)
  /\ (touched (fst (update_xyt x_coord y_coord self)) = true ->
      last_touched_coord (fst (update_xyt x_coord y_coord self))
      = Some (touch_coord_of self x_coord y_coord)
      /\ forall x' y',
          update_xyt x' y' (fst (update_xyt x_coord y_coord self))
          = (fst (update_xyt x_coord y_coord self), Py.Ok tt)).
Proof.
  intros Ht Hs Hv. pose proof (touched_false _ Ht) as Hl.
  destruct (update_xyt_untouched self x_coord y_coord Hl) as [(s & Hu & Hn) | Hu];
    rewrite Hu.
  - cbn [fst snd]. unfold touched. rewrite Hn.
    split; [split; discriminate|]. split; [reflexivity | discriminate].
  - unfold _show_feedback_stim, Py.bind, Py.get, Py.ret, Py.raise, Py.modify.
    cbn. rewrite Hs, Hv. cbn.
    split; [split; reflexivity|]. split; [discriminate|].
    intros _. split; [reflexivity|]. intros x' y'. reflexivity.
Qed.

Lemma touch_recorded_despite_invalid_stim_witness :
  snd (update_xyt 7 3
         (mk Horizontal 20 0 100 false 5 (Some (mkStim false (0%Z, 0%Z) false))
             (1%Z, 2%Z) None None None))
  = Py.Raise Py.InvalidStateError
  <-> touched (fst (update_xyt 7 3
                      (mk Horizontal 20 0 100 false 5 (Some (mkStim false (0%Z, 0%Z) false))
                          (1%Z, 2%Z) None None None))) = true.
Proof.
  exact (proj1 (touch_recorded_despite_invalid_stim
                  (mk Horizontal 20 0 100 false 5 (Some (mkStim false (0%Z, 0%Z) false))
                      (1%Z, 2%Z) None None None)
                  (mkStim false (0%Z, 0%Z) false) 7 3 eq_refl eq_refl eq_refl)).
Defined.

Ltac Qhalf := unfold Qdiv in *; change (/ 2) with (1 # 2) in *.

(** ** The rectangle around the line *)

Ltac Qminmax_bounds :=
  repeat match goal with
  | |- context [Qmax ?a ?b] =>
      let m := fresh "m" in
      pose proof (Q.le_max_l a b); pose proof (Q.le_max_r a b);
      set (m := Qmax a b) in *; clearbody m
  | |- context [Qmin ?a ?b] =>
      let m := fresh "m" in
      pose proof (Q.le_min_l a b); pose proof (Q.le_min_r a b);
      set (m := Qmin a b) in *; clearbody m
  | H : context [Qmax ?a ?b] |- _ =>
      let m := fresh "m" in
      pose proof (Q.le_max_l a b); pose proof (Q.le_max_r a b);
      set (m := Qmax a b) in *; clearbody m
  | H : context [Qmin ?a ?b] |- _ =>
      let m := fresh "m" in
      pose proof (Q.le_min_l a b); pose proof (Q.le_min_r a b);
      set (m := Qmin a b) in *; clearbody m
  end.

Ltac split_ands := repeat match goal with |- _ /\ _ => split end.

(** X22.  With end ticks of a height that is not negative and visible
    labels, [size] returns a rectangle which, centred on the middle of the
    line, contains the two ends of the line, the far ends of the two ticks
    and, around each label position, the box of the label size. *)
Theorem size_contains_elements (layout : Layout) (self : t)
    (end_tick_height box_w box_h : Q) :
  0 <= _line_length self ->
  _end_tick_height layout = Some end_tick_height ->
  0 <= end_tick_height ->
  _labels_visible layout = true ->
  _labels_box_size layout = Some (box_w, box_h) ->
  0 <= box_w -> 0 <= box_h ->
  exists sz,
    size layout self = Py.Ok sz
    /\ in_rectangle sz (_main_line_start self)
    /\ in_rectangle sz (_main_line_end self)
    /\ in_rectangle sz (fst (end_tick_tips end_tick_height self))
    /\ in_rectangle sz (snd (end_tick_tips end_tick_height self))
    /\ forall p,
        p = fst (label_positions layout self) \/ p = snd (label_positions layout self) ->
        in_rectangle sz (fst p - box_w / 2, snd p - box_h / 2)
        /\ in_rectangle sz (fst p + box_w / 2, snd p + box_h / 2).
Proof.
  intros HL Hh Hh0 Hvis Hbox Hw Hb.
  unfold size, end_tick_tips, label_positions, _main_line_start, _main_line_end, in_rectangle.
  rewrite Hh, Hvis, Hbox.
  destruct (_orientation self); cbn [fst snd];
    (eexists; split; [reflexivity|]); cbn [fst snd];
    set (L := _line_length self) in *; clearbody L;
    set (dx := _labels_offset_x layout) in *; set (dy := _labels_offset_y layout) in *;
    clearbody dx dy; Qhalf; Qminmax_bounds;
    split_ands; try lra;
    intros p [-> | ->]; cbn [fst snd]; split_ands; lra.
Qed.

Lemma size_contains_elements_witness :
  exists sz,
    size (mkLayout (Some 10) true 0 (-20) (Some (40, 16)) 0 100) (horizontal_line 0) = Py.Ok sz
    /\ in_rectangle sz (_main_line_start (horizontal_line 0)).
Proof.
  destruct (size_contains_elements (mkLayout (Some 10) true 0 (-20) (Some (40, 16)) 0 100)
              (horizontal_line 0) 10 40 16)
    as (sz & Hs & Hstart & _); try reflexivity; try discriminate.
  exists sz. split; assumption.
Defined.

(** X23.  What [size] does not cover.  Without an end tick height (the
    default of the constructor) it raises [TypeError].  With labels hidden
    and ticks of negative height (below the line, or to its left), the
    rectangle does not contain the far ends of the ticks. *)
Theorem size_misses_negative_ticks (layout : Layout) (self : t) :
  (_end_tick_height layout = None -> size layout self = Py.Raise Py.TypeError)
  /\ (forall end_tick_height,
        _end_tick_height layout = Some end_tick_height ->
        _labels_visible layout = false ->
        0 <= _line_length self ->
        end_tick_height < 0 ->
        exists sz,
          size layout self = Py.Ok sz
          /\ ~ in_rectangle sz (fst (end_tick_tips end_tick_height self))
          /\ ~ in_rectangle sz (snd (end_tick_tips end_tick_height self))).
Proof.
  unfold size, end_tick_tips, _main_line_start, _main_line_end, in_rectangle. split.
  - intros ->. destruct (_orientation self); reflexivity.
  - intros h -> -> HL Hneg.
    destruct (_orientation self); cbn [fst snd];
      (eexists; split; [reflexivity|]); cbn [fst snd];
      set (L := _line_length self) in *; clearbody L; Qhalf.
    + assert (E : Qmax (0 + h) (- 0) == 0).
      { apply Q.max_r. lra. }
      split; intros (_ & H1 & _); rewrite E in H1; lra.
    + assert (E : Qmax (0 + h) (- 0) == 0).
      { apply Q.max_r. lra. }
      split; intros ((H1 & _) & _); rewrite E in H1; lra.
Qed.

End NumberLineFacts.

(* ================================================================== *)
(** * Properties of the value of a touch in double precision          *)
(* ================================================================== *)

Module NumberLine64Facts.

Import NumberLine64.
Import PrimFloat.

(** X21.  The value of a touch is not clamped to the scale and the right
    end of the line need not give [max_value]: on a line of length 100 with
    [min_value = -0.1] and [max_value = 0.2], a touch at the left end
    (coordinate -50) has the value -0.1, a touch at the right end (coordinate
    50) has the value 0.20000000000000004, which is greater than
    [max_value]; without a touch the value is [None].  (In hexadecimal 0.1
    and 0.2 are [0x1.999999999999ap-4] and [0x1.999999999999ap-3],
    0.20000000000000004 is [0x1.999999999999bp-3].) *)
Theorem last_touched_value_past_max_value :
  last_touched_value None 100 (-0x1.999999999999ap-4) 0x1.999999999999ap-3 = Ok None
  /\ last_touched_value (Some (-50)%float) 100 (-0x1.999999999999ap-4) 0x1.999999999999ap-3
     = Ok (Some (-0x1.999999999999ap-4)%float)
  /\ last_touched_value (Some 50%float) 100 (-0x1.999999999999ap-4) 0x1.999999999999ap-3
     = Ok (Some 0x1.999999999999bp-3%float)
  /\ (0x1.999999999999ap-3 <? 0x1.999999999999bp-3)%float = true.
Proof. repeat split; vm_compute; reflexivity. Qed.

End NumberLine64Facts.

(* ================================================================== *)
(** * Sector: properties                                              *)
(* ================================================================== *)

Module SectorFacts.

Import Sector.
Local Open Scope Z_scope.

Lemma Rleb_le (a b : R) : Rleb a b = true <-> (a <= b)%R.
Proof. unfold Rleb. destruct (Rle_dec a b); split; intros; auto; discriminate. Qed.

Lemma Rltb_lt (a b : R) : Rltb a b = true <-> (a < b)%R.
Proof. unfold Rltb. destruct (Rlt_dec a b); split; intros; auto; discriminate. Qed.

(** The test of the distance, on the integers: with a positive radius the
    position is beyond it exactly when the squared distance exceeds the
    squared radius. *)
Lemma beyond_radius (r d2 : Z) :
  0 < r -> 0 <= d2 ->
  (Rltb (IZR r) (sqrt (IZR d2)) = true <-> r * r < d2).
Proof.
  intros Hr Hd. rewrite Rltb_lt.
  assert (Hr' : (0 < IZR r)%R) by now apply IZR_lt.
  assert (Hd' : (0 <= IZR d2)%R) by now apply IZR_le.
  assert (Hsq : sqrt (IZR (r * r)) = IZR r).
  { rewrite mult_IZR. apply sqrt_square. lra. }
  rewrite <- Hsq at 1. split.
  - intros H. apply lt_IZR. apply sqrt_lt_0_alt. exact H.
  - intros H. apply sqrt_lt_1_alt. split.
    + apply IZR_le. nia.
    + now apply IZR_lt.
Qed.

Section Angle.

Variable get_angle : Z * Z -> Z * Z -> R.

(** X24.  Two sectors of the same circle with the two angles exchanged,
    the angles being different modulo 360, are complements of each other
    inside the circle: a position within the radius overlaps exactly one of
    them; a position beyond the radius overlaps neither. *)
Theorem exchanged_angles_give_complement (cx cy r a b : Z) (s1 s2 : t) (pos : Z * Z) :
  __init__ cx cy r a b = Py.Ok s1 ->
  __init__ cx cy r b a = Py.Ok s2 ->
  a mod 360 <> b mod 360 ->
  ((fst pos - cx) ^ 2 + (snd pos - cy) ^ 2 <= r * r ->
   overlapping_with_position get_angle s1 pos
   = negb (overlapping_with_position get_angle s2 pos))
  /\ (r * r < (fst pos - cx) ^ 2 + (snd pos - cy) ^ 2 ->
      overlapping_with_position get_angle s1 pos = false
      /\ overlapping_with_position get_angle s2 pos = false).
Proof.
  unfold __init__. destruct (r <=? 0) eqn:Er; [discriminate|].
  apply Z.leb_gt in Er. intros H1 H2 Hab.
  injection H1 as <-. injection H2 as <-.
  destruct pos as [px py]. cbn [fst snd].
  unfold overlapping_with_position. cbn [x y radius from_angle to_angle].
  pose proof (beyond_radius r ((px - cx) ^ 2 + (py - cy) ^ 2) Er ltac:(nia)) as Hb.
  destruct (Rltb (IZR r) (sqrt (IZR ((px - cx) ^ 2 + (py - cy) ^ 2)))) eqn:E.
  - split; [|auto]. intros Hin. apply proj1 in Hb. specialize (Hb eq_refl). lia.
  - split.
    + intros _.
      destruct (a mod 360 <? b mod 360) eqn:E1; destruct (b mod 360 <? a mod 360) eqn:E2;
        rewrite ?Z.ltb_lt, ?Z.ltb_ge in *; try lia.
      * now rewrite negb_involutive.
      * reflexivity.
    + intros Hout. apply proj2 in Hb. specialize (Hb Hout). discriminate.
Qed.

(** X25.  A sector whose two angles are equal modulo 360, as the full
    circle written [from_angle = 0, to_angle = 360], is the whole disc less
    one ray: a position within the radius overlaps it exactly when its
    angle differs from that of the sector. *)
Theorem equal_angles_give_disc_less_ray (cx cy r a b : Z) (s : t) (pos : Z * Z) :
  __init__ cx cy r a b = Py.Ok s ->
  a mod 360 = b mod 360 ->
  (fst pos - cx) ^ 2 + (snd pos - cy) ^ 2 <= r * r ->
  (overlapping_with_position get_angle s pos = true
   <-> mod360 (get_angle (cx, cy) pos) <> IZR (a mod 360)).
Proof.
  unfold __init__. destruct (r <=? 0) eqn:Er; [discriminate|].
  apply Z.leb_gt in Er. intros H1 Hab Hin. injection H1 as <-.
  destruct pos as [px py]. cbn [fst snd] in *.
  unfold overlapping_with_position. cbn [x y radius from_angle to_angle].
  pose proof (beyond_radius r ((px - cx) ^ 2 + (py - cy) ^ 2) Er ltac:(nia)) as Hb.
  destruct (Rltb (IZR r) (sqrt (IZR ((px - cx) ^ 2 + (py - cy) ^ 2)))) eqn:E.
  - apply proj1 in Hb. specialize (Hb eq_refl). lia.
  - rewrite <- Hab. rewrite Z.ltb_irrefl.
    set (angle := mod360 (get_angle (cx, cy) (px, py))).
    rewrite negb_true_iff, andb_false_iff.
    pose proof (Rleb_le (IZR (a mod 360)) angle) as Hl1.
    pose proof (Rleb_le angle (IZR (a mod 360))) as Hl2.
    destruct (Rleb (IZR (a mod 360)) angle); destruct (Rleb angle (IZR (a mod 360))).
    + split; [intros [?|?]; discriminate|].
      intros Hne. exfalso. apply Hne. apply Rle_antisym; tauto.
    + split; [|auto]. intros _ Heq. assert (false = true); [|discriminate].
      apply Hl2. rewrite Heq. apply Rle_refl.
    + split; [|auto]. intros _ Heq. assert (false = true); [|discriminate].
      apply Hl1. rewrite Heq. apply Rle_refl.
    + split; [|auto]. intros _ Heq. assert (false = true); [|discriminate].
      apply Hl1. rewrite Heq. apply Rle_refl.
Qed.

End Angle.

Lemma exchanged_angles_give_complement_witness :
  overlapping_with_position (fun _ _ => 45%R) (mk 0 0 10 0 90) (3, 4)
  = negb (overlapping_with_position (fun _ _ => 45%R) (mk 0 0 10 90 0) (3, 4)).
Proof.
  apply (proj1 (exchanged_angles_give_complement (fun _ _ => 45%R) 0 0 10 0 90 _ _ (3, 4)
                  eq_refl eq_refl ltac:(discriminate))).
  cbn. lia.
Defined.

Lemma equal_angles_give_disc_less_ray_witness :
  overlapping_with_position (fun _ _ => 45%R) (mk 0 0 10 0 0) (3, 4) = true
  <-> mod360 45 <> IZR (0 mod 360).
Proof.
  apply (equal_angles_give_disc_less_ray (fun _ _ => 45%R) 0 0 10 0 360 _ (3, 4)
           eq_refl eq_refl).
  cbn. lia.
Defined.

End SectorFacts.

(* ================================================================== *)
(** * RSVPText: properties                                            *)
(* ================================================================== *)

Module RSVPTextFacts.

Import RSVPText.
Local Open Scope Q_scope.

(** ** Lists updated by index *)

Lemma update_nth_length {A} (i : nat) (x : A) (l : list A) :
  List.length (update_nth i x l) = List.length l.
Proof.
  revert i. induction l as [|y l IH]; intros [|i]; cbn; auto.
Qed.

Lemma update_nth_same {A} (i : nat) (x y : A) (l : list A) :
  nth_error l i = Some y -> nth_error (update_nth i x l) i = Some x.
Proof.
  revert i. induction l as [|z l IH]; intros [|i]; cbn; try discriminate; auto.
Qed.

Lemma update_nth_other {A} (i j : nat) (x : A) (l : list A) :
  i <> j -> nth_error (update_nth i x l) j = nth_error l j.
Proof.
  revert i j. induction l as [|z l IH]; intros [|i] [|j] H; cbn; auto;
    try contradiction.
Qed.

Lemma update_nth_Forall2 {A} (P : A -> A -> Prop) (i : nat) (x y : A) (l0 l : list A) :
  Forall2 P l0 l -> nth_error l i = Some y ->
  (forall z, P z y -> P z x) ->
  Forall2 P l0 (update_nth i x l).
Proof.
  intros H. revert i. induction H as [|a b l0 l Hab H IH]; intros [|i] Hn Hp; cbn in *;
    try discriminate.
  - injection Hn as <-. constructor; auto.
  - constructor; auto.
Qed.

(** ** What the configuration of the stimuli changes *)

Lemma set_stimuli_same (s : t) : set_stimuli (_stimuli s) s = s.
Proof. destruct s; reflexivity. Qed.

Lemma set_stimuli_twice (l l' : list TextBox) (s : t) :
  set_stimuli l' (set_stimuli l s) = set_stimuli l' s.
Proof. reflexivity. Qed.

Lemma kept_refl (b : TextBox) : kept b b.
Proof. split; reflexivity. Qed.

Lemma kept_trans (b b' b'' : TextBox) : kept b b' -> kept b' b'' -> kept b b''.
Proof. intros [H1 H2] [H3 H4]. split; congruence. Qed.

Lemma kept_fresh (b b' : TextBox) : fresh b -> kept b b' -> fresh b'.
Proof. intros [H1 H2] [H3 H4]. split; congruence. Qed.

Lemma Forall2_kept_refl (l : list TextBox) : Forall2 kept l l.
Proof. induction l; constructor; auto using kept_refl. Qed.

Lemma Forall2_kept_trans (l l' l'' : list TextBox) :
  Forall2 kept l l' -> Forall2 kept l' l'' -> Forall2 kept l l''.
Proof.
  intros H. revert l''. induction H as [|a b l l' Hab H IH]; intros l'' H'.
  - inversion H'. constructor.
  - inversion H' as [|b' c l1 l2 Hbc H2]; subst. constructor; eauto using kept_trans.
Qed.

Lemma Forall2_kept_fresh (l l' : list TextBox) :
  Forall fresh l -> Forall2 kept l l' -> Forall fresh l'.
Proof.
  intros Hf H. induction H as [|a b l l' Hab H IH]; [constructor|].
  inversion Hf; subst. constructor; eauto using kept_fresh.
Qed.

Lemma evolves_refl (s : t) : evolves s s.
Proof.
  exists (_stimuli s), []. rewrite app_nil_r, set_stimuli_same.
  split; [reflexivity|]. split; [apply Forall2_kept_refl | constructor].
Qed.

Lemma evolves_trans (s s' s'' : t) : evolves s s' -> evolves s' s'' -> evolves s s''.
Proof.
  intros (l0 & e & -> & H0 & He) (l1 & e' & -> & H1 & He').
  cbn [_stimuli set_stimuli] in H1.
  apply Forall2_app_inv_l in H1 as (la & lb & Ha & Hb & ->).
  exists la, (lb ++ e'). rewrite set_stimuli_twice, app_assoc.
  split; [reflexivity|]. split.
  - exact (Forall2_kept_trans _ _ _ H0 Ha).
  - apply Forall_app. split; [|assumption]. exact (Forall2_kept_fresh _ _ He Hb).
Qed.

Lemma evolves_length (s s' : t) :
  evolves s s' -> (List.length (_stimuli s) <= List.length (_stimuli s'))%nat.
Proof.
  intros (l0 & e & -> & H0 & _). cbn. rewrite length_app.
  apply Forall2_length in H0. lia.
Qed.

Lemma evolves_config (s s' : t) :
  evolves s s' ->
  _text s' = _text s /\ _size s' = _size s /\ _onset_time s' = _onset_time s
  /\ _duration s' = _duration s /\ _last_stimulus_remains s' = _last_stimulus_remains s
  /\ _show_hide_operations s' = _show_hide_operations s
  /\ _start_showing_time s' = _start_showing_time s
  /\ _text_size s' = _text_size s.
Proof. intros (l0 & e & -> & _). repeat split. Qed.

Lemma evolving_ret {A} (a : A) : evolving (Py.ret a).
Proof. intros s. apply evolves_refl. Qed.

Lemma evolving_raise {A} (e : Py.exn) : evolving (@Py.raise t A e).
Proof. intros s. apply evolves_refl. Qed.

Lemma evolving_lift {A} (r : Py.result A) : evolving (Py.lift r).
Proof. intros s. apply evolves_refl. Qed.

Lemma evolving_get : evolving (@Py.get t).
Proof. intros s. apply evolves_refl. Qed.

Lemma evolving_bind {A B} (c : Py.M t A) (k : A -> Py.M t B) :
  evolving c -> (forall a, evolving (k a)) -> evolving (Py.bind c k).
Proof.
  intros Hc Hk s. unfold Py.bind. specialize (Hc s).
  destruct (c s) as [s' [a|e]]; cbn [fst] in *; [|exact Hc].
  eapply evolves_trans; [exact Hc | apply Hk].
Qed.

Lemma evolving_len_text : evolving len_text.
Proof.
  intros s. unfold len_text, Py.bind, Py.get. destruct (_text s); apply evolves_refl.
Qed.

Lemma create_from_cons (i : nat) (rest : list nat) (s : t) :
  create_from (i :: rest) s =
  match value_at (_size s) i with
  | Py.Ok size_i => create_from rest (set_stimuli (_stimuli s ++ [new_TextBox size_i]) s)
  | Py.Raise e => (s, Py.Raise e)
  end.
Proof.
  cbn [create_from]. unfold Py.bind, Py.get, Py.lift, Py.modify.
  destruct (value_at (_size s) i); reflexivity.
Qed.

Lemma set_from_cons {A} (values : prop A) (setattr : option A -> TextBox -> TextBox)
    (i : nat) (rest : list nat) (s : t) :
  set_from values setattr (i :: rest) s =
  match nth_error (_stimuli s) i with
  | None => (s, Py.Raise Py.IndexError)
  | Some stim =>
      match value_at values i with
      | Py.Ok v =>
          set_from values setattr rest
            (set_stimuli (update_nth i (setattr v stim) (_stimuli s)) s)
      | Py.Raise e => (s, Py.Raise e)
      end
  end.
Proof.
  cbn [set_from]. unfold Py.bind, Py.get, Py.lift, Py.modify, Py.raise.
  destruct (nth_error (_stimuli s) i); [|reflexivity].
  destruct (value_at values i); reflexivity.
Qed.

Lemma fresh_new_TextBox (size : option (Z * Z)) : fresh (new_TextBox size).
Proof. split; reflexivity. Qed.

Lemma evolves_append (s : t) (b : TextBox) :
  fresh b -> evolves s (set_stimuli (_stimuli s ++ [b]) s).
Proof.
  intros Hb. exists (_stimuli s), [b]. split; [reflexivity|].
  split; [apply Forall2_kept_refl | repeat constructor; apply Hb].
Qed.

Lemma evolves_update (s : t) (i : nat) (b b' : TextBox) :
  nth_error (_stimuli s) i = Some b -> kept b b' ->
  evolves s (set_stimuli (update_nth i b' (_stimuli s)) s).
Proof.
  intros Hn Hk. exists (update_nth i b' (_stimuli s)), []. rewrite app_nil_r.
  split; [reflexivity|]. split; [|constructor].
  apply (update_nth_Forall2 kept i b' b); [apply Forall2_kept_refl | exact Hn |].
  intros z Hz. eapply kept_trans; eassumption.
Qed.

Lemma evolving_create_from (indices : list nat) : evolving (create_from indices).
Proof.
  induction indices as [|i rest IH]; [apply evolving_ret|].
  intros s. rewrite create_from_cons.
  destruct (value_at (_size s) i) as [sz|e]; [|apply evolves_refl].
  eapply evolves_trans; [|apply IH]. apply evolves_append, fresh_new_TextBox.
Qed.

Lemma evolving_create_stimuli (n_stim : nat) : evolving (_create_stimuli n_stim).
Proof.
  intros s. unfold _create_stimuli, Py.bind, Py.get. apply evolving_create_from.
Qed.

Lemma evolving_set_from {A} (values : prop A) (setattr : option A -> TextBox -> TextBox)
    (indices : list nat) :
  (forall v b, kept b (setattr v b)) ->
  evolving (set_from values setattr indices).
Proof.
  intros Hk. induction indices as [|i rest IH]; [apply evolving_ret|].
  intros s. rewrite set_from_cons.
  destruct (nth_error (_stimuli s) i) as [stim|] eqn:En; [|apply evolves_refl].
  destruct (value_at values i) as [v|e]; [|apply evolves_refl].
  eapply evolves_trans; [|apply IH]. eapply evolves_update; [exact En | apply Hk].
Qed.

Lemma evolving_set_stimuli_property {A} (getattr : t -> prop A)
    (setattr : option A -> TextBox -> TextBox) (n_stim : nat) :
  (forall v b, kept b (setattr v b)) ->
  evolving (_set_stimuli_property getattr setattr n_stim).
Proof.
  intros Hk s. unfold _set_stimuli_property, Py.bind, Py.get.
  now apply evolving_set_from.
Qed.

Ltac evolving_step :=
  first [ apply evolving_lift | apply evolving_len_text | apply evolving_create_stimuli
        | apply evolving_set_stimuli_property; intros; split; reflexivity ].

Lemma evolving_configure_stimuli : evolving _configure_stimuli.
Proof.
  assert (H : forall r : Py.result unit,
             evolving
               (Py.bind (Py.lift r) (fun _ =>
                Py.bind len_text (fun n_stim =>
                Py.bind (_create_stimuli n_stim) (fun _ =>
                Py.bind (_set_stimuli_property (fun self => as_prop (_text self)) set_text n_stim) (fun _ =>
                Py.bind (_set_stimuli_property _text_font set_text_font n_stim) (fun _ =>
                Py.bind (_set_stimuli_property _text_bold set_text_bold n_stim) (fun _ =>
                Py.bind (_set_stimuli_property _text_italic set_text_italic n_stim) (fun _ =>
                Py.bind (_set_stimuli_property _text_underline set_text_underline n_stim) (fun _ =>
                Py.bind (_set_stimuli_property _text_justification set_text_justification n_stim) (fun _ =>
                Py.bind (_set_stimuli_property _text_colour set_text_colour n_stim) (fun _ =>
                Py.bind (_set_stimuli_property _background_colour set_background_colour n_stim) (fun _ =>
                Py.bind (_set_stimuli_property _size set_size n_stim) (fun _ =>
                _set_stimuli_property _position set_position n_stim)))))))))))))).
  { intros r. repeat (apply evolving_bind; [evolving_step | intros ?]). evolving_step. }
  intros s. exact (H (_validate s) s).
Qed.

Lemma bind_ok_inv {A B} (c : Py.M t A) (k : A -> Py.M t B) (s s' : t) (b : B) :
  Py.bind c k s = (s', Py.Ok b) ->
  exists s1 a, c s = (s1, Py.Ok a) /\ k a s1 = (s', Py.Ok b).
Proof.
  unfold Py.bind. destruct (c s) as [s1 [a|e]]; [|discriminate].
  intros H. exists s1, a. split; [reflexivity | exact H].
Qed.

Lemma create_from_ok (indices : list nat) : forall s s',
  create_from indices s = (s', Py.Ok tt) ->
  List.length (_stimuli s') = (List.length (_stimuli s) + List.length indices)%nat.
Proof.
  induction indices as [|i rest IH]; intros s s'.
  - cbn. intros H. injection H as <-. lia.
  - rewrite create_from_cons. destruct (value_at (_size s) i) as [sz|e]; [|discriminate].
    intros H. apply IH in H. rewrite H. cbn. rewrite length_app. cbn. lia.
Qed.

Lemma create_stimuli_ok (n_stim : nat) (s s' : t) :
  _create_stimuli n_stim s = (s', Py.Ok tt) ->
  (n_stim < List.length (_stimuli s'))%nat.
Proof.
  unfold _create_stimuli, Py.bind, Py.get. intros H. apply create_from_ok in H.
  rewrite H, length_seq. lia.
Qed.

Lemma validate_text (s : t) :
  _validate s = Py.Ok tt -> exists txt, _text s = Some txt.
Proof. unfold _validate. destruct (_text s) as [txt|]; [eauto | discriminate]. Qed.

Lemma configure_ok (s s' : t) :
  _configure_stimuli s = (s', Py.Ok tt) ->
  _validate s = Py.Ok tt
  /\ exists txt, _text s = Some txt /\ (List.length txt < List.length (_stimuli s'))%nat.
Proof.
  unfold _configure_stimuli. intros H.
  apply bind_ok_inv in H as (s1 & self & Hget & H). injection Hget as <- <-.
  apply bind_ok_inv in H as (s2 & [] & Hv & H). unfold Py.lift in Hv. injection Hv as <- Hv.
  split; [exact Hv|]. destruct (validate_text _ Hv) as (txt & Ht). exists txt.
  split; [exact Ht|].
  apply bind_ok_inv in H as (s3 & n & Hn & H).
  unfold len_text, Py.bind, Py.get, Py.ret in Hn. rewrite Ht in Hn. injection Hn as <- <-.
  apply bind_ok_inv in H as (s4 & [] & Hc & H).
  apply create_stimuli_ok in Hc.
  assert (He : evolves s4 s').
  { assert (Hs' : s' = fst (s', @Py.Ok unit tt)) by reflexivity.
    rewrite Hs', <- H.
    revert s4 Hc H. 
    match goal with |- forall s4, _ -> ?c s4 = _ -> _ =>
      assert (Hev : evolving c)
    end.
    { repeat (apply evolving_bind; [evolving_step | intros ?]). evolving_step. }
    intros s4 _ _. apply Hev. }
  apply evolves_length in He. lia.
Qed.

(** ** What a configuration that passes [_validate] holds *)

Lemma checks_ok (l : list (Py.result unit)) :
  checks l = Py.Ok tt -> Forall (fun r => r = Py.Ok tt) l.
Proof.
  induction l as [|[[]|e] l IH]; cbn; intros H; try discriminate; constructor; auto.
Qed.

Lemma validate_property_ok {A} (value : prop A) (n_stim : nat) :
  _validate_property value n_stim = Py.Ok tt ->
  forall i, (i < n_stim)%nat -> exists a, value_at value i = Py.Ok (Some a).
Proof.
  destruct value as [|a|l]; unfold _validate_property, value_at; [discriminate | eauto |].
  destruct (List.length l <? n_stim)%nat eqn:E; [discriminate|].
  apply Nat.ltb_ge in E. intros _ i Hi.
  destruct (nth_error l i) as [a|] eqn:En; [eauto|].
  apply nth_error_None in En. lia.
Qed.

Lemma validate_ok_inv (s : t) (txt : list string) :
  _validate s = Py.Ok tt -> _text s = Some txt ->
  (exists onset_time,
      _onset_time s = Some onset_time
      /\ (List.length txt <= List.length onset_time)%nat)
  /\ (forall i, (i < List.length txt)%nat -> exists d, duration_at s i = Py.Ok d)
  /\ (forall i, (i < List.length txt)%nat -> exists a, value_at (_size s) i = Py.Ok (Some a))
  /\ _text_size s <> Unset
  /\ _start_rsvp_event s <> None.
Proof.
  unfold _validate. intros H Ht. rewrite Ht in H. apply checks_ok in H.
  repeat match goal with
         | H : Forall _ (_ :: _) |- _ => apply Forall_cons_iff in H as [? H]
         end.
  repeat split.
  - destruct (_onset_time s) as [onset|]; [|discriminate].
    exists onset. split; [reflexivity|].
    match goal with
    | H : _validate_property (as_prop (Some onset)) _ = _ |- _ =>
        unfold _validate_property, as_prop in H;
        destruct (List.length onset <? List.length txt)%nat eqn:E; [discriminate|]
    end.
    now apply Nat.ltb_ge in E.
  - intros i Hi. unfold duration_at.
    match goal with
    | H : _validate_property (_duration s) _ = _ |- _ =>
        destruct (validate_property_ok _ _ H i Hi) as (d & ->)
    end.
    eauto.
  - intros i Hi.
    match goal with
    | H : _validate_property (_size s) _ = _ |- _ => exact (validate_property_ok _ _ H i Hi)
    end.
  - intros E.
    match goal with
    | H : _validate_property (_text_size s) _ = _ |- _ => rewrite E in H; discriminate
    end.
  - intros E.
    match goal with
    | H : match _start_rsvp_event s with _ => _ end = _ |- _ => rewrite E in H; discriminate
    end.
Qed.

(** ** The schedule built by [init_for_trial] *)

Lemma duration_at_config (s s' : t) (i : nat) :
  _duration s' = _duration s -> duration_at s' i = duration_at s i.
Proof. unfold duration_at. now intros ->. Qed.

Lemma offset_times_config (s s' : t) (onset_time : list Q) (indices : list nat) :
  _duration s' = _duration s ->
  offset_times s' onset_time indices = offset_times s onset_time indices.
Proof.
  intros H. induction indices as [|i rest IH]; [reflexivity|].
  cbn [offset_times]. rewrite IH, (duration_at_config _ _ _ H). reflexivity.
Qed.

Lemma init_ok (s s0 : t) :
  init_for_trial s = (s0, Py.Ok tt) ->
  exists s' txt onset_time offsets,
    _configure_stimuli s = (s', Py.Ok tt)
    /\ _text s = Some txt
    /\ _onset_time s = Some onset_time
    /\ offset_times s onset_time (seq 0 (List.length txt)) = Py.Ok offsets
    /\ s0 = set_start_showing_time None
              (set_show_hide_operations
                 (Some (sorted
                          (zip_ops (firstn (List.length txt) onset_time) true (List.length txt)
                           ++ (if _last_stimulus_remains s
                               then removelast (zip_ops offsets false (List.length txt))
                               else zip_ops offsets false (List.length txt)))))
                 s').
Proof.
  unfold init_for_trial. intros H.
  apply bind_ok_inv in H as (s' & [] & Hc & H).
  pose proof (evolving_configure_stimuli s) as He. rewrite Hc in He. cbn [fst] in He.
  destruct (evolves_config _ _ He) as (Ht & _ & Ho & Hd & Hl & _).
  destruct (configure_ok _ _ Hc) as (Hv & txt & Htxt & _).
  apply bind_ok_inv in H as (s2 & n & Hn & H).
  unfold len_text, Py.bind, Py.get, Py.ret in Hn. rewrite Ht, Htxt in Hn.
  injection Hn as <- <-.
  apply bind_ok_inv in H as (s3 & self & Hg & H). injection Hg as <- <-.
  rewrite Ho in H. destruct (_onset_time s) as [onset|] eqn:Eo; [|discriminate].
  apply bind_ok_inv in H as (s4 & offsets & Hoff & H).
  unfold Py.lift in Hoff. injection Hoff as <- Hoff.
  rewrite (offset_times_config _ _ _ _ Hd) in Hoff.
  exists s', txt, onset, offsets. repeat split; try assumption.
  unfold Py.bind, Py.modify in H. rewrite Hl in H. injection H as <-. reflexivity.
Qed.

(** ** The operations popped by [update_rsvp] *)

Lemma due_time_eq (start a b : Q) (o : operation) :
  a == b -> due start a o = due start b o.
Proof.
  intros E. unfold due.
  destruct (Qle_bool (start + op_time o) a) eqn:E1;
    destruct (Qle_bool (start + op_time o) b) eqn:E2; try reflexivity.
  - apply Qle_bool_iff in E1. rewrite E in E1. apply Qle_bool_iff in E1. congruence.
  - apply Qle_bool_iff in E2. rewrite <- E in E2. apply Qle_bool_iff in E2. congruence.
Qed.

Lemma due_le (start a b : Q) (o : operation) :
  a <= b -> due start a o = true -> due start b o = true.
Proof.
  unfold due. intros Hab H. apply Qle_bool_iff in H. apply Qle_bool_iff.
  eapply Qle_trans; eassumption.
Qed.

Lemma take_due_time_eq (start a b : Q) (ops : list operation) :
  a == b -> take_due start a ops = take_due start b ops.
Proof.
  intros E. induction ops as [|o ops IH]; [reflexivity|].
  cbn. rewrite (due_time_eq _ _ _ _ E), IH. reflexivity.
Qed.

Lemma drop_due_time_eq (start a b : Q) (ops : list operation) :
  a == b -> drop_due start a ops = drop_due start b ops.
Proof.
  intros E. induction ops as [|o ops IH]; [reflexivity|].
  cbn. rewrite (due_time_eq _ _ _ _ E), IH. reflexivity.
Qed.

Lemma take_due_none (start a b : Q) (ops : list operation) :
  b <= a -> take_due start b (drop_due start a ops) = [].
Proof.
  intros Hba. induction ops as [|o ops IH]; [reflexivity|].
  cbn [drop_due]. destruct (due start a o) eqn:Ea; [exact IH|].
  cbn [take_due]. destruct (due start b o) eqn:Eb; [|reflexivity].
  rewrite (due_le _ _ _ _ Hba Eb) in Ea. discriminate.
Qed.

Lemma drop_due_none (start a b : Q) (ops : list operation) :
  b <= a -> drop_due start b (drop_due start a ops) = drop_due start a ops.
Proof.
  intros Hba. induction ops as [|o ops IH]; [reflexivity|].
  cbn [drop_due]. destruct (due start a o) eqn:Ea; [exact IH|].
  cbn [drop_due]. destruct (due start b o) eqn:Eb; [|reflexivity].
  rewrite (due_le _ _ _ _ Hba Eb) in Ea. discriminate.
Qed.

Lemma take_due_later (start a b : Q) (ops : list operation) :
  a <= b ->
  take_due start a ops ++ take_due start b (drop_due start a ops) = take_due start b ops.
Proof.
  intros Hab. induction ops as [|o ops IH]; [reflexivity|].
  cbn [take_due drop_due]. destruct (due start a o) eqn:Ea.
  - rewrite (due_le _ _ _ _ Hab Ea). cbn. now rewrite IH.
  - reflexivity.
Qed.

Lemma drop_due_later (start a b : Q) (ops : list operation) :
  a <= b -> drop_due start b (drop_due start a ops) = drop_due start b ops.
Proof.
  intros Hab. induction ops as [|o ops IH]; [reflexivity|].
  cbn [drop_due]. destruct (due start a o) eqn:Ea.
  - rewrite (due_le _ _ _ _ Hab Ea). exact IH.
  - reflexivity.
Qed.

(** Two updates pop what one update at the later of the two times pops. *)
Lemma take_due_max (start a b : Q) (ops : list operation) :
  take_due start a ops ++ take_due start b (drop_due start a ops)
  = take_due start (Qmax a b) ops.
Proof.
  destruct (Qlt_le_dec a b) as [Hlt | Hle].
  - rewrite (take_due_time_eq _ (Qmax a b) b) by (apply Q.max_r; now apply Qlt_le_weak).
    apply take_due_later. now apply Qlt_le_weak.
  - rewrite (take_due_time_eq _ (Qmax a b) a) by now apply Q.max_l.
    rewrite take_due_none by assumption. apply app_nil_r.
Qed.

Lemma drop_due_max (start a b : Q) (ops : list operation) :
  drop_due start b (drop_due start a ops) = drop_due start (Qmax a b) ops.
Proof.
  destruct (Qlt_le_dec a b) as [Hlt | Hle].
  - rewrite (drop_due_time_eq _ (Qmax a b) b) by (apply Q.max_r; now apply Qlt_le_weak).
    apply drop_due_later. now apply Qlt_le_weak.
  - rewrite (drop_due_time_eq _ (Qmax a b) a) by now apply Q.max_l.
    now apply drop_due_none.
Qed.

Lemma apply_op_length (l : list TextBox) (o : operation) :
  List.length (apply_op l o) = List.length l.
Proof.
  unfold apply_op. destruct (nth_error l (op_stim o)); [apply update_nth_length | reflexivity].
Qed.

Lemma apply_ops_length (ops : list operation) : forall l,
  List.length (apply_ops ops l) = List.length l.
Proof.
  induction ops as [|o ops IH]; intros l; [reflexivity|].
  cbn. unfold apply_ops in IH. rewrite IH. apply apply_op_length.
Qed.

Lemma apply_ops_app (ops ops' : list operation) (l : list TextBox) :
  apply_ops (ops ++ ops') l = apply_ops ops' (apply_ops ops l).
Proof. unfold apply_ops. apply fold_left_app. Qed.

Lemma update_loop_cons (time : Q) (o : operation) (rest : list operation) (s : t) :
  update_loop time (o :: rest) s =
  match _start_showing_time s with
  | None => (s, Py.Raise Py.TypeError)
  | Some start =>
      if due start time o then
        match nth_error (_stimuli s) (op_stim o) with
        | None => (set_show_hide_operations (Some rest) s, Py.Raise Py.IndexError)
        | Some stim =>
            update_loop time rest
              (set_stimuli (update_nth (op_stim o) (set_visible (op_visible o) stim)
                              (_stimuli s))
                 (set_show_hide_operations (Some rest) s))
        end
      else (s, Py.Ok tt)
  end.
Proof.
  cbn [update_loop]. unfold Py.bind, Py.get, Py.modify, Py.raise, Py.ret, due.
  destruct (_start_showing_time s) as [start|]; [|reflexivity].
  destruct (Qle_bool (start + op_time o) time); [|reflexivity].
  destruct (nth_error (_stimuli s) (op_stim o)); reflexivity.
Qed.

Lemma set_fields_same (s : t) (ops : list operation) :
  _show_hide_operations s = Some ops ->
  set_stimuli (_stimuli s) (set_show_hide_operations (Some ops) s) = s.
Proof. destruct s; cbn. now intros ->. Qed.

(** What [update_rsvp] does once the showing has started: the operations
    that are due are popped, in their order, and applied to the stimuli. *)
Lemma update_loop_spec (start time : Q) (ops : list operation) : forall s,
  _start_showing_time s = Some start ->
  _show_hide_operations s = Some ops ->
  Forall (fun o => (op_stim o < List.length (_stimuli s))%nat) ops ->
  update_loop time ops s
  = (set_stimuli (apply_ops (take_due start time ops) (_stimuli s))
       (set_show_hide_operations (Some (drop_due start time ops)) s), Py.Ok tt).
Proof.
  induction ops as [|o rest IH]; intros s Hs Ho Hb.
  - cbn. now rewrite set_fields_same.
  - rewrite update_loop_cons, Hs. cbn [take_due drop_due].
    inversion Hb as [|o' l Hob Hrest]; subst.
    destruct (due start time o); [|cbn; now rewrite set_fields_same].
    destruct (nth_error (_stimuli s) (op_stim o)) as [stim|] eqn:En;
      [|apply nth_error_None in En; lia].
    rewrite IH; cbn [_start_showing_time _show_hide_operations _stimuli set_stimuli
                      set_show_hide_operations];
      [| assumption | reflexivity | now rewrite update_nth_length].
    cbn [apply_ops fold_left]. unfold apply_op at 2. rewrite En. reflexivity.
Qed.

Lemma update_rsvp_spec (start time : Q) (ops : list operation) (s : t) :
  _start_showing_time s = Some start ->
  _show_hide_operations s = Some ops ->
  Forall (fun o => (op_stim o < List.length (_stimuli s))%nat) ops ->
  update_rsvp time s
  = (set_stimuli (apply_ops (take_due start time ops) (_stimuli s))
       (set_show_hide_operations (Some (drop_due start time ops)) s), Py.Ok tt).
Proof.
  intros Hs Ho Hb. unfold update_rsvp, Py.bind, Py.get. rewrite Ho.
  now apply update_loop_spec.
Qed.

Lemma drop_due_Forall (P : operation -> Prop) (start time : Q) (ops : list operation) :
  Forall P ops -> Forall P (drop_due start time ops).
Proof.
  induction 1 as [|o ops Ho H IH]; [constructor|].
  cbn. destruct (due start time o); [exact IH | now constructor].
Qed.

(** A run of updates pops what a single update at the latest of its times
    pops. *)
Lemma updates_spec (start : Q) (ops : list operation) (l : list TextBox)
    (times : list Q) : forall (a : Q) (s : t),
  _start_showing_time s = Some start ->
  _show_hide_operations s = Some (drop_due start a ops) ->
  _stimuli s = apply_ops (take_due start a ops) l ->
  Forall (fun o => (op_stim o < List.length l)%nat) ops ->
  updates times s
  = (set_stimuli (apply_ops (take_due start (latest a times) ops) l)
       (set_show_hide_operations (Some (drop_due start (latest a times) ops)) s),
     Py.Ok tt).
Proof.
  induction times as [|b times IH]; intros a s Hs Ho Hl Hb.
  - cbn. rewrite <- Hl. now rewrite set_fields_same.
  - cbn [updates]. unfold Py.bind.
    rewrite (update_rsvp_spec start b _ s Hs Ho).
    2:{ apply drop_due_Forall. rewrite Hl, apply_ops_length. exact Hb. }
    rewrite (IH (Qmax a b)); cbn [_start_showing_time _show_hide_operations _stimuli
                                    set_stimuli set_show_hide_operations].
    + reflexivity.
    + assumption.
    + now rewrite drop_due_max.
    + now rewrite Hl, <- apply_ops_app, take_due_max.
    + assumption.
Qed.

(** ** The order of the schedule *)

Lemma insert_In (o x : operation) (l : list operation) :
  In x (insert o l) <-> x = o \/ In x l.
Proof.
  induction l as [|y l IH]; cbn.
  - split; intros [H|H]; auto.
  - destruct (Qle_bool (op_time o) (op_time y)); cbn.
    + split; intros [H|[H|H]]; auto.
    + rewrite IH. split; intros [H|[H|H]]; auto.
Qed.

Lemma sorted_In (x : operation) (l : list operation) : In x (sorted l) <-> In x l.
Proof.
  induction l as [|o l IH]; cbn; [tauto|].
  rewrite insert_In, IH. split; intros [H|H]; auto.
Qed.

Lemma insert_sorted (o : operation) (l : list operation) :
  StronglySorted by_time l -> StronglySorted by_time (insert o l).
Proof.
  induction 1 as [|y l Hl IH Hy]; cbn.
  - constructor; constructor.
  - destruct (Qle_bool (op_time o) (op_time y)) eqn:E.
    + apply Qle_bool_iff in E. constructor; [constructor; assumption|].
      constructor; [exact E|].
      apply Forall_forall. intros z Hz. rewrite Forall_forall in Hy.
      unfold by_time in *. eapply Qle_trans; [exact E | now apply Hy].
    + constructor; [exact IH|].
      apply Forall_forall. intros z Hz. apply insert_In in Hz as [-> | Hz].
      * unfold by_time. apply Qlt_le_weak, Qnot_le_lt. intros Hle.
        apply Qle_bool_iff in Hle. congruence.
      * rewrite Forall_forall in Hy. now apply Hy.
Qed.

Lemma sorted_sorted (l : list operation) : StronglySorted by_time (sorted l).
Proof.
  induction l as [|o l IH]; cbn; [constructor | now apply insert_sorted].
Qed.

Lemma take_due_sorted (start time : Q) (ops : list operation) :
  StronglySorted by_time ops -> StronglySorted by_time (take_due start time ops).
Proof.
  induction 1 as [|o ops Hs IH Ho]; cbn; [constructor|].
  destruct (due start time o); [|constructor].
  constructor; [exact IH|].
  apply Forall_forall. intros z Hz. rewrite Forall_forall in Ho. apply Ho.
  clear - Hz. induction ops as [|y ops IH]; cbn in *; [contradiction|].
  destruct (due start time y); [|contradiction].
  destruct Hz as [->|Hz]; [now left | right; auto].
Qed.

Lemma take_due_In (start time : Q) (ops : list operation) (x : operation) :
  StronglySorted by_time ops ->
  (In x (take_due start time ops) <-> In x ops /\ due start time x = true).
Proof.
  induction 1 as [|o ops Hs IH Ho]; cbn; [tauto|].
  destruct (due start time o) eqn:E; cbn.
  - rewrite IH. split.
    + intros [<-|[H1 H2]]; auto.
    + intros [[<-|H1] H2]; auto.
  - split; [contradiction|]. intros [[<-|H1] H2]; [congruence|].
    rewrite Forall_forall in Ho. specialize (Ho x H1). unfold by_time in Ho.
    unfold due in *. apply Qle_bool_iff in H2.
    assert (Hd : Qle_bool (start + op_time o) time = true).
    { apply Qle_bool_iff. eapply Qle_trans; [|exact H2]. lra. }
    congruence.
Qed.

(** ** The visibility the operations leave *)

Lemma apply_op_visible (l : list TextBox) (o : operation) (i : nat) :
  option_map visible (nth_error (apply_op l o) i)
  = option_map (fun b => if Nat.eqb (op_stim o) i then op_visible o else visible b)
      (nth_error l i).
Proof.
  unfold apply_op. destruct (Nat.eqb_spec (op_stim o) i) as [E|E].
  - subst i. destruct (nth_error l (op_stim o)) as [stim|] eqn:En.
    + now rewrite (update_nth_same _ _ _ _ En).
    + now rewrite En.
  - destruct (nth_error l (op_stim o)) as [stim|] eqn:En; [|reflexivity].
    now rewrite update_nth_other.
Qed.

Lemma apply_ops_visible (ops : list operation) (i : nat) : forall l,
  option_map visible (nth_error (apply_ops ops l) i)
  = option_map (fun b => final_visible i ops (visible b)) (nth_error l i).
Proof.
  induction ops as [|o ops IH]; intros l.
  - cbn. destruct (nth_error l i); reflexivity.
  - change (apply_ops (o :: ops) l) with (apply_ops ops (apply_op l o)).
    rewrite IH. pose proof (apply_op_visible l o i) as H.
    destruct (nth_error (apply_op l o) i) as [b'|]; destruct (nth_error l i) as [b|];
      cbn in *; try discriminate; [|reflexivity].
    injection H as H. unfold final_visible. cbn [fold_left]. now rewrite H.
Qed.

Lemma has_op_true (i : nat) (v : bool) (ops : list operation) :
  has_op i v ops = true
  <-> exists o, In o ops /\ op_stim o = i /\ op_visible o = v.
Proof.
  unfold has_op. rewrite existsb_exists. split.
  - intros (o & Hin & H). apply andb_true_iff in H as [H1 H2].
    apply Nat.eqb_eq in H1. apply Bool.eqb_prop in H2. eauto.
  - intros (o & Hin & H1 & H2). exists o. split; [exact Hin|].
    apply andb_true_iff. split; [now apply Nat.eqb_eq|]. subst v. apply Bool.eqb_reflx.
Qed.

Lemma final_visible_cons (i : nat) (o : operation) (ops : list operation) (init : bool) :
  final_visible i (o :: ops) init
  = final_visible i ops (if Nat.eqb (op_stim o) i then op_visible o else init).
Proof. reflexivity. Qed.

Lemma has_op_cons (i : nat) (v : bool) (o : operation) (ops : list operation) :
  has_op i v (o :: ops)
  = (Nat.eqb (op_stim o) i && Bool.eqb (op_visible o) v) || has_op i v ops.
Proof. reflexivity. Qed.

(** Without an operation that hides stimulus [i], it ends visible when it
    started visible or an operation shows it. *)
Lemma final_visible_no_hide (i : nat) (ops : list operation) : forall init,
  has_op i false ops = false ->
  final_visible i ops init = init || has_op i true ops.
Proof.
  induction ops as [|o ops IH]; intros init H.
  - cbn. now rewrite orb_false_r.
  - rewrite has_op_cons in H. apply orb_false_iff in H as [H1 H2].
    rewrite final_visible_cons, has_op_cons, (IH _ H2).
    destruct (Nat.eqb (op_stim o) i); cbn in *; [|reflexivity].
    destruct (op_visible o); cbn in *; [|discriminate].
    now rewrite orb_true_r.
Qed.

(** In a schedule in the order of the times where stimulus [i] is shown
    before it is hidden, an operation that hides it leaves it hidden. *)
Lemma final_visible_hide (i : nat) (onset offset : Q) (ops : list operation) :
  onset < offset ->
  StronglySorted by_time ops ->
  (forall o, In o ops -> op_stim o = i ->
             op_time o == (if op_visible o then onset else offset)) ->
  forall init, has_op i false ops = true -> final_visible i ops init = false.
Proof.
  intros Hlt Hs. induction Hs as [|o ops Hs IH Ho]; intros Hst init H; [discriminate|].
  rewrite final_visible_cons. rewrite has_op_cons in H.
  assert (Hst' : forall o', In o' ops -> op_stim o' = i ->
                            op_time o' == (if op_visible o' then onset else offset)).
  { intros o' Hin. apply Hst. now right. }
  destruct (has_op i false ops) eqn:Eh; [now apply IH|].
  rewrite orb_false_r in H. apply andb_true_iff in H as [H1 H2].
  rewrite H1. apply Nat.eqb_eq in H1. apply Bool.eqb_prop in H2.
  rewrite (final_visible_no_hide _ _ _ Eh), H2. cbn.
  destruct (has_op i true ops) eqn:Et; [|reflexivity]. exfalso.
  apply has_op_true in Et as (o' & Hin & Hi & Hv).
  rewrite Forall_forall in Ho. specialize (Ho o' Hin). unfold by_time in Ho.
  pose proof (Hst o (or_introl eq_refl) H1) as E1. rewrite H2 in E1.
  pose proof (Hst' o' Hin Hi) as E2. rewrite Hv in E2.
  rewrite E1, E2 in Ho. apply (Qlt_irrefl onset). eapply Qlt_le_trans; eassumption.
Qed.

Lemma final_visible_schedule (i : nat) (onset offset : Q) (ops : list operation) :
  onset < offset ->
  StronglySorted by_time ops ->
  (forall o, In o ops -> op_stim o = i ->
             op_time o == (if op_visible o then onset else offset)) ->
  final_visible i ops false = has_op i true ops && negb (has_op i false ops).
Proof.
  intros Hlt Hs Hst. destruct (has_op i false ops) eqn:Eh.
  - rewrite (final_visible_hide i onset offset ops Hlt Hs Hst false Eh).
    now rewrite andb_false_r.
  - rewrite (final_visible_no_hide _ _ _ Eh). cbn. now rewrite andb_true_r.
Qed.

(** ** The operations of the schedule *)

Lemma combine_seq_In {A} (times : list A) : forall (a n : nat) (x : A) (i : nat),
  In (x, i) (combine times (seq a n))
  <-> (a <= i < a + n)%nat /\ nth_error times (i - a) = Some x.
Proof.
  induction times as [|y times IH]; intros a n x i.
  - cbn. split; [contradiction|]. intros [_ H]. destruct (i - a)%nat; discriminate.
  - destruct n as [|n]; cbn [seq combine].
    + cbn. split; [contradiction | lia].
    + cbn [In]. rewrite IH. split.
      * intros [H | [H1 H2]].
        -- injection H as <- <-. rewrite Nat.sub_diag. split; [lia | reflexivity].
        -- split; [lia|]. replace (i - a)%nat with (S (i - S a)) by lia. exact H2.
      * intros [H1 H2]. destruct (Nat.eq_dec i a) as [->|Hne].
        -- rewrite Nat.sub_diag in H2. injection H2 as <-. now left.
        -- right. split; [lia|].
           replace (i - a)%nat with (S (i - S a)) in H2 by lia. exact H2.
Qed.

Lemma zip_ops_In (times : list Q) (v : bool) (n : nat) (o : operation) :
  In o (zip_ops times v n)
  <-> op_visible o = v /\ (op_stim o < n)%nat
      /\ nth_error times (op_stim o) = Some (op_time o).
Proof.
  unfold zip_ops. rewrite in_map_iff. destruct o as [[t v'] i].
  unfold op_visible, op_stim, op_time. cbn [fst snd]. split.
  - intros ([t' i'] & H & Hin). cbn [fst snd] in H. injection H as <- <- <-.
    apply combine_seq_In in Hin as [H1 H2]. rewrite Nat.sub_0_r in H2.
    repeat split; [lia | exact H2].
  - intros (<- & H1 & H2). exists (t, i). split; [reflexivity|].
    apply combine_seq_In. rewrite Nat.sub_0_r. split; [lia | exact H2].
Qed.

Lemma removelast_combine_seq {A} (times : list A) : forall (a n : nat),
  List.length times = n ->
  removelast (combine times (seq a n)) = combine times (seq a (n - 1)).
Proof.
  induction times as [|x times IH]; intros a n Hn; [reflexivity|].
  destruct n as [|n]; [discriminate|]. cbn [List.length] in Hn. injection Hn as Hn.
  destruct times as [|y times].
  - cbn in Hn. subst n. reflexivity.
  - destruct n as [|n]; [discriminate|].
    replace (S (S n) - 1)%nat with (S n) by lia.
    specialize (IH (S a) (S n) Hn). replace (S n - 1)%nat with n in IH by lia.
    change (seq a (S (S n))) with (a :: seq (S a) (S n)).
    change (seq a (S n)) with (a :: seq (S a) n).
    cbn [combine]. cbn [combine] in IH.
    change (seq (S a) (S n)) with (S a :: seq (S (S a)) n) in *.
    cbn [combine] in *. cbn [removelast] in *. now rewrite IH.
Qed.

Lemma removelast_map {A B} (g : A -> B) (l : list A) :
  removelast (map g l) = map g (removelast l).
Proof.
  induction l as [|x l IH]; [reflexivity|].
  destruct l as [|y l]; [reflexivity|].
  cbn [map removelast] in *. now rewrite IH.
Qed.

Lemma removelast_zip_ops (times : list Q) (v : bool) (n : nat) :
  List.length times = n ->
  removelast (zip_ops times v n) = zip_ops times v (n - 1).
Proof.
  intros Hn. unfold zip_ops. rewrite removelast_map. f_equal.
  now apply removelast_combine_seq.
Qed.

Lemma offset_times_ok (s : t) (onset_time : list Q) (indices : list nat) :
  forall offsets,
    offset_times s onset_time indices = Py.Ok offsets ->
    Forall2 (fun i offset =>
               exists onset d,
                 nth_error onset_time i = Some onset
                 /\ duration_at s i = Py.Ok d
                 /\ offset = onset + d)
      indices offsets.
Proof.
  induction indices as [|i rest IH]; intros offsets H.
  - cbn in H. injection H as <-. constructor.
  - cbn [offset_times] in H.
    destruct (nth_error onset_time i) as [onset|] eqn:En; [|discriminate].
    unfold Py.rbind in H. destruct (duration_at s i) as [d|e] eqn:Ed; [|discriminate].
    destruct (offset_times s onset_time rest) as [l|e]; [|discriminate].
    injection H as <-. constructor; [|now apply IH].
    exists onset, d. auto.
Qed.

Lemma Forall2_nth_l {A B} (P : A -> B -> Prop) (l : list A) (l' : list B) (k : nat) (x : A) :
  Forall2 P l l' -> nth_error l k = Some x ->
  exists y, nth_error l' k = Some y /\ P x y.
Proof.
  intros H. revert k. induction H as [|a b l l' Hab H IH]; intros [|k] Hk; cbn in *;
    try discriminate.
  - injection Hk as <-. eauto.
  - now apply IH.
Qed.

Lemma nth_error_seq0 (n i : nat) : (i < n)%nat -> nth_error (seq 0 n) i = Some i.
Proof.
  intros H. rewrite nth_error_nth' with (d := O) by (now rewrite length_seq).
  now rewrite seq_nth.
Qed.

Lemma offsets_nth (s : t) (onset_time offsets : list Q) (n i : nat) :
  offset_times s onset_time (seq 0 n) = Py.Ok offsets ->
  (i < n)%nat ->
  List.length offsets = n
  /\ exists onset d,
      nth_error onset_time i = Some onset
      /\ duration_at s i = Py.Ok d
      /\ nth_error offsets i = Some (onset + d).
Proof.
  intros H Hi. apply offset_times_ok in H. split.
  - apply Forall2_length in H. now rewrite length_seq in H.
  - destruct (Forall2_nth_l _ _ _ i i H (nth_error_seq0 _ _ Hi))
      as (offset & Hn & onset & d & H1 & H2 & ->).
    exists onset, d. auto.
Qed.

(** ** The visibility of the stimuli during a trial *)

Lemma schedule_In (onset_time offsets : list Q) (n : nat) (last : bool) (o : operation) :
  List.length offsets = n ->
  (In o (zip_ops (firstn n onset_time) true n
         ++ (if last then removelast (zip_ops offsets false n) else zip_ops offsets false n))
   <-> (op_stim o < n)%nat
       /\ ((op_visible o = true /\ nth_error onset_time (op_stim o) = Some (op_time o))
           \/ (op_visible o = false /\ nth_error offsets (op_stim o) = Some (op_time o)
               /\ (last = true -> (S (op_stim o) < n)%nat)))).
Proof.
  intros Hn. rewrite in_app_iff.
  assert (Hh : In o (if last then removelast (zip_ops offsets false n)
                     else zip_ops offsets false n)
               <-> op_visible o = false /\ (op_stim o < n)%nat
                   /\ nth_error offsets (op_stim o) = Some (op_time o)
                   /\ (last = true -> (S (op_stim o) < n)%nat)).
  { destruct last.
    - rewrite (removelast_zip_ops _ _ _ Hn), zip_ops_In. split.
      + intros (H1 & H2 & H3). repeat split; auto; lia.
      + intros (H1 & H2 & H3 & H4). specialize (H4 eq_refl). repeat split; auto; lia.
    - rewrite zip_ops_In. split.
      + intros (H1 & H2 & H3). repeat split; auto. discriminate.
      + intros (H1 & H2 & H3 & _). auto. }
  rewrite Hh, zip_ops_In. split.
  - intros [(H1 & H2 & H3) | (H1 & H2 & H3 & H4)].
    + split; [exact H2|]. left. split; [exact H1|].
      rewrite nth_error_firstn in H3.
      destruct (op_stim o <? n)%nat; [exact H3 | discriminate].
    + split; [exact H2|]. right. auto.
  - intros (H2 & [(H1 & H3) | (H1 & H3 & H4)]).
    + left. repeat split; auto. rewrite nth_error_firstn.
      apply Nat.ltb_lt in H2. now rewrite H2.
    + right. auto.
Qed.

(** X29.  The visibility of the stimuli when the object is driven without
    events.  After [init_for_trial] on an object whose text boxes are all
    hidden, with positive durations, [start_showing] followed by any calls of
    [update_rsvp], in any order of their times, returns normally, and
    stimulus [i] is then visible exactly when its onset has passed at the
    latest of the times and its duration has not (or it is the last
    stimulus and [last_stimulus_remains] is set): how often and when
    [update_rsvp] was called in between makes no difference. *)
Theorem rsvp_visibility (self s0 : t) (txt : list string) (time : Q) (times : list Q) :
  init_for_trial self = (s0, Py.Ok tt) ->
  _text self = Some txt ->
  Forall (fun b => visible b = false) (_stimuli self) ->
  (forall i d, duration_at self i = Py.Ok d -> 0 < d) ->
  exists s1,
    run time times s0 = (s1, Py.Ok tt)
    /\ forall i, (i < List.length txt)%nat ->
        exists b onset d,
          nth_error (_stimuli s1) i = Some b
          /\ (exists onset_time,
                _onset_time self = Some onset_time
                /\ nth_error onset_time i = Some onset)
          /\ duration_at self i = Py.Ok d
          /\ (visible b = true
              <-> time + onset <= latest time times
                  /\ (latest time times < time + onset + d
                      \/ (_last_stimulus_remains self = true /\ S i = List.length txt))).
Proof.
  intros Hinit Htxt Hhidden Hdur.
  destruct (init_ok _ _ Hinit) as (s' & txt' & onset_time & offsets & Hc & Ht' & Ho & Hoff & Hs0).
  rewrite Htxt in Ht'. injection Ht' as <-.
  set (n := List.length txt) in *.
  pose proof (evolving_configure_stimuli self) as He. rewrite Hc in He. cbn [fst] in He.
  destruct (configure_ok _ _ Hc) as (Hv & txt' & Ht' & Hlen).
  rewrite Htxt in Ht'. injection Ht' as <-. fold n in Hlen.
  destruct He as (l0 & extra & Hs' & Hk & Hf).
  set (L := l0 ++ extra) in *.
  assert (HL : _stimuli s' = L) by (rewrite Hs'; reflexivity).
  rewrite HL in Hlen.
  assert (HLhidden : Forall (fun b => visible b = false) L).
  { apply Forall_app. split.
    - clear - Hk Hhidden. induction Hk as [|a b l l' [Hab _] H IH]; [constructor|].
      inversion Hhidden; subst. constructor; [congruence | auto].
    - eapply Forall_impl; [|exact Hf]. now intros b [H _]. }
  set (ops := zip_ops (firstn n onset_time) true n
              ++ (if _last_stimulus_remains self
                  then removelast (zip_ops offsets false n)
                  else zip_ops offsets false n)) in *.
  assert (Hofflen : List.length offsets = n).
  { destruct n as [|n'] eqn:En.
    - cbn in Hoff. injection Hoff as <-. reflexivity.
    - exact (proj1 (offsets_nth _ _ _ _ O Hoff ltac:(lia))). }
  assert (Hops : forall o, In o (sorted ops) <->
             (op_stim o < n)%nat
             /\ ((op_visible o = true /\ nth_error onset_time (op_stim o) = Some (op_time o))
                 \/ (op_visible o = false /\ nth_error offsets (op_stim o) = Some (op_time o)
                     /\ (_last_stimulus_remains self = true -> (S (op_stim o) < n)%nat)))).
  { intros o. rewrite sorted_In. now apply schedule_In. }
  assert (Hbounds : Forall (fun o => (op_stim o < List.length L)%nat) (sorted ops)).
  { apply Forall_forall. intros o Hin. apply Hops in Hin as [H _]. lia. }
  (* the run *)
  set (T := latest time times).
  assert (Hrun : run time times s0
                 = (set_stimuli (apply_ops (take_due time T (sorted ops)) L)
                      (set_show_hide_operations (Some (drop_due time T (sorted ops)))
                         (set_start_showing_time (Some time) s0)), Py.Ok tt)).
  { unfold run, start_showing, Py.bind at 1 2, Py.modify.
    rewrite (update_rsvp_spec time time (sorted ops));
      [| rewrite Hs0; reflexivity | rewrite Hs0; reflexivity
       | rewrite Hs0; cbn [_stimuli set_start_showing_time set_show_hide_operations];
         rewrite HL; exact Hbounds ].
    rewrite (updates_spec time (sorted ops) L times time);
      [| reflexivity | reflexivity
       | rewrite Hs0; cbn [_stimuli set_stimuli set_start_showing_time
                            set_show_hide_operations]; now rewrite HL
       | exact Hbounds ].
    reflexivity. }
  eexists. split; [exact Hrun|].
  intros i Hi. cbn [_stimuli set_stimuli].
  destruct (offsets_nth _ _ _ _ i Hoff Hi) as (_ & onset & d & Hon & Hd & Hoffi).
  pose proof (Hdur i d Hd) as Hdpos.
  destruct (nth_error L i) as [b0|] eqn:Eb0; [|apply nth_error_None in Eb0; lia].
  assert (Hb0 : visible b0 = false).
  { rewrite Forall_forall in HLhidden. apply HLhidden. eapply nth_error_In; eassumption. }
  pose proof (apply_ops_visible (take_due time T (sorted ops)) i L) as Hvis.
  rewrite Eb0 in Hvis. cbn [option_map] in Hvis. rewrite Hb0 in Hvis.
  destruct (nth_error (apply_ops (take_due time T (sorted ops)) L) i) as [b|] eqn:Eb;
    [|discriminate].
  cbn [option_map] in Hvis. injection Hvis as Hvis.
  exists b, onset, d. split; [reflexivity|]. split; [eauto|]. split; [exact Hd|].
  pose proof (sorted_sorted ops) as Hsorted.
  assert (Hst : forall o, In o (take_due time T (sorted ops)) -> op_stim o = i ->
                          op_time o == (if op_visible o then onset else onset + d)).
  { intros o Hin Hoi. apply (take_due_In _ _ _ _ Hsorted) in Hin as [Hin _].
    apply Hops in Hin as (_ & [(H1 & H2) | (H1 & H2 & _)]); rewrite Hoi in H2; rewrite H1.
    - rewrite Hon in H2. injection H2 as <-. reflexivity.
    - rewrite Hoffi in H2. injection H2 as <-. reflexivity. }
  rewrite Hvis.
  rewrite (final_visible_schedule i onset (onset + d) _ ltac:(lra)
             (take_due_sorted _ _ _ Hsorted) Hst).
  assert (Hshow : has_op i true (take_due time T (sorted ops)) = true <-> time + onset <= T).
  { rewrite has_op_true. split.
    - intros (o & Hin & Hoi & Hov).
      apply (take_due_In _ _ _ _ Hsorted) in Hin as [Hin Hdue].
      apply Hops in Hin as (_ & [(_ & H2) | (H1 & _)]); [|congruence].
      rewrite Hoi, Hon in H2. injection H2 as H2.
      unfold due in Hdue. apply Qle_bool_iff in Hdue. now rewrite <- H2 in Hdue.
    - intros Hle. exists (onset, true, i). split; [|split; reflexivity].
      apply (take_due_In _ _ _ _ Hsorted). split.
      + apply Hops. cbn. split; [exact Hi|]. left. auto.
      + unfold due. apply Qle_bool_iff. exact Hle. }
  assert (Hhide : has_op i false (take_due time T (sorted ops)) = true
                  <-> time + onset + d <= T
                      /\ ~ (_last_stimulus_remains self = true /\ S i = n)).
  { rewrite has_op_true. split.
    - intros (o & Hin & Hoi & Hov).
      apply (take_due_In _ _ _ _ Hsorted) in Hin as [Hin Hdue].
      apply Hops in Hin as (_ & [(H1 & _) | (_ & H2 & H3)]); [congruence|].
      rewrite Hoi in H2, H3. rewrite Hoffi in H2. injection H2 as H2.
      unfold due in Hdue. apply Qle_bool_iff in Hdue. rewrite <- H2 in Hdue.
      split; [lra|]. intros [Hl Hn]. specialize (H3 Hl). lia.
    - intros [Hle Hnot]. exists (onset + d, false, i). split; [|split; reflexivity].
      apply (take_due_In _ _ _ _ Hsorted). split.
      + apply Hops. cbn. split; [exact Hi|]. right. repeat split; auto.
        intros Hl. destruct (Nat.eq_dec (S i) n) as [E|E]; [|lia].
        exfalso. apply Hnot. auto.
      + unfold due. apply Qle_bool_iff. cbn. lra. }
  rewrite andb_true_iff, negb_true_iff. split.
  - intros [H1 H2]. apply Hshow in H1. split; [exact H1|].
    destruct (Qlt_le_dec T (time + onset + d)) as [Hlt | Hge]; [now left|].
    right. destruct (_last_stimulus_remains self) eqn:El.
    + destruct (Nat.eq_dec (S i) n) as [E|E]; [auto|].
      exfalso. assert (Ht : has_op i false (take_due time T (sorted ops)) = true).
      { apply Hhide. split; [exact Hge|]. intros [_ Hn]. contradiction. }
      congruence.
    + exfalso. assert (Ht : has_op i false (take_due time T (sorted ops)) = true).
      { apply Hhide. split; [exact Hge|]. intros [Hl _]. discriminate. }
      congruence.
  - intros [H1 H2]. split; [now apply Hshow|].
    destruct (has_op i false (take_due time T (sorted ops))) eqn:Eh; [|reflexivity].
    exfalso. destruct (proj1 Hhide eq_refl) as [Hle Hnot].
    destruct H2 as [Hlt | H2]; [lra | auto].
Qed.

Lemma rsvp_visibility_witness :
  exists s1,
    run 0 [1 # 2; 3; 2]
      (fst (init_for_trial (configured ["a"%string; "b"%string] [0; 1] (Single 1) false)))
    = (s1, Py.Ok tt).
Proof.
  destruct (rsvp_visibility (configured ["a"%string; "b"%string] [0; 1] (Single 1) false)
              (fst (init_for_trial (configured ["a"%string; "b"%string] [0; 1] (Single 1) false)))
              ["a"%string; "b"%string] 0 [1 # 2; 3; 2])
    as (s1 & Hrun & _).
  - vm_compute. reflexivity.
  - reflexivity.
  - constructor.
  - intros i d H. unfold duration_at in H. cbn in H. injection H as <-. reflexivity.
  - exists s1. exact Hrun.
Defined.

(** ** One text box too many *)

Lemma create_from_raises (sizes : list (Z * Z)) (indices : list nat) : forall s,
  _size s = Multiple sizes ->
  (exists i, In i indices /\ (List.length sizes <= i)%nat) ->
  snd (create_from indices s) = Py.Raise Py.IndexError.
Proof.
  induction indices as [|i rest IH]; intros s Hs (j & Hin & Hj); [contradiction|].
  rewrite create_from_cons, Hs. unfold value_at.
  destruct (nth_error sizes i) as [sz|] eqn:En; [|reflexivity].
  apply IH; [exact Hs|]. destruct Hin as [->|Hin]; [|eauto].
  exfalso. apply nth_error_None in Hj. congruence.
Qed.

Lemma create_stimuli_raises (sizes : list (Z * Z)) (n_stim : nat) (s : t) :
  _size s = Multiple sizes ->
  (List.length sizes <= n_stim)%nat ->
  (List.length (_stimuli s) <= n_stim)%nat ->
  snd (_create_stimuli n_stim s) = Py.Raise Py.IndexError.
Proof.
  intros Hs Hl Hn. unfold _create_stimuli, Py.bind, Py.get.
  apply (create_from_raises sizes); [exact Hs|].
  exists n_stim. split; [|exact Hl]. apply in_seq. lia.
Qed.

Lemma bind_raise {A B} (c : Py.M t A) (k : A -> Py.M t B) (s : t) (e : Py.exn) :
  snd (c s) = Py.Raise e -> snd (Py.bind c k s) = Py.Raise e.
Proof. unfold Py.bind. destruct (c s) as [s' [a|e']]; cbn; congruence. Qed.

(** X26.  [_create_stimuli] creates one text box more than there are
    texts.  With one size for each text (a list of exactly as many sizes,
    which [_validate] accepts) and no more text boxes than texts so far,
    [init_for_trial] therefore raises [IndexError], and so does reading
    [stim_visibility]. *)
Theorem one_size_per_text_raises (self : t) (txt : list string) (sizes : list (Z * Z)) :
  _validate self = Py.Ok tt ->
  _text self = Some txt ->
  _size self = Multiple sizes ->
  List.length sizes = List.length txt ->
  (List.length (_stimuli self) <= List.length txt)%nat ->
  snd (init_for_trial self) = Py.Raise Py.IndexError
  /\ snd (stim_visibility self) = Py.Raise Py.IndexError.
Proof.
  intros Hv Ht Hs Hl Hn.
  assert (Hc : snd (_create_stimuli (List.length txt) self) = Py.Raise Py.IndexError).
  { apply (create_stimuli_raises sizes); [exact Hs | lia | exact Hn]. }
  split.
  - unfold init_for_trial. apply bind_raise.
    unfold _configure_stimuli, Py.bind at 1, Py.get at 1.
    unfold Py.bind at 1, Py.lift at 1. rewrite Hv.
    unfold Py.bind at 1, len_text at 1, Py.bind at 1, Py.get at 1, Py.ret. rewrite Ht.
    apply bind_raise. exact Hc.
  - unfold stim_visibility.
    unfold Py.bind at 1, len_text at 1, Py.bind at 1, Py.get at 1, Py.ret. rewrite Ht.
    apply bind_raise. exact Hc.
Qed.

Lemma one_size_per_text_raises_witness :
  snd (init_for_trial
         (mk (Some ["a"%string; "b"%string]) (Single "Arial"%string) (Single 12%Z) (Single false)
            (Single false) (Single false) (Single "center"%string)
            (Single (255, 255, 255)%Z) (Single (0, 0, 0)%Z)
            (Multiple [(100, 40)%Z; (100, 40)%Z]) (Single (0, 0)%Z) (Some [0; 1])
            (Single 1) false (Some "start"%string) [] None None))
  = Py.Raise Py.IndexError.
Proof.
  refine (proj1 (one_size_per_text_raises
                   (mk (Some ["a"%string; "b"%string]) (Single "Arial"%string) (Single 12%Z)
                      (Single false) (Single false) (Single false) (Single "center"%string)
                      (Single (255, 255, 255)%Z) (Single (0, 0, 0)%Z)
                      (Multiple [(100, 40)%Z; (100, 40)%Z]) (Single (0, 0)%Z) (Some [0; 1])
                      (Single 1) false (Some "start"%string) [] None None)
                   ["a"%string; "b"%string] [(100, 40)%Z; (100, 40)%Z] _ _ _ _ _));
    try reflexivity.
  cbn. lia.
Defined.

(** ** What the initialisation of a trial leaves alone *)

Lemma init_stimuli (s : t) :
  _stimuli (fst (init_for_trial s)) = _stimuli (fst (_configure_stimuli s)).
Proof.
  unfold init_for_trial. unfold Py.bind at 1.
  destruct (_configure_stimuli s) as [s' [[]|e]]; [|reflexivity]. cbn [fst].
  unfold Py.bind at 1, len_text, Py.bind at 1, Py.get at 1, Py.ret, Py.raise.
  destruct (_text s') as [txt|]; [|reflexivity].
  unfold Py.bind at 1, Py.get at 1.
  destruct (_onset_time s') as [onset|]; [|reflexivity].
  unfold Py.bind at 1, Py.lift.
  destruct (offset_times s' onset (seq 0 (List.length txt))) as [offsets|e]; reflexivity.
Qed.

(** X27.  [init_for_trial] never hides a stimulus and never applies
    [text_size]: however it ends, the text boxes that existed keep their
    visibility (one left visible by the previous trial stays so) and their
    text size, and those it creates are hidden and have no text size
    assigned; yet it succeeds only if [text_size] was set. *)
Theorem init_keeps_visibility_and_text_size (self : t) :
  (exists l0 extra,
      _stimuli (fst (init_for_trial self)) = l0 ++ extra
      /\ Forall2 kept (_stimuli self) l0
      /\ Forall fresh extra)
  /\ (snd (init_for_trial self) = Py.Ok tt -> _text_size self <> Unset).
Proof.
  split.
  - rewrite init_stimuli.
    destruct (evolving_configure_stimuli self) as (l0 & extra & -> & Hk & Hf).
    exists l0, extra. auto.
  - intros H. destruct (init_for_trial self) as [s0 r] eqn:E. cbn in H. subst r.
    destruct (init_ok _ _ E) as (s' & txt & _ & _ & Hc & Ht & _).
    destruct (configure_ok _ _ Hc) as (Hv & _).
    exact (proj1 (proj2 (proj2 (proj2 (validate_ok_inv _ _ Hv Ht))))).
Qed.

(** ** Updates before the showing has started *)

(** X28.  [update_rsvp] needs [init_for_trial] and then [start_showing]:
    before the first it raises [AttributeError], the operations not being
    there; after a successful [init_for_trial] with at least one text and
    before [start_showing] it raises [TypeError], the start time being
    [None]; neither changes the object. *)
Theorem update_rsvp_needs_start (self s0 : t) (time : Q) :
  (_show_hide_operations self = None ->
   update_rsvp time self = (self, Py.Raise Py.AttributeError))
  /\ (init_for_trial self = (s0, Py.Ok tt) ->
      _text self <> Some [] ->
      update_rsvp time s0 = (s0, Py.Raise Py.TypeError)).
Proof.
  split.
  - intros H. unfold update_rsvp, Py.bind, Py.get, Py.raise. now rewrite H.
  - intros Hinit Hne.
    destruct (init_ok _ _ Hinit) as (s' & txt & onset_time & offsets & Hc & Ht & Ho & Hoff & ->).
    destruct (configure_ok _ _ Hc) as (Hv & _).
    destruct (validate_ok_inv _ _ Hv Ht) as ((onset' & Ho' & Hlen) & _).
    rewrite Ho in Ho'. injection Ho' as <-.
    destruct txt as [|a txt]; [congruence|]. cbn [List.length] in *.
    destruct onset_time as [|onset rest]; [cbn in Hlen; lia|].
    unfold update_rsvp, Py.bind, Py.get.
    cbn [_show_hide_operations set_start_showing_time set_show_hide_operations].
    match goal with |- update_loop _ (sorted ?l) _ = _ => set (ops := l) end.
    assert (Hin : In (onset, true, O) (sorted ops)).
    { apply sorted_In. unfold ops. apply in_app_iff. left. cbn. now left. }
    destruct (sorted ops) as [|o l]; [contradiction|].
    rewrite update_loop_cons. reflexivity.
Qed.

Lemma update_rsvp_needs_start_witness :
  update_rsvp 5 (fst (init_for_trial (configured ["a"%string; "b"%string] [0; 1] (Single 1) false)))
  = (fst (init_for_trial (configured ["a"%string; "b"%string] [0; 1] (Single 1) false)),
     Py.Raise Py.TypeError).
Proof.
  apply (proj2 (update_rsvp_needs_start
                  (configured ["a"%string; "b"%string] [0; 1] (Single 1) false)
                  (fst (init_for_trial (configured ["a"%string; "b"%string] [0; 1] (Single 1) false)))
                  5)).
  - vm_compute. reflexivity.
  - discriminate.
Defined.

End RSVPTextFacts.
